(** * SafeHer: the local persistence layer and its derived queries

    A shallow embedding of the JavaScript sources

    - [DatabaseManager] (the IndexedDB wrapper: [add], [get], [getAll],
      [getByIndex], [update], [delete]),
    - [Utils.calculateDistance] and [Utils.storage],
    - [UserManager.deleteAccount], [CommunityManager.getNearbyResponders],
      [rateResponder] and [addResponder], [LocationManager.saveLocation],
      [getLocationHistory] and [isInSafeZone], [SOSManager.triggerSOS],
      [cancelSOS] and [resolveSOS], [APIService.request],
      [addToOfflineQueue] and [processOfflineQueue],

    followed by the vocabulary of the statements (among it the haversine
    formula and the great-circle distance of [Sphere], written from their
    definitions and not from the code) and by the theorems that settle the
    properties stated for them.

    Conventions.  A JavaScript object is a finite map from property names to
    values; a missing property reads as [VUndef].  A JavaScript number is a
    rational ([Q]) or [VNaN]: rounding, infinities and the sign of zero are
    not modelled, and a computation that would leave the rationals (a
    division by zero, an operand that is not a number) is [NaN].  The results
    of [Math.sin], [Math.cos], [Math.sqrt] and [Math.atan2] are real numbers
    ([R]).  An [async] function is modelled by its result once every awaited
    promise has settled; a rejected promise is an [Err].  A function that
    reads the clock ([new Date().toISOString()]) takes the time of the call
    as an argument [now].  The key generator of an object store is modelled
    without its ceiling of 2^53; the statements that need a generated key
    ask for it ([keys_left]). *)

From Stdlib Require Import ZArith QArith Qround Reals Lra Lia Bool.
From Stdlib Require Lqa.
From Stdlib Require Import String Ascii DecimalString List Permutation Sorted.
From stdpp Require Import gmap strings list.

Import ListNotations.
Local Open Scope string_scope.
Local Open Scope Z_scope.

(** ** JavaScript values *)

Module JS.

Inductive value : Type :=
| VUndef
| VNull
| VBool (b : bool)
| VNum (q : Q)
| VNaN
| VStr (s : string).

(** An object literal; reading a missing property gives [undefined]. *)
Definition field (o : gmap string value) (f : string) : value :=
  match o !! f with
  | Some v => v
  | None => VUndef
  end.

(** [o.f = v]; a property set to [undefined] reads like a missing one. *)
Definition set_field (f : string) (v : value) (o : gmap string value)
  : gmap string value :=
  match v with
  | VUndef => delete f o
  | _ => <[f := v]> o
  end.

(** [{ f1: v1, f2: v2, ... }]: later properties win. *)
Fixpoint object (props : list (string * value)) : gmap string value :=
  match props with
  | [] => ∅
  | (f, v) :: rest => set_field f v (object rest)
  end.

(** ToBoolean. *)
Definition truthy (v : value) : bool :=
  match v with
  | VBool b => b
  | VNum q => negb (Qeq_bool q 0)
  | VStr s => negb (String.eqb s "")
  | VUndef | VNull | VNaN => false
  end.

(** [a || b]. *)
Definition or_else (a b : value) : value := if truthy a then a else b.

(** ToNumber; [None] is NaN.  The empty string is 0; other strings are not
    parsed (the application never stores a number as a string), and neither
    is the concatenation that [+] performs on a string modelled: the
    statements are made for values that the arithmetic does not have to
    parse (see [unparsed]). *)
Definition ToNumber (v : value) : option Q :=
  match v with
  | VNum q => Some q
  | VNull => Some 0%Q
  | VBool b => Some (if b then 1%Q else 0%Q)
  | VStr s => if String.eqb s "" then Some 0%Q else None
  | VUndef | VNaN => None
  end.

Definition of_number (n : option Q) : value :=
  match n with
  | Some q => VNum q
  | None => VNaN
  end.

(** [a + b], [a * b], [a / b] on numbers, NaN propagating. *)
Definition num_add (a b : option Q) : option Q :=
  match a, b with
  | Some x, Some y => Some (x + y)%Q
  | _, _ => None
  end.

Definition num_mul (a b : option Q) : option Q :=
  match a, b with
  | Some x, Some y => Some (x * y)%Q
  | _, _ => None
  end.

Definition num_div (a b : option Q) : option Q :=
  match a, b with
  | Some x, Some y => if Qeq_bool y 0 then None else Some (x / y)%Q
  | _, _ => None
  end.

(** [a < b] on numbers: false as soon as one side is NaN. *)
Definition num_lt (a b : option Q) : bool :=
  match a, b with
  | Some x, Some y => negb (Qle_bool y x)
  | _, _ => false
  end.

(** The same values seen as reals, for the results of [Math] functions. *)
Definition ToReal (v : value) : option R :=
  match ToNumber v with
  | Some q => Some (Q2R q)
  | None => None
  end.

(** [a <= b] on real-valued numbers: false as soon as one side is NaN. *)
Definition le_real (a b : option R) : bool :=
  match a, b with
  | Some x, Some y => if Rle_dec x y then true else false
  | _, _ => false
  end.

(** [Array.prototype.sort(compareFn)], a stable sort: [gt a b] says that
    [compareFn(a, b) > 0], that is, [a] has to come after [b]. *)
Section Sort.
Context {A : Type} (gt : A -> A -> bool).

Fixpoint sort_insert (x : A) (l : list A) : list A :=
  match l with
  | [] => [x]
  | y :: rest => if gt x y then y :: sort_insert x rest else x :: y :: rest
  end.

Fixpoint sort (l : list A) : list A :=
  match l with
  | [] => []
  | x :: rest => sort_insert x (sort rest)
  end.
End Sort.

(** [array.slice(0, n)] for an integer [n]: a negative [n] counts from the
    end of the array. *)
Definition slice0 {A : Type} (l : list A) (n : Z) : list A :=
  if 0 <=? n then firstn (Z.to_nat n) l
  else firstn (Z.to_nat (Z.of_nat (List.length l) + n)) l.

(** [a === b]. *)
Definition strict_eq (a b : value) : bool :=
  match a, b with
  | VUndef, VUndef => true
  | VNull, VNull => true
  | VBool x, VBool y => Bool.eqb x y
  | VNum x, VNum y => Qeq_bool x y
  | VStr x, VStr y => String.eqb x y
  | _, _ => false
  end.

(** [{ ...a, ...b }]: the properties of [b] win ([b] has no property set
    to [undefined]: see [set_field]). *)
Definition spread (a b : gmap string value) : gmap string value := b ∪ a.

(** ToString, for the values whose conversion is modelled: every value but
    a number that is not an integer ([None]).  An integer is written in
    decimal digits (the exponent notation of very large numbers is not
    modelled). *)
Definition ToString (v : value) : option string :=
  match v with
  | VUndef => Some "undefined"
  | VNull => Some "null"
  | VBool true => Some "true"
  | VBool false => Some "false"
  | VNaN => Some "NaN"
  | VStr s => Some s
  | VNum q =>
      if Qeq_bool q (inject_Z (Qfloor q))
      then Some (NilZero.string_of_int (Z.to_int (Qfloor q)))
      else None
  end.

End JS.

Import JS.

Abbreviation obj := (gmap string value).

(** ** IndexedDB object stores

    The part of the Indexed Database API that [DatabaseManager] relies on:
    object stores with the in-line key path ["id"] and a key generator
    ([autoIncrement: true]), and indexes whose key path is their name. *)

Module IDB.

(** What a promise is rejected with, or what is thrown. *)
Inductive exception : Type :=
| NotFoundError      (* no such object store or index *)
| DataError          (* the value is not a valid key *)
| ConstraintError    (* a key or a unique index value already exists *)
| TypeError          (* a property of [undefined] was read or written *)
| JsError (msg : string).    (* [throw new Error(msg)] *)

Inductive result (A : Type) : Type :=
| Ok (a : A)
| Err (e : exception).
Arguments Ok {A} a.
Arguments Err {A} e.

(** Valid keys: numbers (not NaN) and strings. *)
Definition valid_key (v : value) : bool :=
  match v with
  | VNum _ | VStr _ => true
  | _ => false
  end.

Definition key_eqb (a b : value) : bool :=
  match a, b with
  | VNum x, VNum y => Qeq_bool x y
  | VStr s, VStr t => String.eqb s t
  | _, _ => false
  end.

(** The order of keys: numbers before strings. *)
Definition key_ltb (a b : value) : bool :=
  match a, b with
  | VNum x, VNum y => negb (Qle_bool y x)
  | VNum _, VStr _ => true
  | VStr s, VStr t => String.ltb s t
  | _, _ => false
  end.

(** An object store: the current number of its key generator and its
    records, in ascending order of their keys. *)
Record ObjectStore : Type := {
  keygen : Z;
  rows : list (value * obj)
}.

Fixpoint find_row (k : value) (rs : list (value * obj)) : option obj :=
  match rs with
  | [] => None
  | (k', o) :: rest => if key_eqb k k' then Some o else find_row k rest
  end.

Fixpoint put_row (k : value) (o : obj) (rs : list (value * obj))
  : list (value * obj) :=
  match rs with
  | [] => [(k, o)]
  | (k', o') :: rest =>
      if key_eqb k k' then (k, o) :: rest
      else if key_ltb k k' then (k, o) :: (k', o') :: rest
      else (k', o') :: put_row k o rest
  end.

Definition delete_row (k : value) (rs : list (value * obj))
  : list (value * obj) :=
  List.filter (fun r => negb (key_eqb k (fst r))) rs.

(** The indexes of a store: name (also the key path) and uniqueness. *)
Definition indexes := list (string * bool).

(** A record is in an index when its value at the key path is a valid key.
    [clash idx self o rs]: some record of [rs] other than the one with
    primary key [self] has the same key as [o] in a unique index. *)
Definition same_index_key (f : string) (o o' : obj) : bool :=
  valid_key (field o f) && key_eqb (field o f) (field o' f).

Definition clash (idx : indexes) (self : value) (o : obj)
           (rs : list (value * obj)) : bool :=
  existsb (fun ix : string * bool =>
             snd ix &&
             existsb (fun r : value * obj =>
                        negb (key_eqb self (fst r)) &&
                        same_index_key (fst ix) o (snd r)) rs) idx.

(** The key generator after the key [k] has been stored explicitly.  (The
    ceiling of the generator at 2^53 is left out: see [keys_left].) *)
Definition bump (gen : Z) (k : value) : Z :=
  match k with
  | VNum q => if Qle_bool (inject_Z gen) q then Qfloor q + 1 else gen
  | _ => gen
  end.

(** Storing a record: [noOverwrite] is [true] for [add] and [false] for
    [put].  The result is the key of the record. *)
Definition store (noOverwrite : bool) (idx : indexes) (st : ObjectStore)
           (data : obj) : result (value * ObjectStore) :=
  match field data "id" with
  | VUndef =>
      let k := VNum (inject_Z (keygen st)) in
      let o := <["id" := k]> data in
      if match find_row k (rows st) with Some _ => true | None => false end
      then Err ConstraintError
      else if clash idx k o (rows st) then Err ConstraintError
      else Ok (k, {| keygen := keygen st + 1;
                     rows := put_row k o (rows st) |})
  | k =>
      if negb (valid_key k) then Err DataError
      else if noOverwrite &&
              match find_row k (rows st) with Some _ => true | None => false end
      then Err ConstraintError
      else if clash idx k data (rows st) then Err ConstraintError
      else Ok (k, {| keygen := bump (keygen st) k;
                     rows := put_row k data (rows st) |})
  end.

Definition store_get (st : ObjectStore) (k : value) : result (option obj) :=
  if valid_key k then Ok (find_row k (rows st)) else Err DataError.

Definition store_getAll (st : ObjectStore) : list obj :=
  List.map snd (rows st).

Definition store_delete (st : ObjectStore) (k : value) : result ObjectStore :=
  if valid_key k
  then Ok {| keygen := keygen st; rows := delete_row k (rows st) |}
  else Err DataError.

(** [index.getAll(query)]: the records whose index key is [query], in the
    order of their primary keys; with no query ([undefined] or [null])
    every record of the index, in the order of the index keys. *)
Definition index_getAll (f : string) (st : ObjectStore) (query : value)
  : result (list obj) :=
  match query with
  | VUndef | VNull =>
      Ok (sort (fun a b => key_ltb (field b f) (field a f))
               (List.filter (fun o => valid_key (field o f))
                            (store_getAll st)))
  | _ =>
      if valid_key query
      then Ok (List.filter (fun o => key_eqb (field o f) query)
                           (store_getAll st))
      else Err DataError
  end.

End IDB.

Import IDB.

(** ** DatabaseManager (src/unnamed/part_009) *)

Module DatabaseManager.

(** The object stores created by [init] in [onupgradeneeded], each with
    [{ keyPath: 'id', autoIncrement: true }], and their indexes. *)
Definition schema : list (string * indexes) :=
  [ ("users", [("phone_number", true); ("email", false)]);
    ("emergency_contacts", [("user_id", false); ("contact_type", false)]);
    ("evidence", [("user_id", false); ("type", false); ("created_at", false)]);
    ("sos_alerts", [("user_id", false); ("status", false);
                    ("triggered_at", false)]);
    ("location_history", [("user_id", false); ("timestamp", false)]);
    ("safe_zones", [("user_id", false)]);
    ("user_preferences", [("user_id", true)]);
    ("community_responders", [("type", false); ("is_verified", false)]);
    ("fake_call_templates", [("user_id", false)]);
    ("risk_detections", [("user_id", false); ("risk_level", false)]) ].

Fixpoint lookup_schema (name : string) (sch : list (string * indexes))
  : option indexes :=
  match sch with
  | [] => None
  | (n, idx) :: rest =>
      if String.eqb name n then Some idx else lookup_schema name rest
  end.

Definition indexes_of (storeName : string) : indexes :=
  match lookup_schema storeName schema with
  | Some idx => idx
  | None => []
  end.

Definition has_index (storeName indexName : string) : bool :=
  existsb (fun ix : string * bool => String.eqb indexName (fst ix))
          (indexes_of storeName).

(** An object store right after [createObjectStore]. *)
Definition empty_store : ObjectStore := {| keygen := 1; rows := [] |}.

(** The database, its object stores by name, right after [init] has
    created it. *)
Definition init : gmap string ObjectStore :=
  list_to_map (List.map (fun s : string * indexes => (fst s, empty_store))
                        schema).

(** [this.db.transaction([storeName], mode).objectStore(storeName)]. *)
Definition objectStore (db : gmap string ObjectStore) (storeName : string)
  : result ObjectStore :=
  match db !! storeName with
  | Some st => Ok st
  | None => Err NotFoundError
  end.

(** [if (!data.created_at) data.created_at = new Date().toISOString()]:
    what [add] does to the object it is given, [now] being the time of the
    call as an ISO string. *)
Definition stamp (now : string) (data : obj) : obj :=
  if truthy (field data "created_at") then data
  else <["created_at" := VStr now]> data.

(** [add(storeName, data)]: the promise resolves to the new key.  The
    second component is the database afterwards: a request that fails
    aborts its transaction and leaves the database as it was. *)
Definition add (db : gmap string ObjectStore) (storeName : string)
           (data : obj) (now : string)
  : result value * gmap string ObjectStore :=
  match objectStore db storeName with
  | Err e => (Err e, db)
  | Ok st =>
      match store true (indexes_of storeName) st (stamp now data) with
      | Ok (k, st') => (Ok k, <[storeName := st']> db)
      | Err e => (Err e, db)
      end
  end.

(** [get(storeName, id)]: the record, or [undefined] ([None]). *)
Definition get (db : gmap string ObjectStore) (storeName : string)
           (id : value) : result (option obj) :=
  match objectStore db storeName with
  | Err e => Err e
  | Ok st => store_get st id
  end.

Definition getAll (db : gmap string ObjectStore) (storeName : string)
  : result (list obj) :=
  match objectStore db storeName with
  | Err e => Err e
  | Ok st => Ok (store_getAll st)
  end.

Definition getByIndex (db : gmap string ObjectStore)
           (storeName indexName : string) (v : value) : result (list obj) :=
  match objectStore db storeName with
  | Err e => Err e
  | Ok st =>
      if has_index storeName indexName then index_getAll indexName st v
      else Err NotFoundError
  end.

(** [update(storeName, data)]: [store.put(data)], create or replace. *)
Definition update (db : gmap string ObjectStore) (storeName : string)
           (data : obj) : result value * gmap string ObjectStore :=
  match objectStore db storeName with
  | Err e => (Err e, db)
  | Ok st =>
      match store false (indexes_of storeName) st data with
      | Ok (k, st') => (Ok k, <[storeName := st']> db)
      | Err e => (Err e, db)
      end
  end.

(** [delete(storeName, id)]: resolves to [true]. *)
Definition delete (db : gmap string ObjectStore) (storeName : string)
           (id : value) : result bool * gmap string ObjectStore :=
  match objectStore db storeName with
  | Err e => (Err e, db)
  | Ok st =>
      match store_delete st id with
      | Ok st' => (Ok true, <[storeName := st']> db)
      | Err e => (Err e, db)
      end
  end.

(** Well-formed stores, as IndexedDB keeps them: every record is stored
    under the valid key found at its key path, and the key generator is
    above every numeric key in use. *)
Definition row_ok (gen : Z) (r : value * obj) : bool :=
  valid_key (fst r) && key_eqb (field (snd r) "id") (fst r) &&
  match fst r with
  | VNum q => negb (Qle_bool (inject_Z gen) q)
  | _ => true
  end.

Definition store_ok (st : ObjectStore) : bool :=
  forallb (row_ok (keygen st)) (rows st).

Definition db_ok (db : gmap string ObjectStore) : bool :=
  forallb (fun s : string * indexes =>
             match db !! fst s with
             | Some st => store_ok st
             | None => false
             end) schema.

(** [clear(storeName)]: resolves to [true]; the key generator keeps its
    current number. *)
Definition clear (db : gmap string ObjectStore) (storeName : string)
  : result bool * gmap string ObjectStore :=
  match objectStore db storeName with
  | Err e => (Err e, db)
  | Ok st => (Ok true, <[storeName := {| keygen := keygen st; rows := [] |}]> db)
  end.

(** [count(storeName)]. *)
Definition count (db : gmap string ObjectStore) (storeName : string)
  : result Z :=
  match objectStore db storeName with
  | Err e => Err e
  | Ok st => Ok (Z.of_nat (List.length (rows st)))
  end.





End DatabaseManager.

Import DatabaseManager.

(** ** Regular expressions

    The regular expressions of the sources are anchored at both ends and
    use no flag, group reference or look-around: [re.test(s)] says whether
    the whole of [s] belongs to the language of [re].  A string is the
    sequence of its code units, which are taken to be below 256. *)

Module Regex.

Inductive regex : Type :=
| Never                              (* matches nothing *)
| Empty                              (* the empty string *)
| Chars (class : ascii -> bool)      (* one character of a class *)
| Seq (r1 r2 : regex)                (* [r1 r2] *)
| Alt (r1 r2 : regex)                (* [r1|r2] *)
| Star (r : regex).                  (* [r*] *)

(** [r?], [r+], [r{n}] and [r{n,m}]. *)
Definition Opt (r : regex) : regex := Alt Empty r.
Definition Plus (r : regex) : regex := Seq r (Star r).

Fixpoint Times (n : nat) (r : regex) : regex :=
  match n with
  | O => Empty
  | S n' => Seq r (Times n' r)
  end.

Fixpoint UpTo (n : nat) (r : regex) : regex :=
  match n with
  | O => Empty
  | S n' => Opt (Seq r (UpTo n' r))
  end.

Definition Between (n m : nat) (r : regex) : regex :=
  Seq (Times n r) (UpTo (m - n) r).

(** Matching by derivatives. *)
Fixpoint nullable (r : regex) : bool :=
  match r with
  | Never => false
  | Empty => true
  | Chars _ => false
  | Seq r1 r2 => nullable r1 && nullable r2
  | Alt r1 r2 => nullable r1 || nullable r2
  | Star _ => true
  end.

Fixpoint derive (c : ascii) (r : regex) : regex :=
  match r with
  | Never => Never
  | Empty => Never
  | Chars class => if class c then Empty else Never
  | Seq r1 r2 =>
      if nullable r1 then Alt (Seq (derive c r1) r2) (derive c r2)
      else Seq (derive c r1) r2
  | Alt r1 r2 => Alt (derive c r1) (derive c r2)
  | Star r1 => Seq (derive c r1) (Star r1)
  end.

Fixpoint matches (r : regex) (s : string) : bool :=
  match s with
  | EmptyString => nullable r
  | String c rest => matches (derive c r) rest
  end.

(** The classes of characters: [c], [[0-9]], [\s]. *)
Definition char (a : ascii) : ascii -> bool := Ascii.eqb a.

Definition digit (c : ascii) : bool :=
  (48 <=? nat_of_ascii c)%nat && (nat_of_ascii c <=? 57)%nat.

Definition space (c : ascii) : bool :=
  let n := nat_of_ascii c in
  ((9 <=? n)%nat && (n <=? 13)%nat) || (n =? 32)%nat || (n =? 160)%nat.

Definition one_of (classes : list (ascii -> bool)) (c : ascii) : bool :=
  existsb (fun class => class c) classes.

Definition none_of (classes : list (ascii -> bool)) (c : ascii) : bool :=
  negb (one_of classes c).

(** [re.test(v)]: the value is converted to a string first. *)
Definition test (re : regex) (v : value) : bool :=
  match ToString v with
  | Some s => matches re s
  | None => false
  end.

End Regex.

(** ** Utils (src/unnamed/part_007) *)

Module Utils.

Local Open Scope R_scope.

(** [Math.atan2(y, x)]. *)
Definition atan2 (y x : R) : R :=
  if Rlt_dec 0 x then atan (y / x)
  else if Rlt_dec x 0
       then (if Rle_dec 0 y then atan (y / x) + PI else atan (y / x) - PI)
       else if Rlt_dec 0 y then PI / 2
            else if Rlt_dec y 0 then - (PI / 2)
                 else 0.

(** [calculateDistance(lat1, lon1, lat2, lon2)], in meters. *)
Definition calculateDistance (lat1 lon1 lat2 lon2 : R) : R :=
  let R_ := 6371000 in
  let phi1 := lat1 * PI / 180 in
  let phi2 := lat2 * PI / 180 in
  let dphi := (lat2 - lat1) * PI / 180 in
  let dlam := (lon2 - lon1) * PI / 180 in
  let a := sin (dphi / 2) * sin (dphi / 2) +
           cos phi1 * cos phi2 *
           sin (dlam / 2) * sin (dlam / 2) in
  let c := 2 * atan2 (sqrt a) (sqrt (1 - a)) in
  R_ * c.

(** The same function applied to JavaScript values: the arithmetic turns
    each argument into a number, and the result is NaN as soon as one of
    them is. *)
Definition distance (lat1 lon1 lat2 lon2 : value) : option R :=
  match ToReal lat1, ToReal lon1, ToReal lat2, ToReal lon2 with
  | Some a, Some b, Some c, Some d => Some (calculateDistance a b c d)
  | _, _, _, _ => None
  end.

(** [/^[+]?[(]?[0-9]{3}[)]?[-\s.]?[0-9]{3}[-\s.]?[0-9]{4,6}$/]. *)
Definition phoneRegex : Regex.regex :=
  let separator :=
    Regex.Chars (Regex.one_of [Regex.char "-"; Regex.space; Regex.char "."]) in
  Regex.Seq (Regex.Opt (Regex.Chars (Regex.char "+")))
    (Regex.Seq (Regex.Opt (Regex.Chars (Regex.char "(")))
       (Regex.Seq (Regex.Times 3 (Regex.Chars Regex.digit))
          (Regex.Seq (Regex.Opt (Regex.Chars (Regex.char ")")))
             (Regex.Seq (Regex.Opt separator)
                (Regex.Seq (Regex.Times 3 (Regex.Chars Regex.digit))
                   (Regex.Seq (Regex.Opt separator)
                      (Regex.Between 4 6 (Regex.Chars Regex.digit)))))))).

(** [isValidPhone(phone)]. *)
Definition isValidPhone (phone : value) : bool := Regex.test phoneRegex phone.

(** [/^[^\s@]+@[^\s@]+\.[^\s@]+$/]. *)
Definition emailRegex : Regex.regex :=
  let word :=
    Regex.Plus (Regex.Chars (Regex.none_of [Regex.space; Regex.char "@"])) in
  Regex.Seq word
    (Regex.Seq (Regex.Chars (Regex.char "@"))
       (Regex.Seq word (Regex.Seq (Regex.Chars (Regex.char ".")) word))).

(** [isValidEmail(email)]. *)
Definition isValidEmail (email : value) : bool := Regex.test emailRegex email.

End Utils.

(** ** The state of the singletons

    The fields that the functions below read or write: the content of
    [dbManager.db], [userManager.currentUser] and [sosManager.currentAlert].
    Logging, toasts and the DOM are outside the model. *)

Record State : Type := {
  db : gmap string ObjectStore;
  currentUser : option obj;
  currentAlert : option obj
}.

(** What a manager returns: [{ success: true, ... }],
    [{ success: false, error: error.message }] for the exception caught, or
    [{ success: false, cancelled: true }]. *)
Inductive outcome (A : Type) : Type :=
| Success (a : A)
| Failure (e : exception)
| Cancelled.
Arguments Success {A} a.
Arguments Failure {A} e.
Arguments Cancelled {A}.

(** The state with [preferencesManager.preferences], the preferences that
    the manager has loaded last. *)
Record Session : Type := {
  app : State;
  preferences : option obj
}.

Definition with_db (s : State) (d : gmap string ObjectStore) : State :=
  {| db := d; currentUser := currentUser s; currentAlert := currentAlert s |}.

(** ** PreferencesManager (src/unnamed/part_006) *)

Module PreferencesManager.

(** [CONFIG.THEMES] and [CONFIG.FAKE_CALL]. *)
Definition DARK : value := VStr "dark".
Definition LIGHT : value := VStr "light".

(** [createDefaultPreferences(userId)], called at the time [now]. *)
Definition createDefaultPreferences (ss : Session) (userId : value)
           (now : string) : outcome obj * Session :=
  let defaultPrefs :=
    object [ ("user_id", userId);
             ("invisible_gestures", VBool true);
             ("theme", DARK);
             ("language", VStr "en");
             ("fake_call_contact_name", VStr "Mom");
             ("fake_call_language", VStr "en");
             ("auto_record_sos", VBool true);
             ("share_location_auto", VBool true) ] in
  match add (db (app ss)) "user_preferences" defaultPrefs now with
  | (Ok id, db') =>
      let defaultPrefs := set_field "id" id (stamp now defaultPrefs) in
      (Success defaultPrefs,
       {| app := with_db (app ss) db'; preferences := Some defaultPrefs |})
  | (Err e, _) => (Failure e, ss)
  end.

(** [this.preferences && this.preferences.user_id === user.id]. *)
Definition loaded_for (ss : Session) (user : obj) : option obj :=
  match preferences ss with
  | Some loaded =>
      if strict_eq (field loaded "user_id") (field user "id")
      then Some loaded else None
  | None => None
  end.

(** [getPreferences()], called at the time [now]: the preferences, or
    [None] for [null] and [undefined]. *)
Definition getPreferences (ss : Session) (now : string)
  : option obj * Session :=
  match currentUser (app ss) with
  | None => (None, ss)
  | Some user =>
      (* Check if already loaded *)
      match loaded_for ss user with
      | Some loaded => (Some loaded, ss)
      | None =>
          (* Load from database *)
          match getByIndex (db (app ss)) "user_preferences" "user_id"
                           (field user "id") with
          | Err _ => (None, ss)
          | Ok (first :: _) =>
              (Some first, {| app := app ss; preferences := Some first |})
          | Ok [] =>
              (* Create default if not exists *)
              match createDefaultPreferences ss (field user "id") now with
              | (Success created, ss') => (Some created, ss')
              | (_, ss') => (None, ss')
              end
          end
      end
  end.

(** [updatePreferences(updates)], called at the time [now]. *)
Definition updatePreferences (ss : Session) (updates : obj) (now : string)
  : outcome obj * Session :=
  match getPreferences ss now with
  | (None, ss') => (Failure (JsError "Preferences not found"), ss')
  | (Some currentPrefs, ss') =>
      let updatedPrefs := spread currentPrefs updates in
      match update (db (app ss')) "user_preferences" updatedPrefs with
      | (Ok _, db') =>
          (Success updatedPrefs,
           {| app := with_db (app ss') db'; preferences := Some updatedPrefs |})
      | (Err e, _) => (Failure e, ss')
      end
  end.

(** [getPreference(key)]. *)
Definition getPreference (ss : Session) (key : string) (now : string)
  : value * Session :=
  match getPreferences ss now with
  | (Some prefs, ss') => (field prefs key, ss')
  | (None, ss') => (VNull, ss')
  end.

(** [setPreference(key, value)]. *)
Definition setPreference (ss : Session) (key : string) (v : value)
           (now : string) : outcome obj * Session :=
  updatePreferences ss (object [(key, v)]) now.

(** [toggleTheme()]. *)
Definition toggleTheme (ss : Session) (now : string)
  : outcome obj * Session :=
  let (currentTheme, ss') := getPreference ss "theme" now in
  let newTheme := if strict_eq currentTheme DARK then LIGHT else DARK in
  updatePreferences ss' (object [("theme", newTheme)]) now.

(** [toggleInvisibleGestures()]. *)
Definition toggleInvisibleGestures (ss : Session) (now : string)
  : outcome obj * Session :=
  let (current, ss') := getPreference ss "invisible_gestures" now in
  updatePreferences ss'
    (object [("invisible_gestures", VBool (negb (truthy current)))]) now.

End PreferencesManager.

(** ** UserManager (src/js/modules/user.js) *)

Module UserManager.

(** [logout()]. *)
Definition logout (s : State) : State :=
  {| db := db s; currentUser := None; currentAlert := currentAlert s |}.

(** [deleteAccount()]; [confirmed] is the answer to [Utils.confirm]. *)
Definition deleteAccount (s : State) (confirmed : bool)
  : outcome unit * State :=
  match currentUser s with
  | None => (Failure (JsError "No user logged in"), s)
  | Some user =>
      if negb confirmed then (Cancelled, s)
      else
        let userId := field user "id" in
        (* Delete user (cascade will delete related data) *)
        match DatabaseManager.delete (db s) "users" userId with
        | (Ok _, db') =>
            (Success tt,
             logout {| db := db'; currentUser := currentUser s;
                       currentAlert := currentAlert s |})
        | (Err e, _) => (Failure e, s)
        end
  end.

(** [isLoggedIn()] and [isGuest()]. *)
Definition isLoggedIn (s : State) : bool :=
  match currentUser s with Some _ => true | None => false end.

Definition isGuest (s : State) : bool :=
  match currentUser s with
  | Some user => strict_eq (field user "is_guest") (VBool true)
  | None => false
  end.

(** [continueAsGuest()], called at the time [now]. *)
Definition continueAsGuest (ss : Session) (now : string)
  : outcome obj * Session :=
  let guestUser :=
    object [ ("phone_number", VNull); ("name", VStr "Guest User");
             ("email", VNull); ("is_guest", VBool true);
             ("created_at", VStr now); ("last_login", VStr now) ] in
  match add (db (app ss)) "users" guestUser now with
  | (Err e, _) => (Failure e, ss)
  | (Ok userId, db') =>
      let guestUser := set_field "id" userId (stamp now guestUser) in
      (* Create default preferences *)
      let ss1 :=
        snd (PreferencesManager.createDefaultPreferences
               {| app := with_db (app ss) db'; preferences := preferences ss |}
               userId now) in
      (* Save as current user *)
      (Success guestUser,
       {| app := {| db := db (app ss1); currentUser := Some guestUser;
                    currentAlert := currentAlert (app ss1) |};
          preferences := preferences ss1 |})
  end.

(** [getUserStats()]: the numbers of evidence records, alerts, contacts
    and locations of the current user, or [None] for [null]. *)
Record Stats : Type := {
  evidenceCount : nat;
  sosAlertsCount : nat;
  contactsCount : nat;
  locationCount : nat
}.

Definition getUserStats (s : State) : option Stats :=
  match currentUser s with
  | None => None
  | Some user =>
      let userId := field user "id" in
      match getByIndex (db s) "evidence" "user_id" userId,
            getByIndex (db s) "sos_alerts" "user_id" userId,
            getByIndex (db s) "emergency_contacts" "user_id" userId,
            getByIndex (db s) "location_history" "user_id" userId with
      | Ok evidence, Ok alerts, Ok contacts, Ok locations =>
          Some {| evidenceCount := List.length evidence;
                  sosAlertsCount := List.length alerts;
                  contactsCount := List.length contacts;
                  locationCount := List.length locations |}
      | _, _, _, _ => None
      end
  end.

(** [saveCurrentUser(user)]. *)
Definition saveCurrentUser (s : State) (user : obj) : State :=
  {| db := db s; currentUser := Some user; currentAlert := currentAlert s |}.

(** [register(userData)], called at the time [now]. *)
Definition register (ss : Session) (userData : obj) (now : string)
  : outcome obj * Session :=
  let phone_number := field userData "phone_number" in
  let name := field userData "name" in
  let email := field userData "email" in
  (* Validate input *)
  if negb (truthy phone_number)
  then (Failure (JsError "Phone number is required"), ss)
  else if truthy phone_number && negb (Utils.isValidPhone phone_number)
  then (Failure (JsError "Invalid phone number"), ss)
  else if truthy email && negb (Utils.isValidEmail email)
  then (Failure (JsError "Invalid email address"), ss)
  else
    (* Check if user already exists *)
    match getByIndex (db (app ss)) "users" "phone_number" phone_number with
    | Err e => (Failure e, ss)
    | Ok (_ :: _) =>
        (Failure (JsError "User with this phone number already exists"), ss)
    | Ok [] =>
        (* Create user *)
        let user :=
          object [ ("phone_number", phone_number);
                   ("name", or_else name (VStr "Guest User"));
                   ("email", or_else email VNull);
                   ("is_guest", VBool false);
                   ("created_at", VStr now);
                   ("last_login", VStr now) ] in
        match add (db (app ss)) "users" user now with
        | (Err e, _) => (Failure e, ss)
        | (Ok userId, db') =>
            let user := set_field "id" userId (stamp now user) in
            (* Create default preferences *)
            let ss1 :=
              snd (PreferencesManager.createDefaultPreferences
                     {| app := with_db (app ss) db';
                        preferences := preferences ss |}
                     userId now) in
            (* Save as current user *)
            (Success user,
             {| app := saveCurrentUser (app ss1) user;
                preferences := preferences ss1 |})
        end
    end.

(** [login(phone_number)], called at the time [now]. *)
Definition login (s : State) (phone_number : value) (now : string)
  : outcome obj * State :=
  if negb (truthy phone_number) || negb (Utils.isValidPhone phone_number)
  then (Failure (JsError "Invalid phone number"), s)
  else
    (* Find user *)
    match getByIndex (db s) "users" "phone_number" phone_number with
    | Err e => (Failure e, s)
    | Ok [] => (Failure (JsError "User not found. Please register first."), s)
    | Ok (user :: _) =>
        (* Update last login *)
        let user := set_field "last_login" (VStr now) user in
        match update (db s) "users" user with
        | (Err e, _) => (Failure e, s)
        | (Ok _, db') =>
            (* Save as current user *)
            (Success user, saveCurrentUser (with_db s db') user)
        end
    end.

(** [updateProfile(updates)]. *)
Definition updateProfile (s : State) (updates : obj)
  : outcome obj * State :=
  match currentUser s with
  | None => (Failure (JsError "No user logged in"), s)
  | Some current =>
      (* Validate updates *)
      if truthy (field updates "phone_number") &&
         negb (Utils.isValidPhone (field updates "phone_number"))
      then (Failure (JsError "Invalid phone number"), s)
      else if truthy (field updates "email") &&
              negb (Utils.isValidEmail (field updates "email"))
      then (Failure (JsError "Invalid email address"), s)
      else
        (* Update user *)
        let updatedUser := spread current updates in
        match update (db s) "users" updatedUser with
        | (Err e, _) => (Failure e, s)
        | (Ok _, db') =>
            (Success updatedUser, saveCurrentUser (with_db s db') updatedUser)
        end
  end.

End UserManager.

(** ** handleLogin (src/js/app.js) *)

Module App.

(** [error.message], [dom] giving the message of a [DOMException]. *)
Definition message (dom : exception -> string) (e : exception) : string :=
  match e with
  | JsError msg => msg
  | _ => dom e
  end.

(** [haystack.includes(needle)]. *)
Definition includes (haystack needle : string) : bool :=
  match String.index 0 needle haystack with
  | Some _ => true
  | None => false
  end.

(** [handleLogin(phoneNumber)], called at the time [now]; [input] is the
    value of the telephone field of the login screen.  [None] is the
    return without an attempt, for a missing phone number. *)
Definition handleLogin (dom : exception -> string) (ss : Session)
           (phoneNumber input : value) (now : string)
  : option (outcome obj) * Session :=
  let phoneNumber := if truthy phoneNumber then phoneNumber else input in
  if negb (truthy phoneNumber) then (None, ss)
  else
    (* Try to login *)
    match UserManager.login (app ss) phoneNumber now with
    | (Failure e, s') =>
        (* If user doesn't exist, register *)
        if includes (message dom e) "not found"
        then
          let (result, ss') :=
            UserManager.register
              {| app := s'; preferences := preferences ss |}
              (object [("phone_number", phoneNumber)]) now in
          (Some result, ss')
        else (Some (Failure e), {| app := s'; preferences := preferences ss |})
    | (result, s') =>
        (Some result, {| app := s'; preferences := preferences ss |})
    end.

End App.

(** ** ContactsManager (src/unnamed/part_001) *)

Module ContactsManager.

(** [addContact(contactData)], called at the time [now]. *)
Definition addContact (s : State) (contactData : obj) (now : string)
  : outcome obj * State :=
  match currentUser s with
  | None => (Failure (JsError "User not logged in"), s)
  | Some user =>
      (* Validate phone number *)
      if truthy (field contactData "phone_number") &&
         negb (Utils.isValidPhone (field contactData "phone_number"))
      then (Failure (JsError "Invalid phone number"), s)
      else
        let contact :=
          object
            [ ("user_id", field user "id");
              ("name", field contactData "name");
              ("phone_number", field contactData "phone_number");
              ("relationship",
               or_else (field contactData "relationship") (VStr ""));
              ("priority", or_else (field contactData "priority") (VNum 0));
              ("is_active", VBool true);
              ("contact_type",
               or_else (field contactData "contact_type") (VStr "personal"));
              ("created_at", VStr now) ] in
        match add (db s) "emergency_contacts" contact now with
        | (Ok id, db') =>
            (Success (set_field "id" id (stamp now contact)), with_db s db')
        | (Err e, _) => (Failure e, s)
        end
  end.

(** [b.priority - a.priority > 0]. *)
Definition lower_priority (a b : obj) : bool :=
  match ToNumber (field b "priority"), ToNumber (field a "priority") with
  | Some pb, Some pa => negb (Qle_bool (pb - pa) 0)
  | _, _ => false
  end.

(** [getContacts()]. *)
Definition getContacts (s : State) : list obj :=
  match currentUser s with
  | None => []
  | Some user =>
      match getByIndex (db s) "emergency_contacts" "user_id"
                       (field user "id") with
      | Err _ => []
      | Ok contacts =>
          (* Sort by priority (highest first) *)
          sort lower_priority contacts
      end
  end.

(** [getActiveContacts()]. *)
Definition getActiveContacts (s : State) : list obj :=
  List.filter (fun contact => truthy (field contact "is_active"))
              (getContacts s).

(** [updateContact(contactId, updates)]. *)
Definition updateContact (s : State) (contactId : value) (updates : obj)
  : outcome obj * State :=
  match get (db s) "emergency_contacts" contactId with
  | Err e => (Failure e, s)
  | Ok None => (Failure (JsError "Contact not found"), s)
  | Ok (Some contact) =>
      (* Validate phone number if being updated *)
      if truthy (field updates "phone_number") &&
         negb (Utils.isValidPhone (field updates "phone_number"))
      then (Failure (JsError "Invalid phone number"), s)
      else
        let updatedContact := spread contact updates in
        match update (db s) "emergency_contacts" updatedContact with
        | (Ok _, db') => (Success updatedContact, with_db s db')
        | (Err e, _) => (Failure e, s)
        end
  end.

(** [deleteContact(contactId)]; [confirmed] is the answer to
    [Utils.confirm]. *)
Definition deleteContact (s : State) (confirmed : bool) (contactId : value)
  : outcome unit * State :=
  if negb confirmed then (Cancelled, s)
  else
    match DatabaseManager.delete (db s) "emergency_contacts" contactId with
    | (Ok _, db') => (Success tt, with_db s db')
    | (Err e, _) => (Failure e, s)
    end.

(** [toggleContact(contactId)]. *)
Definition toggleContact (s : State) (contactId : value)
  : outcome obj * State :=
  match get (db s) "emergency_contacts" contactId with
  | Err e => (Failure e, s)
  | Ok None => (Failure (JsError "Contact not found"), s)
  | Ok (Some contact) =>
      let contact :=
        set_field "is_active"
                  (VBool (negb (truthy (field contact "is_active")))) contact in
      match update (db s) "emergency_contacts" contact with
      | (Ok _, db') => (Success contact, with_db s db')
      | (Err e, _) => (Failure e, s)
      end
  end.

End ContactsManager.

(** ** CommunityManager (src/unnamed/part_002) *)

Module CommunityManager.

(** An element of the result of [getNearbyResponders]:
    [{ ...responder, distance }]. *)
Record Nearby : Type := {
  responder : obj;
  distance : option R     (* kilometers; [None] is NaN *)
}.

Definition getAllResponders (db : gmap string ObjectStore) : list obj :=
  match getAll db "community_responders" with
  | Ok responders => responders
  | Err _ => []
  end.

Definition kilometers (d : option R) : option R :=
  match d with
  | Some x => Some (x / 1000)%R
  | None => None
  end.

(** [a.distance - b.distance > 0]. *)
Definition farther (a b : Nearby) : bool :=
  match distance a, distance b with
  | Some x, Some y => if Rlt_dec 0 (x - y) then true else false
  | _, _ => false
  end.

(** [getNearbyResponders(latitude, longitude, radiusKm = 10)]. *)
Definition getNearbyResponders (db : gmap string ObjectStore)
           (latitude longitude radiusKm : value) : list Nearby :=
  let radiusKm := match radiusKm with VUndef => VNum 10 | v => v end in
  let allResponders := getAllResponders db in
  (* Filter responders with location data *)
  let respondersWithLocation :=
    List.filter (fun r => truthy (field r "latitude") &&
                          truthy (field r "longitude")) allResponders in
  (* Calculate distances and filter by radius *)
  sort farther
    (List.filter (fun r => le_real (distance r) (ToReal radiusKm))
       (List.map (fun r =>
                    {| responder := r;
                       distance :=
                         kilometers
                           (Utils.distance latitude longitude
                              (field r "latitude") (field r "longitude")) |})
                 respondersWithLocation)).

(** [rateResponder(responderId, rating)]. *)
Definition rateResponder (db : gmap string ObjectStore)
           (responderId rating : value)
  : outcome obj * gmap string ObjectStore :=
  if num_lt (ToNumber rating) (Some 0%Q) ||
     num_lt (Some 5%Q) (ToNumber rating)
  then (Failure (JsError "Rating must be between 0 and 5"), db)
  else
    match get db "community_responders" responderId with
    | Err e => (Failure e, db)
    | Ok None => (Failure (JsError "Responder not found"), db)
    | Ok (Some responder) =>
        (* Calculate new rating (simple average for now) *)
        let totalRating :=
          num_add (num_mul (ToNumber (field responder "rating"))
                         (ToNumber (field responder "response_count")))
                 (ToNumber rating) in
        let responder1 :=
          set_field "response_count"
            (of_number (num_add (ToNumber (field responder "response_count"))
                               (Some 1%Q))) responder in
        let responder2 :=
          set_field "rating"
            (of_number (num_div totalRating
                          (ToNumber (field responder1 "response_count"))))
            responder1 in
        match update db "community_responders" responder2 with
        | (Ok _, db') => (Success responder2, db')
        | (Err e, _) => (Failure e, db)
        end
    end.

(** [addResponder(responderData)], called at the time [now]. *)
Definition addResponder (db : gmap string ObjectStore) (responderData : obj)
           (now : string) : outcome obj * gmap string ObjectStore :=
  let responder :=
    object
      [ ("name", field responderData "name");
        ("type", field responderData "type");
        ("phone_number", or_else (field responderData "phone_number") VNull);
        ("latitude", or_else (field responderData "latitude") VNull);
        ("longitude", or_else (field responderData "longitude") VNull);
        ("address", or_else (field responderData "address") VNull);
        ("is_verified",
         or_else (field responderData "is_verified") (VBool false));
        ("is_available", VBool true);
        ("rating", VNum 0);
        ("response_count", VNum 0);
        ("created_at", VStr now) ] in
  match add db "community_responders" responder now with
  | (Ok id, db') => (Success (set_field "id" id responder), db')
  | (Err e, _) => (Failure e, db)
  end.

(** [getRespondersByType(type)]. *)
Definition getRespondersByType (db : gmap string ObjectStore) (type : value)
  : list obj :=
  match getByIndex db "community_responders" "type" type with
  | Ok responders => responders
  | Err _ => []
  end.

(** [sendHelpRequest(responderId = null)]; [location] is what
    [Utils.getCurrentLocation] settled to.  The result carries the
    responders that the request went to. *)
Definition sendHelpRequest (s : State) (responderId : value)
           (location : result obj) : outcome (list obj * obj) :=
  match currentUser s with
  | None => Failure (JsError "User not logged in")
  | Some user =>
      match location with
      | Err e => Failure e
      | Ok location =>
          let selected :=
            if truthy responderId then
              (* Send to specific responder *)
              match get (db s) "community_responders" responderId with
              | Err e => Err e
              | Ok (Some responder) => Ok [responder]
              | Ok None => Ok []
              end
            else
              (* Send to all verified and available responders *)
              Ok (List.filter
                    (fun r => truthy (field r "is_verified") &&
                              truthy (field r "is_available"))
                    (getAllResponders (db s))) in
          match selected with
          | Err e => Failure e
          | Ok [] => Failure (JsError "No available responders found")
          | Ok responders => Success (responders, location)
          end
      end
  end.

End CommunityManager.

(** ** LocationManager (src/unnamed/part_003) *)

Module LocationManager.

(** The loop of [isInSafeZone]: it returns at the first zone that contains
    the point. *)
Definition contains (latitude longitude : value) (zone : obj) : bool :=
  le_real (Utils.distance latitude longitude
             (field zone "latitude") (field zone "longitude"))
          (ToReal (field zone "radius")).

Fixpoint first_containing (latitude longitude : value) (zones : list obj)
  : bool :=
  match zones with
  | [] => false
  | zone :: rest =>
      if contains latitude longitude zone then true
      else first_containing latitude longitude rest
  end.

(** [isInSafeZone(latitude, longitude)]. *)
Definition isInSafeZone (s : State) (latitude longitude : value) : bool :=
  match currentUser s with
  | None => false
  | Some user =>
      match getByIndex (db s) "safe_zones" "user_id" (field user "id") with
      | Err _ => false
      | Ok safeZones =>
          let activeSafeZones :=
            List.filter (fun zone => truthy (field zone "is_active"))
                        safeZones in
          first_containing latitude longitude activeSafeZones
      end
  end.

(** [saveLocation(location)], called at the time [now]. *)
Definition saveLocation (s : State) (location : obj) (now : string)
  : outcome obj * State :=
  match currentUser s with
  | None => (Failure (JsError "User not logged in"), s)
  | Some user =>
      let locationRecord :=
        object
          [ ("user_id", field user "id");
            ("latitude", field location "latitude");
            ("longitude", field location "longitude");
            ("accuracy", or_else (field location "accuracy") VNull);
            ("timestamp", or_else (field location "timestamp") (VStr now));
            ("address", or_else (field location "address") VNull);
            ("is_safe_zone",
             VBool (isInSafeZone s (field location "latitude")
                                   (field location "longitude"))) ] in
      match add (db s) "location_history" locationRecord now with
      | (Ok id, db') =>
          (Success (set_field "id" id (stamp now locationRecord)),
           {| db := db'; currentUser := currentUser s;
              currentAlert := currentAlert s |})
      | (Err e, _) => (Failure e, s)
      end
  end.

Section History.
(** [new Date(s).getTime()] for a string: the time in milliseconds, or
    [None] for an invalid date. *)
Variable Date_parse : string -> option Z.

Definition truncate (q : Q) : Z :=
  if Qle_bool 0 q then Qfloor q else Qceiling q.

(** The time value of [new Date(v)]. *)
Definition Date_of (v : value) : option Z :=
  match v with
  | VStr s => Date_parse s
  | VNum q => Some (truncate q)
  | VNull => Some 0
  | VBool b => Some (if b then 1 else 0)
  | VUndef | VNaN => None
  end.

(** [new Date(b.timestamp) - new Date(a.timestamp) > 0]. *)
Definition older (a b : obj) : bool :=
  match Date_of (field b "timestamp"), Date_of (field a "timestamp") with
  | Some tb, Some ta => 0 <? tb - ta
  | _, _ => false
  end.

(** [getLocationHistory(limit = 100)]; [None] is an omitted argument. *)
Definition getLocationHistory (s : State) (limit : option Z) : list obj :=
  let limit := match limit with Some n => n | None => 100 end in
  match currentUser s with
  | None => []
  | Some user =>
      match getByIndex (db s) "location_history" "user_id"
                       (field user "id") with
      | Err _ => []
      | Ok locations =>
          (* Sort by timestamp (newest first) *)
          let locations := sort older locations in
          (* Limit results *)
          if negb (limit =? 0) then slice0 locations limit
          else locations
      end
  end.
End History.

(** [addSafeZone(name, latitude, longitude, radius = 100)], called at the
    time [now]. *)
Definition addSafeZone (s : State) (name latitude longitude radius : value)
           (now : string) : outcome obj * State :=
  let radius := match radius with VUndef => VNum 100 | v => v end in
  match currentUser s with
  | None => (Failure (JsError "User not logged in"), s)
  | Some user =>
      let safeZone :=
        object [ ("user_id", field user "id"); ("name", name);
                 ("latitude", latitude); ("longitude", longitude);
                 ("radius", radius); ("is_active", VBool true);
                 ("created_at", VStr now) ] in
      match add (db s) "safe_zones" safeZone now with
      | (Ok id, db') =>
          (Success (set_field "id" id (stamp now safeZone)), with_db s db')
      | (Err e, _) => (Failure e, s)
      end
  end.

(** [getSafeZones()]. *)
Definition getSafeZones (s : State) : list obj :=
  match currentUser s with
  | None => []
  | Some user =>
      match getByIndex (db s) "safe_zones" "user_id" (field user "id") with
      | Ok safeZones => safeZones
      | Err _ => []
      end
  end.

(** [deleteSafeZone(zoneId)]. *)
Definition deleteSafeZone (s : State) (zoneId : value)
  : outcome unit * State :=
  match DatabaseManager.delete (db s) "safe_zones" zoneId with
  | (Ok _, db') => (Success tt, with_db s db')
  | (Err e, _) => (Failure e, s)
  end.

End LocationManager.

(** ** Utils.timeAgo (src/unnamed/part_007) *)

Module UtilsDate.

(** [Object.entries(intervals)], in the order of the literal. *)
Definition intervals : list (string * Z) :=
  [ ("year", 31536000); ("month", 2592000); ("week", 604800);
    ("day", 86400); ("hour", 3600); ("minute", 60) ].

(** The loop of [timeAgo]: the first unit of which a whole one has
    passed. *)
Fixpoint first_interval (seconds : Z) (units : list (string * Z)) : string :=
  match units with
  | [] => "Just now"
  | (unit, secondsInUnit) :: rest =>
      let interval := seconds / secondsInUnit in
      if 1 <=? interval
      then NilZero.string_of_int (Z.to_int interval) ++ " " ++ unit ++
           (if 1 <? interval then "s" else "") ++ " ago"
      else first_interval seconds rest
  end.

(** [timeAgo(date)], called at the time [now] (milliseconds).  An invalid
    date makes every comparison of the loop fail. *)
Definition timeAgo (Date_parse : string -> option Z) (now : Z) (date : value)
  : string :=
  if negb (truthy date) then ""
  else
    match LocationManager.Date_of Date_parse date with
    | None => "Just now"
    | Some t => first_interval ((now - t) / 1000) intervals
    end.

End UtilsDate.

(** ** SOSManager (src/unnamed/part_005) *)

Module SOSManager.

(** [CONFIG.SOS_STATUS]. *)
Definition ACTIVE : value := VStr "active".
Definition CANCELLED : value := VStr "cancelled".
Definition RESOLVED : value := VStr "resolved".

(** [triggerSOS()], called at the time [now]; [location] is what
    [Utils.getCurrentLocation] resolved to, [None] when it failed.  The
    notification of the contacts and the request to the server do not
    touch the database and are left out. *)
Definition triggerSOS (s : State) (location : option obj) (now : string)
  : outcome obj * State :=
  match currentUser s with
  | None => (Failure (JsError "User not logged in"), s)
  | Some user =>
      let coordinate f :=
        match location with
        | Some l => or_else (field l f) VNull
        | None => VNull
        end in
      (* Create SOS alert record *)
      let sosAlert :=
        object
          [ ("user_id", field user "id");
            ("triggered_at", VStr now);
            ("location_lat", coordinate "latitude");
            ("location_lng", coordinate "longitude");
            ("location_address", VNull);
            ("status", ACTIVE);
            ("notes", VStr "") ] in
      (* Save to database *)
      match add (db s) "sos_alerts" sosAlert now with
      | (Err e, _) => (Failure e, s)
      | (Ok alertId, db') =>
          let sosAlert := set_field "id" alertId (stamp now sosAlert) in
          let s1 := {| db := db'; currentUser := currentUser s;
                       currentAlert := Some sosAlert |} in
          (* Save location to history *)
          let s2 :=
            match location with
            | Some l => snd (LocationManager.saveLocation s1 l now)
            | None => s1
            end in
          (Success sosAlert, s2)
      end
  end.

(** [cancelSOS()], called at the time [now]. *)
Definition cancelSOS (s : State) (now : string) : outcome unit * State :=
  match currentAlert s with
  | None => (Success tt, s)
  | Some current =>
      (* Update alert status *)
      match get (db s) "sos_alerts" (field current "id") with
      | Err e => (Failure e, s)
      | Ok None => (Failure TypeError, s)
      | Ok (Some alert) =>
          let alert := set_field "status" CANCELLED alert in
          let alert := set_field "resolved_at" (VStr now) alert in
          match update (db s) "sos_alerts" alert with
          | (Err e, _) => (Failure e, s)
          | (Ok _, db') =>
              (Success tt,
               {| db := db'; currentUser := currentUser s;
                  currentAlert := None |})
          end
      end
  end.

(** [resolveSOS(alertId, notes = '')], called at the time [now]. *)
Definition resolveSOS (s : State) (alertId notes : value) (now : string)
  : outcome unit * State :=
  let notes := match notes with VUndef => VStr "" | v => v end in
  match get (db s) "sos_alerts" alertId with
  | Err e => (Failure e, s)
  | Ok None => (Failure (JsError "Alert not found"), s)
  | Ok (Some alert) =>
      let alert := set_field "status" RESOLVED alert in
      let alert := set_field "resolved_at" (VStr now) alert in
      let alert := set_field "notes" notes alert in
      match update (db s) "sos_alerts" alert with
      | (Err e, _) => (Failure e, s)
      | (Ok _, db') =>
          (Success tt,
           {| db := db'; currentUser := currentUser s;
              currentAlert := currentAlert s |})
      end
  end.

(** The operations on alerts, and a run of them from a state. *)
Inductive op : Type :=
| Trigger (location : option obj) (now : string)
| Cancel (now : string)
| Resolve (alertId notes : value) (now : string).

Definition step (s : State) (o : op) : State :=
  match o with
  | Trigger location now => snd (triggerSOS s location now)
  | Cancel now => snd (cancelSOS s now)
  | Resolve alertId notes now => snd (resolveSOS s alertId notes now)
  end.

Definition run (s : State) (ops : list op) : State :=
  List.fold_left step ops s.

(** The status of the alert stored under the key [k]. *)
Definition status_in (d : gmap string ObjectStore) (k : value)
  : option value :=
  match get d "sos_alerts" k with
  | Ok (Some alert) => Some (field alert "status")
  | _ => None
  end.

Definition status (s : State) (k : value) : option value :=
  status_in (db s) k.

(** [new Date(b.triggered_at) - new Date(a.triggered_at) > 0]. *)
Definition triggered_before (Date_parse : string -> option Z) (a b : obj)
  : bool :=
  match LocationManager.Date_of Date_parse (field b "triggered_at"),
        LocationManager.Date_of Date_parse (field a "triggered_at") with
  | Some tb, Some ta => 0 <? tb - ta
  | _, _ => false
  end.

(** [getAlertHistory()]. *)
Definition getAlertHistory (Date_parse : string -> option Z) (s : State)
  : list obj :=
  match currentUser s with
  | None => []
  | Some user =>
      match getByIndex (db s) "sos_alerts" "user_id" (field user "id") with
      | Err _ => []
      | Ok alerts =>
          (* Sort by triggered_at (newest first) *)
          sort (triggered_before Date_parse) alerts
      end
  end.

End SOSManager.

(** ** EvidenceManager (src/unnamed/part_005) *)

Module EvidenceManager.



(** [list.includes(s)] for a list of strings. *)
Definition includes (l : list string) (s : string) : bool :=
  existsb (String.eqb s) l.


Section Evidence.

(** [JSON.stringify] of an object. *)
Variable JSON_stringify : obj -> string.


End Evidence.

(** [new Date(b.created_at) - new Date(a.created_at) > 0]. *)
Definition created_before (Date_parse : string -> option Z) (a b : obj)
  : bool :=
  match LocationManager.Date_of Date_parse (field b "created_at"),
        LocationManager.Date_of Date_parse (field a "created_at") with
  | Some tb, Some ta => 0 <? tb - ta
  | _, _ => false
  end.

(** [getEvidenceList(filterType = null)]. *)
Definition getEvidenceList (Date_parse : string -> option Z) (s : State)
           (filterType : value) : list obj :=
  let filterType := match filterType with VUndef => VNull | v => v end in
  match currentUser s with
  | None => []
  | Some user =>
      match getByIndex (db s) "evidence" "user_id" (field user "id") with
      | Err _ => []
      | Ok evidence =>
          (* Filter by type if specified *)
          let evidence :=
            if truthy filterType
            then List.filter
                   (fun e => strict_eq (field e "type") filterType) evidence
            else evidence in
          (* Sort by created_at (newest first) *)
          sort (created_before Date_parse) evidence
      end
  end.


(** [deleteEvidence(evidenceId)]; [confirmed] is the answer to
    [Utils.confirm]. *)
Definition deleteEvidence (s : State) (confirmed : bool) (evidenceId : value)
  : outcome unit * State :=
  if negb confirmed then (Cancelled, s)
  else
    match DatabaseManager.delete (db s) "evidence" evidenceId with
    | (Ok _, db') => (Success tt, with_db s db')
    | (Err e, _) => (Failure e, s)
    end.

(** [updateEvidence(evidenceId, updates)]. *)
Definition updateEvidence (s : State) (evidenceId : value) (updates : obj)
  : outcome obj * State :=
  match get (db s) "evidence" evidenceId with
  | Err e => (Failure e, s)
  | Ok None => (Failure (JsError "Evidence not found"), s)
  | Ok (Some evidence) =>
      let updatedEvidence := spread evidence updates in
      match update (db s) "evidence" updatedEvidence with
      | (Ok _, db') => (Success updatedEvidence, with_db s db')
      | (Err e, _) => (Failure e, s)
      end
  end.

End EvidenceManager.

(** ** APIService (src/unnamed/part_001) *)

Module APIService.

Local Open Scope list_scope.

(** A queued request: [{ endpoint, options }]. *)
Record Request : Type := {
  endpoint : string;
  method : string;
  body : option string
}.

(** What happens to a [fetch]: a response with [response.ok], or a failure
    (a rejected [fetch] or a response that is not ok), with the value of
    [navigator.onLine] when the failure is handled. *)
Inductive Fetch : Type :=
| Responds (data : string)
| Fails (message : string) (onLine : bool).

(** The result of [request]: [{ success: true, data }] or
    [{ success: false, error }]. *)
Inductive Response : Type :=
| Received (data : string)
| Refused (message : string).

(** The state of the service: [this.offlineQueue], the item
    [CONFIG.STORAGE_KEYS.OFFLINE_QUEUE] of [localStorage] ([None] when
    there is none) and, for the statements below, the requests handed to
    [fetch] so far, oldest first. *)
Record API : Type := {
  offlineQueue : list Request;
  stored : option (list Request);
  fetched : list Request
}.

(** [addToOfflineQueue(request)]. *)
Definition addToOfflineQueue (a : API) (r : Request) : API :=
  let queue := offlineQueue a ++ [r] in
  {| offlineQueue := queue; stored := Some queue; fetched := fetched a |}.

Section Network.
(** The network: what happens to the [n]-th [fetch] of the session. *)
Variable network : nat -> Fetch.

(** [request(endpoint, options)]. *)
Definition request (a : API) (r : Request) : Response * API :=
  let a1 := {| offlineQueue := offlineQueue a; stored := stored a;
               fetched := fetched a ++ [r] |} in
  match network (List.length (fetched a)) with
  | Responds data => (Received data, a1)
  | Fails message onLine =>
      (* Add to offline queue if network error *)
      (Refused message,
       if negb onLine then addToOfflineQueue a1 r else a1)
  end.

(** The loop of [processOfflineQueue]. *)
Fixpoint replay (a : API) (queue : list Request) (results : list Response)
  : list Response * API :=
  match queue with
  | [] => (results, a)
  | r :: rest =>
      let (result, a') := request a r in
      replay a' rest (results ++ [result])
  end.

(** [processOfflineQueue()]: [None] is the [undefined] returned for an
    empty queue. *)
Definition processOfflineQueue (a : API) : option (list Response) * API :=
  let queue := match stored a with Some q => q | None => [] end in
  match queue with
  | [] => (None, a)
  | _ :: _ =>
      let (results, a') := replay a queue [] in
      (* Clear the queue after processing *)
      (Some results,
       {| offlineQueue := []; stored := None; fetched := fetched a' |})
  end.
End Network.

(** The queue that [processOfflineQueue] replays. *)
Definition pending (a : API) : list Request :=
  match stored a with Some q => q | None => [] end.

(** A fresh service: [this.offlineQueue = []], nothing stored. *)
Definition fresh : API :=
  {| offlineQueue := []; stored := None; fetched := [] |}.

(** [new APIService()] when the page is loaded: [this.offlineQueue = []],
    beside what [localStorage] has kept of the queue. *)
Definition constructor (storage : option (list Request)) : API :=
  {| offlineQueue := []; stored := storage; fetched := [] |}.

End APIService.

(** ** Scenarios

    The concrete databases and states on which the functions are evaluated
    below. *)

Module Scenario.

(** Reading the result of a request that is known to have succeeded. *)
Definition is_ok {A : Type} (r : result A) : bool :=
  match r with Ok _ => true | Err _ => false end.

Definition value_of {A : Type} (d : A) (r : result A) : A :=
  match r with Ok a => a | Err _ => d end.

Definition found (r : result (option obj)) : bool :=
  match r with Ok (Some _) => true | _ => false end.

Definition the_record (r : result (option obj)) : obj :=
  match r with Ok (Some o) => o | _ => ∅ end.

Definition has_store (db : gmap string ObjectStore) (name : string) : bool :=
  match db !! name with Some _ => true | None => false end.

Definition the_store (db : gmap string ObjectStore) (name : string)
  : ObjectStore :=
  match db !! name with Some st => st | None => empty_store end.

(** [add] for each record of a list, in turn. *)
Definition add_all (db : gmap string ObjectStore) (storeName : string)
           (records : list obj) (now : string) : gmap string ObjectStore :=
  List.fold_left (fun d r => snd (add d storeName r now)) records db.

Definition t0 : string := "2024-05-01T10:00:00.000Z".

(** A registered user, as [register] builds it, and a guest, as
    [continueAsGuest] does. *)
Definition asha : obj :=
  object [ ("phone_number", VStr "+15550100"); ("name", VStr "Asha");
           ("email", VNull); ("is_guest", VBool false);
           ("created_at", VStr t0); ("last_login", VStr t0) ].

Definition guest : obj :=
  object [ ("phone_number", VNull); ("name", VStr "Guest User");
           ("email", VNull); ("is_guest", VBool true);
           ("created_at", VStr t0); ("last_login", VStr t0) ].

Definition contact (name phone : string) : obj :=
  object [ ("user_id", VNum 1); ("name", VStr name);
           ("phone_number", VStr phone); ("relationship", VStr "");
           ("priority", VNum 0); ("is_active", VBool true);
           ("contact_type", VStr "personal"); ("created_at", VStr t0) ].

Definition evidence (type : string) : obj :=
  object [ ("user_id", VNum 1); ("type", VStr type);
           ("file_size", VNum 2048); ("created_at", VStr t0) ].

(** The user 1 with three emergency contacts and two evidence records,
    logged in. *)
Definition account_db : gmap string ObjectStore :=
  add_all
    (add_all (add_all init "users" [asha] t0)
             "emergency_contacts"
             [ contact "Mother" "+15550101"; contact "Sister" "+15550102";
               contact "Friend" "+15550103" ] t0)
    "evidence" [ evidence "photo"; evidence "audio" ] t0.

Definition account : State :=
  {| db := account_db;
     currentUser := Some (set_field "id" (VNum 1) asha);
     currentAlert := None |}.

(** Two responders, at (0, 0) and at (0, 0.1). *)
Definition responder_at (name : string) (latitude longitude : Q) : obj :=
  object [ ("name", VStr name); ("type", VStr "volunteer");
           ("phone_number", VNull);
           ("latitude", VNum latitude); ("longitude", VNum longitude);
           ("address", VNull); ("is_verified", VBool true);
           ("is_available", VBool true); ("rating", VNum 0);
           ("response_count", VNum 0); ("created_at", VStr t0) ].

Definition responders_db : gmap string ObjectStore :=
  add_all init "community_responders"
          [ responder_at "First" 0 0; responder_at "Second" 0 (1 # 10) ] t0.

(** The same two responders, added with [addResponder]. *)
Definition responder_data (name : string) (latitude longitude : Q) : obj :=
  object [ ("name", VStr name); ("type", VStr "volunteer");
           ("latitude", VNum latitude); ("longitude", VNum longitude) ].

Definition added_responders_db : gmap string ObjectStore :=
  snd (CommunityManager.addResponder
         (snd (CommunityManager.addResponder init
                 (responder_data "First" 0 0) t0))
         (responder_data "Second" 0 (1 # 10)) t0).

(** The user 1, logged in, with two entries in the location history. *)
Definition Date_parse (s : string) : option Z :=
  if String.eqb s "2024-05-01T10:00:00.000Z" then Some 1714557600000
  else if String.eqb s "2024-05-01T11:00:00.000Z" then Some 1714561200000
  else None.

Definition location (timestamp : string) : obj :=
  object [ ("user_id", VNum 1); ("latitude", VNum 10); ("longitude", VNum 10);
           ("accuracy", VNull); ("timestamp", VStr timestamp);
           ("address", VNull); ("is_safe_zone", VBool false) ].

Definition history : State :=
  {| db := add_all init "location_history"
             [ location "2024-05-01T10:00:00.000Z";
               location "2024-05-01T11:00:00.000Z" ] t0;
     currentUser := Some (set_field "id" (VNum 1) asha);
     currentAlert := None |}.

(** Three requests put in the queue of a fresh service, and a network on
    which the second [fetch] fails, [onLine] telling whether the browser is
    online at that time. *)
Definition post (body : string) : APIService.Request :=
  {| APIService.endpoint := "/posts";
     APIService.method := "POST";
     APIService.body := Some body |}.

Definition queued : APIService.API :=
  APIService.addToOfflineQueue
    (APIService.addToOfflineQueue
       (APIService.addToOfflineQueue APIService.fresh (post "first"))
       (post "second"))
    (post "third").

Definition second_fails (onLine : bool) (n : nat) : APIService.Fetch :=
  match n with
  | 1%nat => APIService.Fails "Failed to fetch" onLine
  | _ => APIService.Responds "{}"
  end.

(** A responder with the rating 4.0 after two ratings. *)
Definition volunteer : obj :=
  object [ ("name", VStr "Verified Local Volunteer"); ("type", VStr "volunteer");
           ("phone_number", VStr ""); ("is_verified", VBool true);
           ("is_available", VBool true); ("rating", VNum 4);
           ("response_count", VNum 2) ].

Definition volunteers_db : gmap string ObjectStore :=
  add_all init "community_responders" [volunteer] t0.

(** The registered user 1, logged in, with no alert yet. *)
Definition logged_in : State :=
  {| db := add_all init "users" [asha] t0;
     currentUser := Some (set_field "id" (VNum 1) asha);
     currentAlert := None |}.

(** The user 1, logged in, with one active safe zone of radius 50 m at
    (10, 10), as [addSafeZone] stores it. *)
Definition home : obj :=
  object [ ("user_id", VNum 1); ("name", VStr "Home");
           ("latitude", VNum 10); ("longitude", VNum 10);
           ("radius", VNum 50); ("is_active", VBool true);
           ("created_at", VStr t0) ].

Definition zoned : State :=
  {| db := add_all init "safe_zones" [home] t0;
     currentUser := Some (set_field "id" (VNum 1) asha);
     currentAlert := None |}.

End Scenario.

(** ** Vocabulary of the statements *)

(** Newest first: every entry has a valid date, not older than the dates of
    the entries after it. *)
Definition newest_first (Date_parse : string -> option Z) (l : list obj)
  : Prop :=
  StronglySorted
    (fun a b =>
       match LocationManager.Date_of Date_parse (field a "timestamp"),
             LocationManager.Date_of Date_parse (field b "timestamp") with
       | Some ta, Some tb => tb <= ta
       | _, _ => False
       end) l.

(** [n] units ago, as [timeAgo] writes it: "1 hour ago", "2 hours ago". *)
Definition ago (n : Z) (unit : string) : string :=
  NilZero.string_of_int (Z.to_int n) ++ " " ++ unit ++
  (if 1 <? n then "s" else "") ++ " ago".

(** The strings of a regular expression. *)
Inductive lang : Regex.regex -> string -> Prop :=
| lang_empty : lang Regex.Empty ""
| lang_chars class c : class c = true -> lang (Regex.Chars class) (String c "")
| lang_seq r1 r2 s1 s2 :
    lang r1 s1 -> lang r2 s2 -> lang (Regex.Seq r1 r2) (s1 ++ s2)
| lang_alt_l r1 r2 s : lang r1 s -> lang (Regex.Alt r1 r2) s
| lang_alt_r r1 r2 s : lang r2 s -> lang (Regex.Alt r1 r2) s
| lang_star_nil r : lang (Regex.Star r) ""
| lang_star_cons r s1 s2 :
    lang r s1 -> lang (Regex.Star r) s2 -> lang (Regex.Star r) (s1 ++ s2).

(** The number of characters of a class in a string. *)
Fixpoint count_chars (p : ascii -> bool) (s : string) : nat :=
  match s with
  | EmptyString => 0
  | String c rest => (if p c then 1 else 0) + count_chars p rest
  end.

(** Bounds on the number of characters of the class [p] in the strings of
    a regular expression, read off its syntax. *)
Inductive at_least (p : ascii -> bool) : Regex.regex -> nat -> Prop :=
| al_zero r : at_least p r 0
| al_chars (class : ascii -> bool) :
    (forall c, class c = true -> p c = true) ->
    at_least p (Regex.Chars class) 1
| al_seq r1 r2 a b :
    at_least p r1 a -> at_least p r2 b -> at_least p (Regex.Seq r1 r2) (a + b)
| al_alt r1 r2 a b :
    at_least p r1 a -> at_least p r2 b ->
    at_least p (Regex.Alt r1 r2) (Nat.min a b).

Inductive at_most (p : ascii -> bool) : Regex.regex -> nat -> Prop :=
| am_never : at_most p Regex.Never 0
| am_empty : at_most p Regex.Empty 0
| am_chars (class : ascii -> bool) : at_most p (Regex.Chars class) 1
| am_chars_none (class : ascii -> bool) :
    (forall c, class c = true -> p c = false) ->
    at_most p (Regex.Chars class) 0
| am_seq r1 r2 a b :
    at_most p r1 a -> at_most p r2 b -> at_most p (Regex.Seq r1 r2) (a + b)
| am_alt r1 r2 a b :
    at_most p r1 a -> at_most p r2 b ->
    at_most p (Regex.Alt r1 r2) (Nat.max a b)
| am_star r : at_most p r 0 -> at_most p (Regex.Star r) 0.

(** The characters of a phone number that [isValidPhone] accepts. *)
Definition phone_char (c : ascii) : bool :=
  Regex.digit c || Regex.char "+" c || Regex.char "(" c || Regex.char ")" c ||
  Regex.char "-" c || Regex.char "." c || Regex.space c.

Definition any_char (c : ascii) : bool := true.

(** The values that arithmetic would have to parse: the strings other than
    the empty one (see [ToNumber]). *)
Definition unparsed (v : value) : bool :=
  match v with
  | VStr s => negb (String.eqb s "")
  | _ => false
  end.

(** The key generator of an object store stops at 2^53: IndexedDB refuses
    to generate a key (with a [ConstraintError]) once the current number of
    the generator is above it, which [IDB.store] does not model.
    [keys_left db storeName] is the number of keys that the generator of
    the store can still give; the statements about generated keys are made
    for databases that have the keys left that they need. *)
Definition keys_left (db : gmap string ObjectStore) (storeName : string) : Z :=
  match db !! storeName with
  | Some st => Z.max 0 (2 ^ 53 + 1 - keygen st)
  | None => 0
  end.

(** The haversine distance as the specification names it: the standard
    great-circle formula on a sphere with the radius of the Earth,
    6,371,000 m.  Latitudes and longitudes are in degrees, distances in
    meters. *)
Module Sphere.

Local Open Scope R_scope.

Definition radians (degrees : R) : R := degrees * PI / 180.

(** The haversine of an angle: [sin² (theta / 2)]. *)
Definition hav (theta : R) : R := Rsqr (sin (theta / 2)).

(** The haversine formula:
    [d = 2 r asin (sqrt (hav (phi2 - phi1) + cos phi1 cos phi2 hav (lam2 - lam1)))]. *)
Definition haversine_distance (lat1 lon1 lat2 lon2 : R) : R :=
  let phi1 := radians lat1 in
  let phi2 := radians lat2 in
  let h := hav (phi2 - phi1) +
           cos phi1 * cos phi2 * hav (radians lon2 - radians lon1) in
  2 * 6371000 * asin (sqrt h).

(** The great-circle distance: the radius times the angle, seen from the
    centre of the sphere, between the positions of the two points. *)
Definition position (lat lon : R) : R * R * R :=
  (cos (radians lat) * cos (radians lon),
   cos (radians lat) * sin (radians lon),
   sin (radians lat)).

Definition dot (u v : R * R * R) : R :=
  let '(x1, y1, z1) := u in
  let '(x2, y2, z2) := v in
  x1 * x2 + y1 * y2 + z1 * z2.

Definition great_circle_distance (lat1 lon1 lat2 lon2 : R) : R :=
  6371000 * acos (dot (position lat1 lon1) (position lat2 lon2)).

End Sphere.

(** ** Further scenarios *)

Module Cases.

(** A safe zone written with a key of its own. *)
Definition office : obj :=
  object [ ("id", VNum 7); ("user_id", VNum 1); ("name", VStr "Office");
           ("latitude", VNum 12); ("longitude", VNum 77);
           ("radius", VNum 100); ("is_active", VBool true) ].

(** The database with the zone [Scenario.home] stored under the key 1. *)
Definition zones_db : gmap string ObjectStore := db Scenario.zoned.

(** The user 1, logged in, before any preferences are loaded. *)
Definition user1 : obj := set_field "id" (VNum 1) Scenario.asha.

Definition session : Session :=
  {| app := Scenario.logged_in; preferences := None |}.

(** The user 1, logged in, beside a second registered user. *)
Definition meera_user : obj :=
  object [ ("phone_number", VStr "5551234567"); ("name", VStr "Meera");
           ("email", VNull); ("is_guest", VBool false);
           ("created_at", VStr Scenario.t0);
           ("last_login", VStr Scenario.t0) ].

Definition two_users : State :=
  {| db := Scenario.add_all init "users" [Scenario.asha; meera_user]
                            Scenario.t0;
     currentUser := Some user1;
     currentAlert := None |}.

(** The user 1 with three contacts of the priorities 1, 3 and 2, the
    second one switched off. *)
Definition contact_with (name : string) (priority : Q) (active : bool) : obj :=
  object [ ("user_id", VNum 1); ("name", VStr name);
           ("phone_number", VStr "5551234567"); ("relationship", VStr "");
           ("priority", VNum priority); ("is_active", VBool active);
           ("contact_type", VStr "personal");
           ("created_at", VStr Scenario.t0) ].

Definition with_contacts : State :=
  {| db := Scenario.add_all (db Scenario.logged_in) "emergency_contacts"
             [ contact_with "Mother" 1 true; contact_with "Sister" 3 false;
               contact_with "Friend" 2 true ] Scenario.t0;
     currentUser := Some user1;
     currentAlert := None |}.




(** The data of a registration form. *)
Definition meera : obj :=
  object [ ("phone_number", VStr "5551234567"); ("name", VStr "Meera") ].

End Cases.

(** * Properties *)

(** ** Evaluation on the scenarios *)

Lemma pair_fst_snd {A B : Type} (p : A * B) a : fst p = a -> p = (a, snd p).
Proof. intros <-. destruct p. reflexivity. Qed.

Lemma is_ok_value_of {A : Type} (d : A) (r : result A) :
  Scenario.is_ok r = true -> r = Ok (Scenario.value_of d r).
Proof. destruct r; [reflexivity | discriminate]. Qed.

Lemma found_the_record r :
  Scenario.found r = true -> r = Ok (Some (Scenario.the_record r)).
Proof. destruct r as [[o|]|e]; try discriminate. reflexivity. Qed.

Lemma has_store_the_store db name :
  Scenario.has_store db name = true ->
  db !! name = Some (Scenario.the_store db name).
Proof.
  unfold Scenario.has_store, Scenario.the_store.
  destruct (db !! name); [reflexivity | discriminate].
Qed.

Lemma success_value {A B : Type} (d : A) (out : outcome A * B) :
  match fst out with Success _ => true | _ => false end = true ->
  out = (Success match fst out with Success a => a | _ => d end, snd out).
Proof. destruct out as [[a | e |] b]; simpl; congruence. Qed.

Lemma is_some_value {A : Type} (d : A) (o : option A) :
  match o with Some _ => true | None => false end = true ->
  o = Some match o with Some a => a | None => d end.
Proof. destruct o; [reflexivity | discriminate]. Qed.

(** ** Keys and rows *)

Section Rows.

Lemma key_eqb_refl k : valid_key k = true -> key_eqb k k = true.
Proof.
  destruct k; simpl; try discriminate; intros _.
  - apply Qeq_bool_iff. reflexivity.
  - apply String.eqb_refl.
Qed.

Lemma key_eqb_sym a b : key_eqb a b = key_eqb b a.
Proof.
  destruct a, b; simpl; try reflexivity.
  - destruct (Qeq_bool q q0) eqn:E1, (Qeq_bool q0 q) eqn:E2; try reflexivity.
    + apply Qeq_bool_iff in E1. symmetry in E1.
      apply Qeq_bool_iff in E1. congruence.
    + apply Qeq_bool_iff in E2. symmetry in E2.
      apply Qeq_bool_iff in E2. congruence.
  - apply String.eqb_sym.
Qed.

Lemma key_eqb_trans a b c :
  key_eqb a b = true -> key_eqb b c = true -> key_eqb a c = true.
Proof.
  destruct a, b, c; simpl; try discriminate.
  - rewrite !Qeq_bool_iff. intros H1 H2. rewrite H1. exact H2.
  - rewrite !String.eqb_eq. congruence.
Qed.

Lemma key_eqb_valid a b : key_eqb a b = true -> valid_key a = true.
Proof. destruct a, b; simpl; congruence. Qed.

(** Equal keys find the same record. *)
Lemma find_row_eqb j k rs :
  key_eqb j k = true -> find_row j rs = find_row k rs.
Proof.
  intros E. induction rs as [|[k' o'] rest IH]; simpl; [reflexivity|].
  destruct (key_eqb j k') eqn:Ej, (key_eqb k k') eqn:Ek;
    try reflexivity; try exact IH.
  - rewrite key_eqb_sym in E.
    rewrite (key_eqb_trans _ _ _ E Ej) in Ek. discriminate.
  - rewrite (key_eqb_trans _ _ _ E Ek) in Ej. discriminate.
Qed.

Lemma find_put_eq k o rs :
  valid_key k = true -> find_row k (put_row k o rs) = Some o.
Proof.
  intros V. induction rs as [|[k' o'] rest IH]; simpl.
  - rewrite key_eqb_refl by exact V. reflexivity.
  - destruct (key_eqb k k') eqn:E; simpl.
    + rewrite key_eqb_refl by exact V. reflexivity.
    + destruct (key_ltb k k'); simpl.
      * rewrite key_eqb_refl by exact V. reflexivity.
      * rewrite E. exact IH.
Qed.

Lemma find_put_ne j k o rs :
  key_eqb j k = false -> find_row j (put_row k o rs) = find_row j rs.
Proof.
  intros N. induction rs as [|[k' o'] rest IH]; simpl.
  - rewrite N. reflexivity.
  - destruct (key_eqb k k') eqn:E; simpl.
    + rewrite N. destruct (key_eqb j k') eqn:Ej; [|reflexivity].
      rewrite key_eqb_sym in E.
      rewrite (key_eqb_trans _ _ _ Ej E) in N. discriminate.
    + destruct (key_ltb k k'); simpl.
      * rewrite N. reflexivity.
      * rewrite IH. reflexivity.
Qed.

Lemma find_delete_eq k rs : find_row k (delete_row k rs) = None.
Proof.
  unfold delete_row. induction rs as [|[k' o'] rest IH]; simpl.
  - reflexivity.
  - destruct (key_eqb k k') eqn:E; simpl; [exact IH|].
    rewrite E. exact IH.
Qed.

Lemma delete_row_twice k rs :
  delete_row k (delete_row k rs) = delete_row k rs.
Proof.
  unfold delete_row. induction rs as [|[k' o'] rest IH]; simpl.
  - reflexivity.
  - destruct (key_eqb k k') eqn:E; simpl; [exact IH|].
    rewrite E. simpl. rewrite IH. reflexivity.
Qed.

(** A key that finds nothing differs from every key in use. *)
Lemma find_none_ne k rs r :
  find_row k rs = None -> In r rs -> key_eqb k (fst r) = false.
Proof.
  induction rs as [|[k' o'] rest IH]; simpl; [tauto|].
  destruct (key_eqb k k') eqn:E; [discriminate|].
  intros Hn [<- | Hin]; [exact E | exact (IH Hn Hin)].
Qed.

Lemma in_put_row k o rs : In (k, o) (put_row k o rs).
Proof.
  induction rs as [|[k' o'] rest IH]; simpl; [tauto|].
  destruct (key_eqb k k'); simpl; [tauto|].
  destruct (key_ltb k k'); simpl; tauto.
Qed.

(** After [put_row], a record is the new one or was there before. *)
Lemma in_put_row_inv k o rs r :
  In r (put_row k o rs) -> r = (k, o) \/ In r rs.
Proof.
  induction rs as [|[k' o'] rest IH]; simpl.
  - intros [<- | []]. left. reflexivity.
  - destruct (key_eqb k k'); simpl.
    + intros [<- | H]; [left; reflexivity | right; right; exact H].
    + destruct (key_ltb k k'); simpl.
      * intros [<- | H]; [left; reflexivity | right; exact H].
      * intros [<- | H]; [right; left; reflexivity|].
        destruct (IH H) as [-> | H']; [left; reflexivity | right; right; exact H'].
Qed.

Lemma forallb_put_row (P : value * obj -> bool) k o rs :
  P (k, o) = true -> forallb P rs = true ->
  forallb P (put_row k o rs) = true.
Proof.
  intros Hn Hall. apply forallb_forall. intros r Hin.
  destruct (in_put_row_inv _ _ _ _ Hin) as [-> | Hold]; [exact Hn|].
  rewrite forallb_forall in Hall. exact (Hall r Hold).
Qed.

End Rows.

(** ** The object stores *)

Section Stores.

Lemma field_insert_eq f v (o : obj) : field (<[f := v]> o) f = v.
Proof. unfold field. rewrite lookup_insert_eq. reflexivity. Qed.

Lemma field_insert_ne f g v (o : obj) :
  f <> g -> field (<[f := v]> o) g = field o g.
Proof. intros N. unfold field. rewrite lookup_insert_ne by exact N. reflexivity. Qed.

Lemma field_set_eq f v (o : obj) : field (set_field f v o) f = v.
Proof.
  unfold field, set_field.
  destruct v; rewrite ?lookup_delete_eq, ?lookup_insert_eq; reflexivity.
Qed.

Lemma lookup_set_ne f g v (o : obj) :
  f <> g -> set_field f v o !! g = o !! g.
Proof.
  intros N. unfold set_field.
  destruct v; rewrite ?lookup_delete_ne, ?lookup_insert_ne by exact N;
    reflexivity.
Qed.

Lemma field_set_ne f g v (o : obj) :
  f <> g -> field (set_field f v o) g = field o g.
Proof. intros N. unfold field. rewrite lookup_set_ne by exact N. reflexivity. Qed.

Lemma stamp_other now (data : obj) f :
  f <> "created_at" -> stamp now data !! f = data !! f.
Proof.
  intros N. unfold stamp. destruct (truthy _); [reflexivity|].
  apply lookup_insert_ne. congruence.
Qed.

Lemma stamp_created_at now (data : obj) :
  field (stamp now data) "created_at" =
  if truthy (field data "created_at") then field data "created_at"
  else VStr now.
Proof.
  unfold stamp. destruct (truthy _); [reflexivity|].
  apply field_insert_eq.
Qed.

(** What a successful [add] or [put] has done to the store. *)
Lemma store_inv noOverwrite idx st data k st' :
  store noOverwrite idx st data = Ok (k, st') ->
  valid_key k = true /\
  exists o,
    rows st' = put_row k o (rows st) /\
    field o "id" = k /\
    (forall f, f <> "id" -> o !! f = data !! f) /\
    clash idx k o (rows st) = false /\
    (noOverwrite = true -> find_row k (rows st) = None) /\
    (field data "id" = VUndef ->
     k = VNum (inject_Z (keygen st)) /\ keygen st' = keygen st + 1 /\
     find_row k (rows st) = None) /\
    (field data "id" <> VUndef ->
     o = data /\ keygen st' = bump (keygen st) k).
Proof.
  unfold store. intros H.
  destruct (field data "id") eqn:Eid.
  1: { destruct (find_row _ (rows st)) eqn:Ef; [discriminate|].
       destruct (clash _ _ _ _) eqn:Ec; [discriminate|].
       injection H as <- <-. split; [reflexivity|].
       eexists. simpl. split; [reflexivity|].
       split; [apply field_insert_eq|].
       split; [intros f N; apply lookup_insert_ne; congruence|].
       split; [exact Ec|]. split; [intros _; exact Ef|].
       split; [tauto|]. intros N. congruence. }
  all: match type of H with
       | context [negb (valid_key ?v)] =>
           destruct (valid_key v) eqn:Ev; simpl in H; [|discriminate]
       end.
  all: try discriminate.
  all: destruct (noOverwrite && _) eqn:En; [discriminate|].
  all: destruct (clash _ _ _ _) eqn:Ec; [discriminate|].
  all: injection H as <- <-; split; [reflexivity|].
  all: exists data; simpl; split; [reflexivity|].
  all: split; [exact Eid|]; split; [reflexivity|]; split; [exact Ec|].
  all: split;
    [ intros ->; simpl in En;
      match type of En with
      | context [find_row ?k ?rs] => destruct (find_row k rs); congruence
      end |].
  all: split; [intros N; discriminate | intros _; split; reflexivity].
Qed.

Lemma add_inv db storeName data now id db' :
  add db storeName data now = (Ok id, db') ->
  exists st st',
    db !! storeName = Some st /\
    store true (indexes_of storeName) st (stamp now data) = Ok (id, st') /\
    db' = <[storeName := st']> db.
Proof.
  unfold add, objectStore. intros H.
  destruct (db !! storeName) as [st|] eqn:Edb; [|discriminate].
  destruct (store _ _ _ _) as [[k st']|e] eqn:Es; [|discriminate].
  injection H as <- <-. eauto.
Qed.

Lemma update_inv db storeName data id db' :
  update db storeName data = (Ok id, db') ->
  exists st st',
    db !! storeName = Some st /\
    store false (indexes_of storeName) st data = Ok (id, st') /\
    db' = <[storeName := st']> db.
Proof.
  unfold update, objectStore. intros H.
  destruct (db !! storeName) as [st|] eqn:Edb; [|discriminate].
  destruct (store _ _ _ _) as [[k st']|e] eqn:Es; [|discriminate].
  injection H as <- <-. eauto.
Qed.

(** A request that fails leaves the database as it was. *)
Lemma add_failed db storeName data now e db' :
  add db storeName data now = (Err e, db') -> db' = db.
Proof.
  unfold add. intros H.
  destruct (objectStore _ _); [|congruence].
  destruct (store _ _ _ _) as [[k st']|e']; congruence.
Qed.

Lemma update_failed db storeName data e db' :
  update db storeName data = (Err e, db') -> db' = db.
Proof.
  unfold update. intros H.
  destruct (objectStore _ _); [|congruence].
  destruct (store _ _ _ _) as [[k st']|e']; congruence.
Qed.

Lemma get_insert_eq db storeName st id :
  get (<[storeName := st]> db) storeName id = store_get st id.
Proof. unfold get, objectStore. rewrite lookup_insert_eq. reflexivity. Qed.

Lemma get_insert_ne db name other st id :
  name <> other -> get (<[name := st]> db) other id = get db other id.
Proof.
  intros N. unfold get, objectStore.
  rewrite lookup_insert_ne by exact N. reflexivity.
Qed.

End Stores.

(** ** Well-formed stores *)

Section WellFormed.

Lemma row_ok_mono gen gen' r :
  gen <= gen' -> row_ok gen r = true -> row_ok gen' r = true.
Proof.
  intros Hle. unfold row_ok. destruct r as [k o]. simpl.
  destruct k; try (intros H; exact H).
  rewrite !andb_true_iff, !negb_true_iff.
  intros [Hk Hb]. split; [exact Hk|].
  destruct (Qle_bool (inject_Z gen') q) eqn:E; [|reflexivity].
  apply Qle_bool_iff in E.
  assert (Hq : (inject_Z gen <= q)%Q).
  { eapply Qle_trans; [|exact E]. rewrite <- Zle_Qle. exact Hle. }
  apply Qle_bool_iff in Hq. congruence.
Qed.

Lemma bump_above gen k : gen <= bump gen k.
Proof.
  unfold bump. destruct k; try lia.
  destruct (Qle_bool (inject_Z gen) q) eqn:E; [|lia].
  apply Qle_bool_iff in E. apply Qfloor_resp_le in E.
  rewrite Qfloor_Z in E. lia.
Qed.

Lemma bump_below gen q :
  Qle_bool (inject_Z (bump gen (VNum q))) q = false.
Proof.
  unfold bump. destruct (Qle_bool (inject_Z gen) q) eqn:E; [|exact E].
  destruct (Qle_bool (inject_Z (Qfloor q + 1)) q) eqn:E'; [|reflexivity].
  apply Qle_bool_iff in E'. pose proof (Qlt_floor q) as Hlt.
  exfalso. exact (Qlt_not_le _ _ Hlt E').
Qed.

Lemma succ_below gen :
  Qle_bool (inject_Z (gen + 1)) (inject_Z gen) = false.
Proof.
  destruct (Qle_bool _ _) eqn:E; [|reflexivity].
  apply Qle_bool_iff in E. rewrite <- Zle_Qle in E. lia.
Qed.

(** The key that the generator gives next is not in use. *)
Lemma find_row_fresh st :
  store_ok st = true ->
  find_row (VNum (inject_Z (keygen st))) (rows st) = None.
Proof.
  unfold store_ok. generalize (keygen st) as gen. intros gen.
  induction (rows st) as [|[k o] rest IH]; simpl; [reflexivity|].
  rewrite andb_true_iff. intros [Hr Hrest].
  rewrite (IH Hrest). unfold row_ok in Hr. simpl in Hr.
  destruct k; simpl; try reflexivity.
  rewrite !andb_true_iff, negb_true_iff in Hr. destruct Hr as [_ Hb].
  destruct (Qeq_bool (inject_Z gen) q) eqn:E; [|reflexivity].
  apply Qeq_bool_iff in E.
  assert (Hq : (inject_Z gen <= q)%Q) by (rewrite E; apply Qle_refl).
  apply Qle_bool_iff in Hq. congruence.
Qed.

Lemma store_ok_store noOverwrite idx st data k st' :
  store_ok st = true ->
  store noOverwrite idx st data = Ok (k, st') ->
  store_ok st' = true.
Proof.
  intros Hok Hs.
  destruct (store_inv _ _ _ _ _ _ Hs)
    as (Hv & o & Hrows & Hid & _ & _ & _ & Hgen & Hexp).
  assert (Hle : keygen st <= keygen st').
  { destruct (field data "id") eqn:E.
    1: destruct Hgen as (_ & -> & _); [reflexivity | lia].
    all: destruct Hexp as (_ & ->); [congruence | apply bump_above]. }
  assert (Hbelow : match k with
                   | VNum q => negb (Qle_bool (inject_Z (keygen st')) q)
                   | _ => true
                   end = true).
  { destruct k as [| |b|q| |s]; try reflexivity.
    apply negb_true_iff.
    destruct (field data "id") eqn:E.
    1: { destruct Hgen as (Hk & -> & _); [reflexivity|].
         injection Hk as ->. apply succ_below. }
    all: destruct Hexp as (_ & ->); [congruence | apply bump_below]. }
  unfold store_ok. rewrite Hrows. apply forallb_put_row.
  - unfold row_ok. simpl. rewrite Hv, Hid, key_eqb_refl by exact Hv.
    exact Hbelow.
  - unfold store_ok in Hok. rewrite forallb_forall in Hok.
    apply forallb_forall. intros r Hin.
    exact (row_ok_mono _ _ _ Hle (Hok r Hin)).
Qed.

Lemma store_ok_delete st k st' :
  store_ok st = true -> store_delete st k = Ok st' -> store_ok st' = true.
Proof.
  unfold store_delete, store_ok. intros Hok H.
  destruct (valid_key k); [|discriminate]. injection H as <-. simpl.
  rewrite forallb_forall in Hok. apply forallb_forall.
  intros r Hin. apply Hok. unfold delete_row in Hin.
  apply filter_In in Hin. tauto.
Qed.

Lemma lookup_schema_in name sch :
  lookup_schema name sch <> None <-> exists idx, In (name, idx) sch.
Proof.
  induction sch as [|[n idx] rest IH]; simpl.
  - split; [congruence | intros [? []]].
  - destruct (String.eqb name n) eqn:E.
    + apply String.eqb_eq in E. subst n.
      split; [intros _; exists idx; left; reflexivity | congruence].
    + rewrite IH. split.
      * intros [i Hi]. exists i. right. exact Hi.
      * intros [i [Hi | Hi]]; [|exists i; exact Hi].
        injection Hi as -> ->. rewrite String.eqb_refl in E. discriminate.
Qed.

Lemma db_ok_lookup db storeName :
  db_ok db = true -> lookup_schema storeName schema <> None ->
  exists st, db !! storeName = Some st /\ store_ok st = true.
Proof.
  unfold db_ok. intros Hok Hin.
  apply lookup_schema_in in Hin. destruct Hin as [idx Hs].
  rewrite forallb_forall in Hok.
  specialize (Hok _ Hs). simpl in Hok.
  destruct (db !! storeName) as [st|]; [|discriminate].
  exists st. split; [reflexivity | exact Hok].
Qed.

Lemma db_ok_insert db storeName st :
  db_ok db = true ->
  (lookup_schema storeName schema <> None -> store_ok st = true) ->
  db_ok (<[storeName := st]> db) = true.
Proof.
  unfold db_ok. intros Hok Hst. rewrite forallb_forall in Hok.
  apply forallb_forall. intros s Hin. specialize (Hok s Hin).
  destruct (decide (storeName = fst s)) as [E | N].
  - rewrite E, lookup_insert_eq. apply Hst. apply lookup_schema_in.
    exists (snd s). rewrite E. destruct s. exact Hin.
  - rewrite lookup_insert_ne by exact N. exact Hok.
Qed.

Lemma db_ok_add db storeName data now r db' :
  db_ok db = true -> add db storeName data now = (r, db') ->
  db_ok db' = true.
Proof.
  intros Hok H. destruct r as [id|e].
  - destruct (add_inv _ _ _ _ _ _ H) as (st & st' & Hst & Hs & ->).
    apply db_ok_insert; [exact Hok|]. intros Hin.
    destruct (db_ok_lookup db storeName Hok Hin) as (st0 & H0 & Hok0).
    refine (store_ok_store _ _ _ _ _ _ _ Hs). congruence.
  - rewrite (add_failed _ _ _ _ _ _ H). exact Hok.
Qed.

Lemma db_ok_update db storeName data r db' :
  db_ok db = true -> update db storeName data = (r, db') ->
  db_ok db' = true.
Proof.
  intros Hok H. destruct r as [id|e].
  - destruct (update_inv _ _ _ _ _ H) as (st & st' & Hst & Hs & ->).
    apply db_ok_insert; [exact Hok|]. intros Hin.
    destruct (db_ok_lookup db storeName Hok Hin) as (st0 & H0 & Hok0).
    refine (store_ok_store _ _ _ _ _ _ _ Hs). congruence.
  - rewrite (update_failed _ _ _ _ _ H). exact Hok.
Qed.

Lemma db_ok_init : db_ok init = true.
Proof. vm_compute. reflexivity. Qed.

End WellFormed.

(** ** DatabaseManager: [add], [get] and [delete] *)

(** C8, as amended.  A record inserted with [add] is found by [get] under the
    key that [add] returned, equal to the input in every property but [id]
    and [created_at]: [id] is the key, and [created_at] is the input's when
    that is truthy and the time of the call otherwise (when it is missing,
    [null], the empty string, [0] or [false]). *)
Theorem add_then_get db storeName data now id db' :
  add db storeName data now = (Ok id, db') ->
  exists r,
    get db' storeName id = Ok (Some r) /\
    (forall f, f <> "id" -> f <> "created_at" -> r !! f = data !! f) /\
    field r "id" = id /\
    field r "created_at" =
      (if truthy (field data "created_at") then field data "created_at"
       else VStr now).
Proof.
  intros H.
  destruct (add_inv _ _ _ _ _ _ H) as (st & st' & Hst & Hs & ->).
  destruct (store_inv _ _ _ _ _ _ Hs) as (Hv & o & Hrows & Hid & Hother & _).
  exists o. rewrite get_insert_eq. unfold store_get.
  rewrite Hv, Hrows, find_put_eq by exact Hv.
  split; [reflexivity|]. split; [|split].
  - intros f N1 N2. rewrite (Hother f N1). apply stamp_other. exact N2.
  - exact Hid.
  - rewrite <- stamp_created_at. unfold field.
    rewrite Hother by congruence. reflexivity.
Qed.

Lemma add_then_get_witness :
  let data := object [("type", VStr "photo"); ("file_size", VNum 2048)] in
  let now := "2024-05-01T10:00:00.000Z" in
  let db' := snd (add init "evidence" data now) in
  add init "evidence" data now = (Ok (VNum 1), db') /\
  exists r,
    get db' "evidence" (VNum 1) = Ok (Some r) /\
    (forall f, f <> "id" -> f <> "created_at" -> r !! f = data !! f) /\
    field r "id" = VNum 1 /\
    field r "created_at" =
      (if truthy (field data "created_at") then field data "created_at"
       else VStr now).
Proof.
  intros data now db'.
  assert (H : add init "evidence" data now = (Ok (VNum 1), db'))
    by (apply pair_fst_snd; vm_compute; reflexivity).
  split; [exact H|].
  exact (add_then_get init "evidence" data now (VNum 1) db' H).
Defined.

(** C8, as stated, fails: a [created_at] that is present but empty is
    replaced by the time of the call. *)
Lemma add_stamps_an_empty_created_at :
  let data := object [("type", VStr "photo"); ("created_at", VStr "")] in
  let now := "2024-05-01T10:00:00.000Z" in
  exists db' r,
    add init "evidence" data now = (Ok (VNum 1), db') /\
    get db' "evidence" (VNum 1) = Ok (Some r) /\
    data !! "created_at" = Some (VStr "") /\
    r !! "created_at" = Some (VStr now) /\
    r !! "created_at" <> data !! "created_at".
Proof.
  intros data now.
  exists (snd (add init "evidence" data now)).
  exists (Scenario.the_record
            (get (snd (add init "evidence" data now)) "evidence" (VNum 1))).
  split; [apply pair_fst_snd; vm_compute; reflexivity|].
  split; [apply found_the_record; vm_compute; reflexivity|].
  split; [vm_compute; reflexivity|].
  split; [vm_compute; reflexivity|].
  vm_compute. discriminate.
Qed.

(** C9.  [delete] is idempotent: on a store of the database and a valid key
    it succeeds the first and the second time, whether or not a record is
    stored under the key, the second call changes nothing, and after either
    call [get] finds no record. *)
Theorem delete_idempotent db storeName st id :
  db !! storeName = Some st ->
  valid_key id = true ->
  exists db1,
    delete db storeName id = (Ok true, db1) /\
    delete db1 storeName id = (Ok true, db1) /\
    get db1 storeName id = Ok None.
Proof.
  intros Hst Hv.
  exists (<[storeName := {| keygen := keygen st;
                            rows := delete_row id (rows st) |}]> db).
  unfold delete, objectStore, store_delete.
  rewrite Hst, Hv, lookup_insert_eq. simpl.
  rewrite delete_row_twice, insert_insert_eq, get_insert_eq.
  unfold store_get. rewrite Hv. simpl. rewrite find_delete_eq.
  repeat split; reflexivity.
Qed.

Lemma delete_idempotent_witness :
  let db := snd (add init "safe_zones" (object [("name", VStr "Home")]) "t") in
  get db "safe_zones" (VNum 1) <> Ok None /\
  exists db1,
    delete db "safe_zones" (VNum 1) = (Ok true, db1) /\
    delete db1 "safe_zones" (VNum 1) = (Ok true, db1) /\
    get db1 "safe_zones" (VNum 1) = Ok None.
Proof.
  intros db. split.
  - rewrite (found_the_record (get db "safe_zones" (VNum 1)))
      by (vm_compute; reflexivity).
    discriminate.
  - apply (delete_idempotent db "safe_zones"
             (Scenario.the_store db "safe_zones") (VNum 1)).
    + apply has_store_the_store. vm_compute. reflexivity.
    + reflexivity.
Defined.

(** ** The unique index on [phone_number] *)

Section Unique.

Lemma users_indexes :
  indexes_of "users" = [("phone_number", true); ("email", false)].
Proof. reflexivity. Qed.

(** A record whose [phone_number] is not a key is not in the index and
    cannot clash. *)
Lemma no_clash_users k (o : obj) rs :
  valid_key (field o "phone_number") = false ->
  clash (indexes_of "users") k o rs = false.
Proof.
  intros Hp. rewrite users_indexes. unfold clash. simpl.
  rewrite orb_false_r.
  induction rs as [|r rest IH]; simpl; [reflexivity|].
  rewrite IH. unfold same_index_key. rewrite Hp.
  rewrite andb_false_r. reflexivity.
Qed.

(** A record of the store with the same key in [phone_number], stored
    under another primary key, is a clash. *)
Lemma clash_users k (o : obj) rs r :
  In r rs -> key_eqb k (fst r) = false ->
  valid_key (field o "phone_number") = true ->
  key_eqb (field o "phone_number") (field (snd r) "phone_number") = true ->
  clash (indexes_of "users") k o rs = true.
Proof.
  intros Hin Hk Hv He. rewrite users_indexes. unfold clash. simpl.
  apply orb_true_iff. left. apply existsb_exists. exists r.
  split; [exact Hin|]. unfold same_index_key.
  rewrite Hk, Hv, He. reflexivity.
Qed.

Lemma store_generated noOverwrite idx st (data : obj) :
  store_ok st = true ->
  field data "id" = VUndef ->
  clash idx (VNum (inject_Z (keygen st)))
        (<["id" := VNum (inject_Z (keygen st))]> data) (rows st) = false ->
  store noOverwrite idx st data =
  Ok (VNum (inject_Z (keygen st)),
      {| keygen := keygen st + 1;
         rows := put_row (VNum (inject_Z (keygen st)))
                   (<["id" := VNum (inject_Z (keygen st))]> data)
                   (rows st) |}).
Proof.
  intros Hok Hid Hc. unfold store.
  rewrite Hid, (find_row_fresh st Hok), Hc. reflexivity.
Qed.

Lemma field_stamp_other now (data : obj) f :
  f <> "created_at" -> field (stamp now data) f = field data f.
Proof. intros N. unfold field. rewrite stamp_other by exact N. reflexivity. Qed.

End Unique.

(** C7.  Users are inserted without an [id], the engine assigns it.  When a
    user has been inserted with a phone number that is a key (a string or a
    number, not [null]), inserting a second user with the same phone number
    fails with [ConstraintError] and leaves the database as it was; two
    users whose phone number is [null] are both inserted, under different
    keys, into a well-formed database whose key generator has two keys
    left. *)
Theorem users_phone_number_unique db (u1 u2 : obj) now1 now2 :
  field u2 "id" = VUndef ->
  (forall p id1 db1,
     field u1 "phone_number" = p -> field u2 "phone_number" = p ->
     valid_key p = true ->
     add db "users" u1 now1 = (Ok id1, db1) ->
     add db1 "users" u2 now2 = (Err ConstraintError, db1)) /\
  (db_ok db = true ->
   2 <= keys_left db "users" ->
   field u1 "id" = VUndef ->
   field u1 "phone_number" = VNull -> field u2 "phone_number" = VNull ->
   exists id1 db1 id2 db2,
     add db "users" u1 now1 = (Ok id1, db1) /\
     add db1 "users" u2 now2 = (Ok id2, db2) /\
     key_eqb id1 id2 = false /\
     (exists r1, get db2 "users" id1 = Ok (Some r1)) /\
     (exists r2, get db2 "users" id2 = Ok (Some r2))).
Proof.
  intros Hid2. split.
  - intros p id1 db1 Hp1 Hp2 Hv H1.
    destruct (add_inv _ _ _ _ _ _ H1) as (st & st1 & Hst & Hs & ->).
    destruct (store_inv _ _ _ _ _ _ Hs) as (Hv1 & o1 & Hrows & _ & Ho1 & _).
    unfold add, objectStore. rewrite lookup_insert_eq. unfold store.
    rewrite field_stamp_other by congruence. rewrite Hid2.
    destruct (find_row _ (rows st1)) eqn:Ef; [reflexivity|].
    rewrite (clash_users _ _ _ (id1, o1)); [reflexivity| | | |].
    + rewrite Hrows. apply in_put_row.
    + rewrite Hrows in Ef.
      exact (find_none_ne _ _ (id1, o1) Ef (in_put_row _ _ _)).
    + rewrite field_insert_ne, field_stamp_other, Hp2 by congruence.
      exact Hv.
    + rewrite field_insert_ne, field_stamp_other, Hp2 by congruence.
      simpl. unfold field at 1. rewrite Ho1 by congruence.
      rewrite stamp_other by congruence. fold (field u1 "phone_number").
      rewrite Hp1. apply key_eqb_refl. exact Hv.
  - intros Hok _ Hid1 Hn1 Hn2.
    destruct (db_ok_lookup db "users" Hok) as (st & Hst & Hst_ok);
      [vm_compute; congruence|].
    assert (E1 : store true (indexes_of "users") st (stamp now1 u1) =
                 Ok (VNum (inject_Z (keygen st)),
                     {| keygen := keygen st + 1;
                        rows := put_row (VNum (inject_Z (keygen st)))
                                  (<["id" := VNum (inject_Z (keygen st))]>
                                     (stamp now1 u1)) (rows st) |})).
    { apply store_generated; [exact Hst_ok | |].
      - rewrite field_stamp_other by congruence. exact Hid1.
      - apply no_clash_users.
        rewrite field_insert_ne, field_stamp_other, Hn1 by congruence.
        reflexivity. }
    pose proof (store_ok_store _ _ _ _ _ _ Hst_ok E1) as Hok1.
    set (st1 := {| keygen := keygen st + 1; rows := _ |}) in *.
    assert (E2 : store true (indexes_of "users") st1 (stamp now2 u2) =
                 Ok (VNum (inject_Z (keygen st1)),
                     {| keygen := keygen st1 + 1;
                        rows := put_row (VNum (inject_Z (keygen st1)))
                                  (<["id" := VNum (inject_Z (keygen st1))]>
                                     (stamp now2 u2)) (rows st1) |})).
    { apply store_generated; [exact Hok1 | |].
      - rewrite field_stamp_other by congruence. exact Hid2.
      - apply no_clash_users.
        rewrite field_insert_ne, field_stamp_other, Hn2 by congruence.
        reflexivity. }
    set (st2 := {| keygen := keygen st1 + 1; rows := _ |}) in *.
    assert (Hne : key_eqb (VNum (inject_Z (keygen st)))
                          (VNum (inject_Z (keygen st1))) = false).
    { simpl. destruct (Qeq_bool _ _) eqn:E; [|reflexivity].
      apply Qeq_bool_iff in E. unfold st1, Qeq in E. simpl in E. lia. }
    exists (VNum (inject_Z (keygen st))), (<["users" := st1]> db),
           (VNum (inject_Z (keygen st1))),
           (<["users" := st2]> (<["users" := st1]> db)).
    split; [|split; [|split; [exact Hne|split]]].
    + unfold add, objectStore. rewrite Hst, E1. reflexivity.
    + unfold add, objectStore. rewrite lookup_insert_eq, E2. reflexivity.
    + rewrite get_insert_eq. unfold store_get. simpl valid_key. cbv iota.
      unfold st2. simpl rows at 1.
      rewrite find_put_ne by exact Hne.
      rewrite find_put_eq by reflexivity. eauto.
    + rewrite get_insert_eq. unfold store_get. simpl valid_key. cbv iota.
      unfold st2. simpl rows at 1.
      rewrite find_put_eq by reflexivity. eauto.
Qed.

Lemma users_phone_number_unique_witness :
  let db1 := snd (add init "users" Scenario.asha "t1") in
  field Scenario.asha "id" = VUndef /\
  field Scenario.guest "id" = VUndef /\
  add db1 "users" Scenario.asha "t2" = (Err ConstraintError, db1) /\
  exists id1 db1 id2 db2,
    add init "users" Scenario.guest "t1" = (Ok id1, db1) /\
    add db1 "users" Scenario.guest "t2" = (Ok id2, db2) /\
    key_eqb id1 id2 = false /\
    (exists r1, get db2 "users" id1 = Ok (Some r1)) /\
    (exists r2, get db2 "users" id2 = Ok (Some r2)).
Proof.
  intros db1.
  assert (Ha : field Scenario.asha "id" = VUndef) by (vm_compute; reflexivity).
  assert (Hg : field Scenario.guest "id" = VUndef) by (vm_compute; reflexivity).
  split; [exact Ha|]. split; [exact Hg|]. split.
  - apply (proj1 (users_phone_number_unique init Scenario.asha Scenario.asha
                    "t1" "t2" Ha)
             (VStr "+15550100") (VNum 1) db1).
    + vm_compute. reflexivity.
    + vm_compute. reflexivity.
    + reflexivity.
    + apply pair_fst_snd. vm_compute. reflexivity.
  - apply (proj2 (users_phone_number_unique init Scenario.guest Scenario.guest
                    "t1" "t2" Hg)).
    + apply db_ok_init.
    + vm_compute. discriminate.
    + exact Hg.
    + vm_compute. reflexivity.
    + vm_compute. reflexivity.
Defined.

(** ** UserManager.deleteAccount *)

(** [deleteAccount] writes to the store of the users and to no other. *)
Lemma deleteAccount_other_stores s confirmed storeName :
  storeName <> "users" ->
  db (snd (UserManager.deleteAccount s confirmed)) !! storeName =
  db s !! storeName.
Proof.
  intros N. unfold UserManager.deleteAccount.
  destruct (currentUser s) as [user|]; [|reflexivity].
  destruct confirmed; simpl; [|reflexivity].
  unfold delete, objectStore.
  destruct (db s !! "users") as [st|]; [|reflexivity].
  destruct (store_delete st _) as [st'|e]; [|reflexivity].
  simpl. apply lookup_insert_ne. congruence.
Qed.

(** C1, on the code.  Deleting the account of a user with three emergency
    contacts and two evidence records succeeds and removes the user, and
    the three contacts and the two evidence records are still stored with
    the [user_id] of the user: nothing cascades. *)
Theorem deleteAccount_leaves_scoped_records :
  exists s',
    UserManager.deleteAccount Scenario.account true = (Success tt, s') /\
    currentUser s' = None /\
    get (db s') "users" (VNum 1) = Ok None /\
    (exists contacts,
        getByIndex (db s') "emergency_contacts" "user_id" (VNum 1)
        = Ok contacts /\ List.length contacts = 3%nat) /\
    (exists evidence,
        getByIndex (db s') "evidence" "user_id" (VNum 1) = Ok evidence /\
        List.length evidence = 2%nat).
Proof.
  exists (snd (UserManager.deleteAccount Scenario.account true)).
  split; [apply pair_fst_snd; vm_compute; reflexivity|].
  split; [vm_compute; reflexivity|].
  split; [vm_compute; reflexivity|].
  split.
  - exists (Scenario.value_of [] (getByIndex
              (db (snd (UserManager.deleteAccount Scenario.account true)))
              "emergency_contacts" "user_id" (VNum 1))).
    split; [apply is_ok_value_of|]; vm_compute; reflexivity.
  - exists (Scenario.value_of [] (getByIndex
              (db (snd (UserManager.deleteAccount Scenario.account true)))
              "evidence" "user_id" (VNum 1))).
    split; [apply is_ok_value_of|]; vm_compute; reflexivity.
Qed.

(** ** Array.prototype.sort *)

Section SortFacts.

Context {A : Type} (gt : A -> A -> bool).

Lemma sort_insert_perm x l : Permutation (sort_insert gt x l) (x :: l).
Proof.
  induction l as [|y rest IH]; simpl; [reflexivity|].
  destruct (gt x y); [|reflexivity].
  rewrite IH. apply perm_swap.
Qed.

Lemma sort_perm l : Permutation (sort gt l) l.
Proof.
  induction l as [|x rest IH]; simpl; [reflexivity|].
  rewrite sort_insert_perm. apply perm_skip. exact IH.
Qed.

Lemma sort_in l x : In x (sort gt l) <-> In x l.
Proof.
  split; apply Permutation_in; [|symmetry]; apply sort_perm.
Qed.

(** The comparison is consistent on the values of [dom]. *)
Variable dom : A -> Prop.
Hypothesis gt_asym : forall a b, gt a b = true -> gt b a = false.
Hypothesis le_trans :
  forall a b c, dom a -> dom b -> dom c ->
                gt a b = false -> gt b c = false -> gt a c = false.

Lemma sort_insert_sorted x l :
  dom x -> List.Forall dom l ->
  StronglySorted (fun a b => gt a b = false) l ->
  StronglySorted (fun a b => gt a b = false) (sort_insert gt x l).
Proof.
  intros Hx Hl Hs. induction Hs as [|y rest Hrest IH Hy]; simpl.
  - constructor; constructor.
  - inversion Hl as [|? ? Hdy Hdrest]; subst.
    destruct (gt x y) eqn:E.
    + constructor; [exact (IH Hdrest)|].
      apply (Permutation_Forall (Permutation_sym (sort_insert_perm x rest))).
      constructor; [exact (gt_asym _ _ E) | exact Hy].
    + constructor; [constructor; assumption|].
      constructor; [exact E|].
      rewrite List.Forall_forall in Hy, Hdrest.
      apply List.Forall_forall. intros z Hz.
      exact (le_trans x y z Hx Hdy (Hdrest z Hz) E (Hy z Hz)).
Qed.

Lemma sort_sorted l :
  List.Forall dom l -> StronglySorted (fun a b => gt a b = false) (sort gt l).
Proof.
  induction l as [|x rest IH]; simpl; intros Hl; [constructor|].
  inversion Hl; subst.
  apply sort_insert_sorted; [assumption| |auto].
  apply (Permutation_Forall (Permutation_sym (sort_perm rest))). assumption.
Qed.

End SortFacts.

Lemma in_firstn {A : Type} n (l : list A) x : In x (firstn n l) -> In x l.
Proof.
  revert n. induction l as [|z t IHt]; intros [|n]; simpl; try tauto.
  intros [->|Hx]; [left; reflexivity | right; exact (IHt n Hx)].
Qed.

Lemma StronglySorted_firstn {A : Type} (R : A -> A -> Prop) n l :
  StronglySorted R l -> StronglySorted R (firstn n l).
Proof.
  revert n. induction l as [|x rest IH]; intros n Hs.
  - destruct n; constructor.
  - destruct n; simpl; [constructor|].
    inversion Hs as [|? ? Hrest Hx]; subst. constructor; [auto|].
    rewrite List.Forall_forall in Hx. apply List.Forall_forall.
    intros y Hy. apply Hx. exact (in_firstn _ _ _ Hy).
Qed.

Lemma StronglySorted_impl_in {A : Type} (R R' : A -> A -> Prop) l :
  (forall a b, In a l -> In b l -> R a b -> R' a b) ->
  StronglySorted R l -> StronglySorted R' l.
Proof.
  intros Himp Hs. induction Hs as [|x rest Hrest IH Hx]; [constructor|].
  constructor.
  - apply IH. intros a b Ha Hb. apply Himp; right; assumption.
  - rewrite List.Forall_forall in Hx. apply List.Forall_forall.
    intros y Hy. apply Himp; [left; reflexivity | right; exact Hy | auto].
Qed.

(** ** Queries by index *)

(** A query by a key returns the records with that key at the key path of
    the index, in the order of the store. *)
Lemma getByIndex_key db storeName indexName st v :
  db !! storeName = Some st ->
  has_index storeName indexName = true ->
  valid_key v = true ->
  getByIndex db storeName indexName v =
  Ok (List.filter (fun o => key_eqb (field o indexName) v) (store_getAll st)).
Proof.
  intros Hst Hix Hv. unfold getByIndex, objectStore, index_getAll.
  rewrite Hst, Hix. destruct v; try discriminate; reflexivity.
Qed.

(** ** LocationManager.getLocationHistory *)

Section LocationHistory.

Variable Date_parse : string -> option Z.

Lemma older_asym a b :
  LocationManager.older Date_parse a b = true ->
  LocationManager.older Date_parse b a = false.
Proof.
  unfold LocationManager.older.
  destruct (LocationManager.Date_of _ (field b "timestamp")) as [tb|],
           (LocationManager.Date_of _ (field a "timestamp")) as [ta|];
    try discriminate.
  intros H. apply Z.ltb_lt in H. apply Z.ltb_ge. lia.
Qed.

Lemma older_trans a b c :
  LocationManager.Date_of Date_parse (field a "timestamp") <> None ->
  LocationManager.Date_of Date_parse (field b "timestamp") <> None ->
  LocationManager.Date_of Date_parse (field c "timestamp") <> None ->
  LocationManager.older Date_parse a b = false ->
  LocationManager.older Date_parse b c = false ->
  LocationManager.older Date_parse a c = false.
Proof.
  unfold LocationManager.older.
  destruct (LocationManager.Date_of _ (field a "timestamp")) as [ta|],
           (LocationManager.Date_of _ (field b "timestamp")) as [tb|],
           (LocationManager.Date_of _ (field c "timestamp")) as [tc|];
    try congruence.
  intros _ _ _. rewrite !Z.ltb_ge. lia.
Qed.

Lemma not_older_newest a b :
  LocationManager.Date_of Date_parse (field a "timestamp") <> None ->
  LocationManager.Date_of Date_parse (field b "timestamp") <> None ->
  LocationManager.older Date_parse a b = false ->
  match LocationManager.Date_of Date_parse (field a "timestamp"),
        LocationManager.Date_of Date_parse (field b "timestamp") with
  | Some ta, Some tb => tb <= ta
  | _, _ => False
  end.
Proof.
  unfold LocationManager.older.
  destruct (LocationManager.Date_of _ (field a "timestamp")) as [ta|],
           (LocationManager.Date_of _ (field b "timestamp")) as [tb|];
    try congruence.
  intros _ _. rewrite Z.ltb_ge. lia.
Qed.

End LocationHistory.

(** C10, as amended.  For a logged-in user (with an id) whose location
    records carry valid dates, [getLocationHistory(limit)] returns records of
    that user only, newest first; for a positive [limit] (100 when omitted)
    these are the first [limit] records of the user's sorted history, so
    [min(limit, number of records)] of them; for [limit = 0] nothing is
    truncated and every record of the user is returned. *)
Theorem getLocationHistory_newest_first_limited
        Date_parse s user st limit :
  currentUser s = Some user ->
  valid_key (field user "id") = true ->
  db s !! "location_history" = Some st ->
  let mine :=
    List.filter (fun o => key_eqb (field o "user_id") (field user "id"))
                (store_getAll st) in
  let n := match limit with Some n => n | None => 100 end in
  (forall o, In o mine ->
             LocationManager.Date_of Date_parse (field o "timestamp") <> None) ->
  0 <= n ->
  let result := LocationManager.getLocationHistory Date_parse s limit in
  newest_first Date_parse result /\
  (forall o, In o result -> In o mine) /\
  (0 < n ->
   result = firstn (Z.to_nat n)
                   (sort (LocationManager.older Date_parse) mine) /\
   List.length result = Nat.min (Z.to_nat n) (List.length mine)) /\
  (n = 0 -> Permutation result mine).
Proof.
  intros Huser Hid Hst mine n Hdates Hn result.
  assert (Hres : result =
                 if negb (n =? 0)
                 then firstn (Z.to_nat n)
                             (sort (LocationManager.older Date_parse) mine)
                 else sort (LocationManager.older Date_parse) mine).
  { unfold result, LocationManager.getLocationHistory.
    rewrite Huser, (getByIndex_key _ _ _ st) by (exact Hst || reflexivity || exact Hid).
    fold mine. fold n. unfold slice0.
    destruct (0 <=? n) eqn:E; [reflexivity|]. apply Z.leb_gt in E. lia. }
  assert (Hsorted : StronglySorted
                      (fun a b => LocationManager.older Date_parse a b = false)
                      (sort (LocationManager.older Date_parse) mine)).
  { apply (sort_sorted _
             (fun o => LocationManager.Date_of Date_parse
                         (field o "timestamp") <> None)).
    - apply older_asym.
    - apply older_trans.
    - apply List.Forall_forall. exact Hdates. }
  assert (Hin : forall o, In o result -> In o mine).
  { intros o Ho. rewrite Hres in Ho.
    destruct (negb (n =? 0)); [apply in_firstn in Ho|];
      apply (sort_in (LocationManager.older Date_parse)); exact Ho. }
  split; [|split; [exact Hin|split]].
  - unfold newest_first.
    apply (StronglySorted_impl_in
             (fun a b => LocationManager.older Date_parse a b = false)).
    + intros a b Ha Hb. apply not_older_newest; apply Hdates; auto.
    + rewrite Hres. destruct (negb (n =? 0)); [|exact Hsorted].
      apply StronglySorted_firstn. exact Hsorted.
  - intros Hpos. rewrite Hres.
    destruct (n =? 0) eqn:E; [apply Z.eqb_eq in E; lia|]. simpl.
    split; [reflexivity|].
    rewrite length_firstn.
    rewrite (Permutation_length (sort_perm _ mine)). reflexivity.
  - intros H0. rewrite Hres, H0. simpl. apply sort_perm.
Qed.

Lemma getLocationHistory_newest_first_limited_witness :
  let s := Scenario.history in
  let user := set_field "id" (VNum 1) Scenario.asha in
  let st := Scenario.the_store (db s) "location_history" in
  let mine :=
    List.filter (fun o => key_eqb (field o "user_id") (field user "id"))
                (store_getAll st) in
  let result :=
    LocationManager.getLocationHistory Scenario.Date_parse s (Some 1) in
  (currentUser s = Some user /\ db s !! "location_history" = Some st /\
   List.length mine = 2%nat) /\
  newest_first Scenario.Date_parse result /\
  (forall o, In o result -> In o mine) /\
  (0 < 1 ->
   result = firstn (Z.to_nat 1)
                   (sort (LocationManager.older Scenario.Date_parse) mine) /\
   List.length result = Nat.min (Z.to_nat 1) (List.length mine)) /\
  (1 = 0 -> Permutation result mine).
Proof.
  intros s user st mine result.
  assert (Hst : db s !! "location_history" = Some st)
    by (apply has_store_the_store; vm_compute; reflexivity).
  split; [split; [reflexivity | split; [exact Hst | vm_compute; reflexivity]]|].
  apply (getLocationHistory_newest_first_limited
           Scenario.Date_parse s user st (Some 1)).
  - reflexivity.
  - vm_compute. reflexivity.
  - exact Hst.
  - assert (Hall : forallb
                     (fun o => match LocationManager.Date_of
                                       Scenario.Date_parse
                                       (field o "timestamp") with
                               | Some _ => true
                               | None => false
                               end) mine = true)
      by (vm_compute; reflexivity).
    rewrite forallb_forall in Hall. intros o Ho Hnone.
    specialize (Hall o Ho). cbv beta in Hall. rewrite Hnone in Hall.
    exact (diff_false_true Hall).
  - lia.
Defined.

(** C10, as stated, fails for [limit = 0]: the history of two records is
    returned whole, which is more than [limit] entries. *)
Lemma getLocationHistory_limit_zero :
  let limit := 0 in
  let result :=
    LocationManager.getLocationHistory Scenario.Date_parse Scenario.history
                                       (Some limit) in
  List.length result = 2%nat /\ ~ (Z.of_nat (List.length result) <= limit).
Proof.
  intros limit result.
  assert (H : List.length result = 2%nat) by (vm_compute; reflexivity).
  split; [exact H|]. rewrite H. unfold limit. lia.
Qed.

(** ** APIService.processOfflineQueue *)

Section OfflineQueue.

Variable network : nat -> APIService.Fetch.

Lemma request_fetched a r :
  APIService.fetched (snd (APIService.request network a r)) =
  (APIService.fetched a ++ [r])%list.
Proof.
  unfold APIService.request.
  destruct (network _) as [data | message onLine]; [reflexivity|].
  destruct onLine; reflexivity.
Qed.

(** The loop hands every request of the queue to [fetch], once and in the
    order of the queue, and collects one result for each. *)
Lemma replay_fetched queue : forall a results,
  APIService.fetched (snd (APIService.replay network a queue results)) =
  (APIService.fetched a ++ queue)%list /\
  List.length (fst (APIService.replay network a queue results)) =
  (List.length results + List.length queue)%nat.
Proof.
  induction queue as [|r rest IH]; intros a results; simpl.
  - rewrite app_nil_r. split; [reflexivity | lia].
  - pose proof (request_fetched a r) as Hr.
    destruct (APIService.request network a r) as [result a1]. simpl in Hr.
    destruct (IH a1 (results ++ [result])%list) as [Hf Hl].
    rewrite Hf, Hl, Hr, <- app_assoc, length_app. simpl.
    split; [reflexivity | lia].
Qed.

End OfflineQueue.

(** C3.  [processOfflineQueue] hands every request of the stored queue to
    [fetch] exactly once, in the order in which they were queued, and after
    the pass the queue is empty, whatever happened to the individual
    requests; a queue that was not empty is removed from the storage and
    from memory, and there is one result for each request.  In particular,
    after three requests have been queued and the second one fails on
    replay (online or not), one pass has sent the three of them in order
    and left an empty queue. *)
Theorem processOfflineQueue_drains_in_order :
  (forall network a,
     let out := APIService.processOfflineQueue network a in
     APIService.fetched (snd out) =
     (APIService.fetched a ++ APIService.pending a)%list /\
     APIService.pending (snd out) = [] /\
     (APIService.pending a <> [] ->
      APIService.stored (snd out) = None /\
      APIService.offlineQueue (snd out) = [] /\
      exists results,
        fst out = Some results /\
        List.length results = List.length (APIService.pending a))) /\
  (forall onLine,
     APIService.pending Scenario.queued =
     [Scenario.post "first"; Scenario.post "second"; Scenario.post "third"] /\
     APIService.processOfflineQueue (Scenario.second_fails onLine)
                                    Scenario.queued =
     (Some [ APIService.Received "{}";
             APIService.Refused "Failed to fetch";
             APIService.Received "{}" ],
      {| APIService.offlineQueue := [];
         APIService.stored := None;
         APIService.fetched :=
           [ Scenario.post "first"; Scenario.post "second";
             Scenario.post "third" ] |})).
Proof.
  split.
  - intros network a out. unfold out, APIService.processOfflineQueue.
    assert (Hp : APIService.pending a =
                 match APIService.stored a with Some q => q | None => [] end)
      by reflexivity.
    rewrite Hp. clear Hp.
    destruct (APIService.stored a) as [[|r rest]|] eqn:Hq.
    + simpl. unfold APIService.pending. rewrite Hq, app_nil_r.
      repeat split; congruence.
    + destruct (replay_fetched network (r :: rest) a []) as [Hf Hl].
      destruct (APIService.replay network a (r :: rest) [])
        as [results a'] eqn:Hrep.
      simpl in Hf, Hl. simpl.
      split; [exact Hf|]. split; [reflexivity|]. intros _.
      split; [reflexivity|]. split; [reflexivity|].
      exists results. split; [reflexivity | exact Hl].
    + simpl. unfold APIService.pending. rewrite Hq, app_nil_r.
      repeat split; congruence.
  - intros [|]; split; reflexivity.
Qed.

(** ** Read, modify, write *)

Lemma find_row_in j rs o :
  find_row j rs = Some o -> exists k, In (k, o) rs /\ key_eqb j k = true.
Proof.
  induction rs as [|[k' o'] rest IH]; simpl; [discriminate|].
  destruct (key_eqb j k') eqn:E.
  - intros H. injection H as ->. exists k'. split; [left; reflexivity | exact E].
  - intros H. destruct (IH H) as (k & Hin & Hk).
    exists k. split; [right; exact Hin | exact Hk].
Qed.

Lemma get_inv db storeName id o :
  get db storeName id = Ok (Some o) ->
  exists st,
    db !! storeName = Some st /\ valid_key id = true /\
    find_row id (rows st) = Some o.
Proof.
  unfold get, objectStore, store_get. intros H.
  destruct (db !! storeName) as [st|]; [|discriminate].
  destruct (valid_key id); [|discriminate].
  injection H as H. exists st. auto.
Qed.

(** In a well-formed store, the record found under a key carries that key
    at its key path. *)
Lemma found_row_id st id o :
  store_ok st = true -> find_row id (rows st) = Some o ->
  valid_key (field o "id") = true /\ key_eqb id (field o "id") = true.
Proof.
  unfold store_ok. intros Hok Hf.
  destruct (find_row_in _ _ _ Hf) as (k & Hin & Hk).
  rewrite forallb_forall in Hok. specialize (Hok _ Hin).
  unfold row_ok in Hok. simpl in Hok.
  rewrite !andb_true_iff in Hok. destruct Hok as [[_ Hid] _].
  split; [exact (key_eqb_valid _ _ Hid)|].
  rewrite key_eqb_sym in Hid. exact (key_eqb_trans _ _ _ Hk Hid).
Qed.

(** A record read with [get], changed anywhere but at its key path and
    written back with [update] replaces the record it was read from. *)
Lemma update_after_get db storeName st id (o o' : obj) :
  db !! storeName = Some st ->
  store_ok st = true ->
  valid_key id = true ->
  find_row id (rows st) = Some o ->
  field o' "id" = field o "id" ->
  clash (indexes_of storeName) (field o "id") o' (rows st) = false ->
  exists db',
    update db storeName o' = (Ok (field o "id"), db') /\
    get db' storeName id = Ok (Some o') /\
    (forall other, other <> storeName -> db' !! other = db !! other).
Proof.
  intros Hst Hok Hv Hf Hid Hc.
  destruct (found_row_id st id o Hok Hf) as [Hvk Hk].
  exists (<[storeName :=
              {| keygen := bump (keygen st) (field o "id");
                 rows := put_row (field o "id") o' (rows st) |}]> db).
  split; [|split].
  - unfold update, objectStore, store. rewrite Hst, Hid.
    destruct (field o "id") eqn:E; try discriminate; simpl;
      rewrite Hc; reflexivity.
  - rewrite get_insert_eq. unfold store_get. rewrite Hv. simpl.
    rewrite (find_row_eqb _ _ _ Hk), find_put_eq by exact Hvk. reflexivity.
  - intros other N. apply lookup_insert_ne. congruence.
Qed.

(** ** CommunityManager.rateResponder *)

Lemma responders_indexes :
  indexes_of "community_responders" = [("type", false); ("is_verified", false)].
Proof. reflexivity. Qed.

(** Ratings that are numbers.  For a responder stored with the rating [r]
    and the response count [n] (a count: [0 <= n]): a number [v] below 0 or
    above 5 is refused with the error "Rating must be between 0 and 5" and
    the database is left as it was; a number [v] in [0, 5] stores the
    responder with the rating [(r * n + v) / (n + 1)] and the response
    count [n + 1], every other property unchanged. *)
Theorem rateResponder_running_average db responderId responder r n v :
  db_ok db = true ->
  get db "community_responders" responderId = Ok (Some responder) ->
  field responder "rating" = VNum r ->
  field responder "response_count" = VNum n ->
  (0 <= n)%Q ->
  ((v < 0 \/ 5 < v)%Q ->
   CommunityManager.rateResponder db responderId (VNum v) =
   (Failure (JsError "Rating must be between 0 and 5"), db)) /\
  ((0 <= v /\ v <= 5)%Q ->
   exists responder' db',
     CommunityManager.rateResponder db responderId (VNum v) =
     (Success responder', db') /\
     get db' "community_responders" responderId = Ok (Some responder') /\
     field responder' "rating" = VNum ((r * n + v) / (n + 1)) /\
     field responder' "response_count" = VNum (n + 1) /\
     (forall f, f <> "rating" -> f <> "response_count" ->
                responder' !! f = responder !! f)).
Proof.
  intros Hok Hget Hr Hn Hn0. split.
  - intros Hv. unfold CommunityManager.rateResponder. simpl.
    assert (E : negb (Qle_bool 0 v) || negb (Qle_bool v 5) = true).
    { apply orb_true_iff.
      destruct Hv as [Hv | Hv]; [left | right]; apply negb_true_iff;
        destruct (Qle_bool _ _) eqn:E; try reflexivity;
        apply Qle_bool_iff in E; exfalso; exact (Qlt_not_le _ _ Hv E). }
    rewrite E. reflexivity.
  - intros [Hv0 Hv5]. unfold CommunityManager.rateResponder. simpl.
    apply Qle_bool_iff in Hv0, Hv5. rewrite Hv0, Hv5. simpl.
    rewrite Hget, Hr, Hn. simpl. rewrite field_insert_eq. simpl.
    assert (E : Qeq_bool (n + 1) 0 = false).
    { destruct (Qeq_bool _ _) eqn:E; [|reflexivity].
      apply Qeq_bool_iff in E. exfalso.
      assert (H : (0 < n + 1)%Q).
      { apply Qlt_le_trans with (0 + 1)%Q; [reflexivity|].
        apply Qplus_le_l. exact Hn0. }
      rewrite E in H. exact (Qlt_irrefl _ H). }
    rewrite E.
    set (responder' := <["rating" := VNum ((r * n + v) / (n + 1))]>
                         (<["response_count" := VNum (n + 1)]> responder)).
    destruct (get_inv _ _ _ _ Hget) as (st & Hst & Hvid & Hfind).
    destruct (db_ok_lookup db "community_responders" Hok)
      as (st0 & Hst0 & Hst_ok); [vm_compute; congruence|].
    assert (st0 = st) by congruence. subst st0.
    destruct (update_after_get db "community_responders" st responderId
                responder responder' Hst Hst_ok Hvid Hfind)
      as (db' & Hup & Hget' & _).
    + unfold responder'. rewrite !field_insert_ne by congruence. reflexivity.
    + rewrite responders_indexes. unfold clash. simpl.
      reflexivity.
    + exists responder', db'.
      change (set_field "rating" (of_number (Some ((r * n + v) / (n + 1))%Q))
                (<["response_count" := VNum (n + 1)]> responder))
        with responder'.
      rewrite Hup.
      split; [reflexivity|]. split; [exact Hget'|].
      unfold responder'. split; [apply field_insert_eq|].
      split; [rewrite field_insert_ne by congruence; apply field_insert_eq|].
      intros f N1 N2. rewrite !lookup_insert_ne by congruence. reflexivity.
Qed.

(** The responder with the rating 4.0 and the count 2, rated 5: the rating
    becomes (4.0 * 2 + 5) / 3, the count 3. *)
Lemma rateResponder_running_average_witness :
  let responder :=
    Scenario.the_record
      (get Scenario.volunteers_db "community_responders" (VNum 1)) in
  (get Scenario.volunteers_db "community_responders" (VNum 1) =
   Ok (Some responder) /\
   field responder "rating" = VNum 4 /\
   field responder "response_count" = VNum 2) /\
  (exists responder' db',
     CommunityManager.rateResponder Scenario.volunteers_db (VNum 1) (VNum 5) =
     (Success responder', db') /\
     get db' "community_responders" (VNum 1) = Ok (Some responder') /\
     field responder' "rating" = VNum ((4 * 2 + 5) / (2 + 1)) /\
     field responder' "response_count" = VNum (2 + 1) /\
     (forall f, f <> "rating" -> f <> "response_count" ->
                responder' !! f = responder !! f)) /\
  ((4 * 2 + 5) / (2 + 1) == 13 # 3)%Q /\ (2 + 1 == 3)%Q.
Proof.
  intros responder.
  assert (Hget : get Scenario.volunteers_db "community_responders" (VNum 1) =
                 Ok (Some responder))
    by (apply found_the_record; vm_compute; reflexivity).
  assert (Hr : field responder "rating" = VNum 4)
    by (vm_compute; reflexivity).
  assert (Hn : field responder "response_count" = VNum 2)
    by (vm_compute; reflexivity).
  split; [split; [exact Hget | split; [exact Hr | exact Hn]]|].
  split; [|split; reflexivity].
  apply (proj2 (rateResponder_running_average
                  Scenario.volunteers_db (VNum 1) responder 4 2 5
                  ltac:(vm_compute; reflexivity) Hget Hr Hn
                  ltac:(vm_compute; discriminate))).
  split; vm_compute; discriminate.
Defined.

(** C5, on the code.  A rating is refused when [rating < 0 || rating > 5],
    and both comparisons are false for a rating that is [undefined] (an
    argument left out) or NaN, neither of which is in [0, 5]: the call does
    not fail.  For the responder stored with the rating 4.0 and the count 2
    it succeeds, and the responder is stored with the rating NaN and the
    count 3. *)
Theorem rateResponder_accepts_a_rating_outside_the_range :
  let db := Scenario.volunteers_db in
  let stored db :=
    Scenario.the_record (get db "community_responders" (VNum 1)) in
  let accepted rating :=
    exists responder' db',
      CommunityManager.rateResponder db (VNum 1) rating =
      (Success responder', db') /\
      field responder' "rating" = VNaN /\
      get db' "community_responders" (VNum 1) = Ok (Some (stored db')) /\
      field (stored db') "rating" = VNaN /\
      field (stored db') "response_count" = VNum 3 in
  get db "community_responders" (VNum 1) = Ok (Some (stored db)) /\
  field (stored db) "rating" = VNum 4 /\
  field (stored db) "response_count" = VNum 2 /\
  accepted VUndef /\ accepted VNaN.
Proof.
  intros db stored accepted.
  split; [apply found_the_record; vm_compute; reflexivity|].
  split; [vm_compute; reflexivity|]. split; [vm_compute; reflexivity|].
  assert (H : forall rating,
            match fst (CommunityManager.rateResponder db (VNum 1) rating) with
            | Success _ => true
            | _ => false
            end = true ->
            let out := CommunityManager.rateResponder db (VNum 1) rating in
            field match fst out with Success a => a | _ => ∅ end "rating"
            = VNaN ->
            Scenario.found (get (snd out) "community_responders" (VNum 1))
            = true ->
            field (stored (snd out)) "rating" = VNaN ->
            field (stored (snd out)) "response_count" = VNum 3 ->
            accepted rating).
  { intros rating Hs out H1 H2 H3 H4.
    exists match fst out with Success a => a | _ => ∅ end, (snd out).
    split; [apply success_value; exact Hs|]. split; [exact H1|].
    split; [apply found_the_record; exact H2|]. split; [exact H3 | exact H4]. }
  split; apply H; vm_compute; reflexivity.
Qed.

(** ** Comparisons of real-valued numbers *)

Lemma le_real_iff a b :
  le_real a b = true <-> exists x y, a = Some x /\ b = Some y /\ (x <= y)%R.
Proof.
  unfold le_real. destruct a as [x|], b as [y|].
  - destruct (Rle_dec x y) as [H | H].
    + split; [intros _; exists x, y; auto | reflexivity].
    + split; [discriminate|].
      intros (x' & y' & Hx & Hy & Hle). congruence.
  - split; [discriminate | intros (? & ? & _ & ? & _); discriminate].
  - split; [discriminate | intros (? & ? & ? & _); discriminate].
  - split; [discriminate | intros (? & ? & ? & _); discriminate].
Qed.

(** ** CommunityManager.getNearbyResponders *)

(** Every responder returned has a truthy [latitude] and a truthy
    [longitude]: a coordinate that is 0 counts as missing. *)
Lemma getNearbyResponders_truthy db latitude longitude radiusKm n :
  In n (CommunityManager.getNearbyResponders db latitude longitude radiusKm) ->
  truthy (field (CommunityManager.responder n) "latitude") = true /\
  truthy (field (CommunityManager.responder n) "longitude") = true.
Proof.
  unfold CommunityManager.getNearbyResponders. intros Hin.
  apply (proj1 (sort_in CommunityManager.farther _ _)) in Hin.
  apply filter_In in Hin. destruct Hin as [Hin _].
  apply in_map_iff in Hin. destruct Hin as (r & <- & Hr).
  apply filter_In in Hr. destruct Hr as [_ Hr].
  apply andb_true_iff in Hr. exact Hr.
Qed.




(** C2, on the code.  With the responders at (0, 0) and (0, 0.1) stored,
    both with coordinates that are numbers, the query at (0, 0) with the
    radius 10 km returns no responder at all: the responder at (0, 0) is
    not returned.  The same holds when the two responders are added with
    [addResponder], which stores a coordinate 0 as [null]. *)
Theorem getNearbyResponders_drops_zero_coordinates :
  (List.map (fun r => (field r "latitude", field r "longitude"))
            (CommunityManager.getAllResponders Scenario.responders_db)
   = [ (VNum 0, VNum 0); (VNum 0, VNum (1 # 10)) ] /\
   CommunityManager.getNearbyResponders Scenario.responders_db
     (VNum 0) (VNum 0) (VNum 10) = []) /\
  (List.map (fun r => (field r "latitude", field r "longitude"))
            (CommunityManager.getAllResponders Scenario.added_responders_db)
   = [ (VNull, VNull); (VNull, VNum (1 # 10)) ] /\
   CommunityManager.getNearbyResponders Scenario.added_responders_db
     (VNum 0) (VNum 0) (VNum 10) = []).
Proof.
  split; (split; [vm_compute; reflexivity|]);
    unfold CommunityManager.getNearbyResponders.
  - assert (H : List.filter
                  (fun r => truthy (field r "latitude") &&
                            truthy (field r "longitude"))
                  (CommunityManager.getAllResponders Scenario.responders_db)
                = []) by (vm_compute; reflexivity).
    rewrite H. reflexivity.
  - assert (H : List.filter
                  (fun r => truthy (field r "latitude") &&
                            truthy (field r "longitude"))
                  (CommunityManager.getAllResponders
                     Scenario.added_responders_db)
                = []) by (vm_compute; reflexivity).
    rewrite H. reflexivity.
Qed.

(** ** SOSManager: the status of an alert *)

Section AlertStatus.

Lemma find_put k id o rs :
  valid_key id = true ->
  find_row k (put_row id o rs) =
  if key_eqb k id then Some o else find_row k rs.
Proof.
  intros Hv. destruct (key_eqb k id) eqn:E.
  - rewrite (find_row_eqb _ _ _ E). apply find_put_eq. exact Hv.
  - apply find_put_ne. exact E.
Qed.

(** Writing an alert leaves every stored alert with the status it had or
    gives it the status of the alert written. *)
Lemma status_after_update d alert id d' k v :
  update d "sos_alerts" alert = (Ok id, d') ->
  SOSManager.status_in d k = Some v ->
  SOSManager.status_in d' k = Some v \/
  SOSManager.status_in d' k = Some (field alert "status").
Proof.
  intros Hup Hk.
  destruct (update_inv _ _ _ _ _ Hup) as (st & st' & Hst & Hs & ->).
  destruct (store_inv _ _ _ _ _ _ Hs) as (Hv & o & Hrows & _ & Ho & _).
  unfold SOSManager.status_in in *. rewrite get_insert_eq.
  unfold get, objectStore in Hk. rewrite Hst in Hk.
  unfold store_get in *. destruct (valid_key k); [|discriminate].
  rewrite Hrows, find_put by exact Hv.
  destruct (key_eqb k id).
  - right. unfold field. rewrite Ho by congruence. reflexivity.
  - left. exact Hk.
Qed.

(** Adding a record, to any store, leaves every stored alert as it was. *)
Lemma status_after_add d storeName data now r d' k v :
  add d storeName data now = (r, d') ->
  SOSManager.status_in d k = Some v ->
  SOSManager.status_in d' k = Some v.
Proof.
  intros Hadd Hk. destruct r as [id|e].
  2: { rewrite (add_failed _ _ _ _ _ _ Hadd). exact Hk. }
  destruct (add_inv _ _ _ _ _ _ Hadd) as (st & st' & Hst & Hs & ->).
  unfold SOSManager.status_in in *.
  destruct (decide (storeName = "sos_alerts")) as [-> | N].
  - destruct (store_inv _ _ _ _ _ _ Hs)
      as (Hv & o & Hrows & _ & _ & _ & Hnew & _).
    specialize (Hnew eq_refl).
    rewrite get_insert_eq. unfold get, objectStore in Hk. rewrite Hst in Hk.
    unfold store_get in *. destruct (valid_key k); [|discriminate].
    rewrite Hrows, find_put by exact Hv.
    destruct (key_eqb k id) eqn:E; [|exact Hk].
    rewrite (find_row_eqb _ _ _ E), Hnew in Hk. discriminate.
  - rewrite get_insert_ne by exact N. exact Hk.
Qed.

Lemma status_after_saveLocation s location now k v :
  SOSManager.status s k = Some v ->
  SOSManager.status (snd (LocationManager.saveLocation s location now)) k
  = Some v.
Proof.
  unfold LocationManager.saveLocation, SOSManager.status. intros Hk.
  destruct (currentUser s) as [user|]; [|exact Hk].
  destruct (add (db s) "location_history" _ now) as [[id|e] d'] eqn:Hadd;
    [|exact Hk].
  simpl. exact (status_after_add _ _ _ _ _ _ _ _ Hadd Hk).
Qed.

(** What an operation does to the status of a stored alert. *)
Lemma status_after_step s o k v :
  SOSManager.status s k = Some v ->
  exists v',
    SOSManager.status (SOSManager.step s o) k = Some v' /\
    (v' = v \/
     (v' = SOSManager.CANCELLED /\ exists now, o = SOSManager.Cancel now) \/
     (v' = SOSManager.RESOLVED /\
      exists alertId notes now, o = SOSManager.Resolve alertId notes now)).
Proof.
  intros Hk. destruct o as [location now | now | alertId notes now]; simpl.
  - (* triggerSOS *)
    exists v. split; [|left; reflexivity].
    unfold SOSManager.triggerSOS.
    destruct (currentUser s) as [user|]; [|exact Hk].
    destruct (add (db s) "sos_alerts" _ now) as [[id|e] d'] eqn:Hadd;
      [|exact Hk].
    simpl.
    pose proof (status_after_add _ _ _ _ _ _ k v Hadd Hk) as H1.
    destruct location as [l|]; [|exact H1].
    apply status_after_saveLocation. exact H1.
  - (* cancelSOS *)
    unfold SOSManager.cancelSOS.
    destruct (currentAlert s) as [current|];
      [|exists v; split; [exact Hk | left; reflexivity]].
    destruct (get (db s) "sos_alerts" _) as [[alert|]|e];
      try (exists v; split; [exact Hk | left; reflexivity]).
    destruct (update (db s) "sos_alerts" _) as [[id|e] d'] eqn:Hup;
      [|exists v; split; [exact Hk | left; reflexivity]].
    destruct (status_after_update _ _ _ _ k v Hup Hk) as [H | H].
    + exists v. split; [exact H | left; reflexivity].
    + eexists. split; [exact H|]. right. left.
      split; [|exists now; reflexivity].
      rewrite field_set_ne by congruence. apply field_set_eq.
  - (* resolveSOS *)
    unfold SOSManager.resolveSOS.
    destruct (get (db s) "sos_alerts" alertId) as [[alert|]|e];
      try (exists v; split; [exact Hk | left; reflexivity]).
    destruct (update (db s) "sos_alerts" _) as [[id|e] d'] eqn:Hup;
      [|exists v; split; [exact Hk | left; reflexivity]].
    destruct (status_after_update _ _ _ _ k v Hup Hk) as [H | H].
    + exists v. split; [exact H | left; reflexivity].
    + eexists. split; [exact H|]. right. right.
      split; [|exists alertId, notes, now; reflexivity].
      rewrite !field_set_ne by congruence. apply field_set_eq.
Qed.

End AlertStatus.

Lemma status_after_run ops : forall s k v,
  SOSManager.status s k = Some v ->
  v <> SOSManager.ACTIVE ->
  exists v',
    SOSManager.status (SOSManager.run s ops) k = Some v' /\
    v' <> SOSManager.ACTIVE.
Proof.
  induction ops as [|o rest IH]; intros s k v Hk Hv; simpl.
  - exists v. split; [exact Hk | exact Hv].
  - destruct (status_after_step s o k v Hk) as (v1 & H1 & Hcases).
    apply (IH _ k v1 H1).
    destruct Hcases as [-> | [[-> _] | [-> _]]];
      [exact Hv | discriminate | discriminate].
Qed.

Lemma triggerSOS_active s location now alert s' :
  SOSManager.triggerSOS s location now = (Success alert, s') ->
  SOSManager.status s' (field alert "id") = Some SOSManager.ACTIVE.
Proof.
  unfold SOSManager.triggerSOS.
  destruct (currentUser s) as [user|]; [|discriminate].
  destruct (add (db s) "sos_alerts" _ now) as [[id|e] d'] eqn:Hadd;
    [|discriminate].
  intros H. injection H as <- <-. rewrite field_set_eq.
  destruct (add_then_get _ _ _ _ _ _ Hadd) as (r & Hget & Hsame & _).
  assert (H1 : SOSManager.status_in d' id = Some SOSManager.ACTIVE).
  { unfold SOSManager.status_in. rewrite Hget. f_equal.
    unfold field at 1. rewrite Hsame by congruence.
    change (field (object
                     [ ("user_id", field user "id");
                       ("triggered_at", VStr now);
                       ("location_lat",
                        match location with
                        | Some l => or_else (field l "latitude") VNull
                        | None => VNull
                        end);
                       ("location_lng",
                        match location with
                        | Some l => or_else (field l "longitude") VNull
                        | None => VNull
                        end);
                       ("location_address", VNull);
                       ("status", SOSManager.ACTIVE);
                       ("notes", VStr "") ]) "status" = SOSManager.ACTIVE).
    simpl object.
    repeat first [ rewrite field_set_ne by congruence
                 | rewrite field_insert_ne by congruence ].
    apply field_insert_eq. }
  destruct location as [l|]; [|exact H1].
  apply status_after_saveLocation. exact H1.
Qed.

(** An alert that has been read and is written back, changed anywhere but
    at its key path, replaces the stored alert, whatever that one held, and
    leaves the other alerts as they were. *)
Lemma status_overwritten d id alert (alert' : obj) :
  db_ok d = true ->
  get d "sos_alerts" id = Ok (Some alert) ->
  field alert' "id" = field alert "id" ->
  exists k d',
    update d "sos_alerts" alert' = (Ok k, d') /\
    db_ok d' = true /\
    SOSManager.status_in d' id = Some (field alert' "status") /\
    (forall j, key_eqb j id = false ->
               SOSManager.status_in d' j = SOSManager.status_in d j).
Proof.
  intros Hok Hget Hid.
  destruct (get_inv _ _ _ _ Hget) as (st & Hst & Hv & Hfind).
  destruct (db_ok_lookup d "sos_alerts" Hok) as (st0 & Hst0 & Hst_ok);
    [vm_compute; congruence|].
  assert (st0 = st) by congruence. subst st0.
  destruct (found_row_id st id alert Hst_ok Hfind) as [Hvk Hk].
  destruct (update_after_get d "sos_alerts" st id alert alert'
              Hst Hst_ok Hv Hfind Hid) as (d' & Hup & Hget' & _);
    [reflexivity|].
  exists (field alert "id"), d'. split; [exact Hup|].
  split; [exact (db_ok_update _ _ _ _ _ Hok Hup)|]. split.
  - unfold SOSManager.status_in. rewrite Hget'. reflexivity.
  - intros j Hj.
    destruct (update_inv _ _ _ _ _ Hup) as (st1 & st' & Hst1 & Hs & ->).
    destruct (store_inv _ _ _ _ _ _ Hs) as (_ & o & Hrows & _).
    assert (st1 = st) by congruence. subst st1.
    unfold SOSManager.status_in. rewrite get_insert_eq.
    unfold get, objectStore. rewrite Hst. unfold store_get.
    destruct (valid_key j); [|reflexivity].
    rewrite Hrows, find_put_ne; [reflexivity|].
    destruct (key_eqb j (field alert "id")) eqn:E; [|reflexivity].
    rewrite key_eqb_sym in Hk.
    rewrite (key_eqb_trans _ _ _ E Hk) in Hj. discriminate.
Qed.

(** [cancelSOS] sets the status of the current alert to cancelled, whatever
    it was. *)
Lemma cancelSOS_sets_cancelled s now current v :
  db_ok (db s) = true ->
  currentAlert s = Some current ->
  SOSManager.status s (field current "id") = Some v ->
  exists s',
    SOSManager.cancelSOS s now = (Success tt, s') /\
    db_ok (db s') = true /\
    currentAlert s' = None /\
    SOSManager.status s' (field current "id") = Some SOSManager.CANCELLED /\
    (forall k, key_eqb k (field current "id") = false ->
               SOSManager.status s' k = SOSManager.status s k).
Proof.
  intros Hok Hcur Hst.
  unfold SOSManager.status, SOSManager.status_in in Hst.
  destruct (get (db s) "sos_alerts" (field current "id"))
    as [[alert|]|e] eqn:Hget; try discriminate.
  set (alert' := set_field "resolved_at" (VStr now)
                   (set_field "status" SOSManager.CANCELLED alert)).
  destruct (status_overwritten (db s) _ alert alert' Hok Hget)
    as (k & d' & Hup & Hok' & Hs & Hothers).
  { unfold alert'. rewrite !field_set_ne by congruence. reflexivity. }
  exists {| db := d'; currentUser := currentUser s; currentAlert := None |}.
  unfold SOSManager.cancelSOS. rewrite Hcur, Hget. cbv zeta.
  fold alert'. rewrite Hup.
  split; [reflexivity|]. split; [exact Hok'|]. split; [reflexivity|].
  unfold SOSManager.status. cbn [db]. split; [|exact Hothers].
  rewrite Hs. unfold alert'.
  rewrite field_set_ne by congruence. rewrite field_set_eq. reflexivity.
Qed.

(** [resolveSOS] sets the status of the alert it is given to resolved,
    whatever it was. *)
Lemma resolveSOS_sets_resolved s alertId notes now v :
  db_ok (db s) = true ->
  SOSManager.status s alertId = Some v ->
  exists s',
    SOSManager.resolveSOS s alertId notes now = (Success tt, s') /\
    db_ok (db s') = true /\
    currentAlert s' = currentAlert s /\
    SOSManager.status s' alertId = Some SOSManager.RESOLVED /\
    (forall k, key_eqb k alertId = false ->
               SOSManager.status s' k = SOSManager.status s k).
Proof.
  intros Hok Hst.
  unfold SOSManager.status, SOSManager.status_in in Hst.
  destruct (get (db s) "sos_alerts" alertId) as [[alert|]|e] eqn:Hget;
    try discriminate.
  set (alert' := set_field "notes"
                   match notes with VUndef => VStr "" | n => n end
                   (set_field "resolved_at" (VStr now)
                      (set_field "status" SOSManager.RESOLVED alert))).
  destruct (status_overwritten (db s) _ alert alert' Hok Hget)
    as (k & d' & Hup & Hok' & Hs & Hothers).
  { unfold alert'. rewrite !field_set_ne by congruence. reflexivity. }
  exists {| db := d'; currentUser := currentUser s;
            currentAlert := currentAlert s |}.
  unfold SOSManager.resolveSOS. cbv zeta. rewrite Hget.
  fold alert'. rewrite Hup.
  split; [reflexivity|]. split; [exact Hok'|]. split; [reflexivity|].
  unfold SOSManager.status. cbn [db]. split; [|exact Hothers].
  rewrite Hs. unfold alert'.
  rewrite !field_set_ne by congruence. rewrite field_set_eq. reflexivity.
Qed.

(** C4, as amended.  No operation on alerts removes a stored alert, and the
    status of a stored alert changes only when [cancelSOS] sets it to
    cancelled or [resolveSOS] sets it to resolved; so an alert that is no
    longer active never becomes active again, along any sequence of
    operations.  An alert that [triggerSOS] has created is stored with the
    status active.  On a well-formed database [cancelSOS] succeeds and sets
    the status of the current alert to cancelled, and [resolveSOS] succeeds
    and sets the status of the stored alert that it names to resolved,
    whatever the status [v] was before; the other alerts keep their
    status. *)
Theorem sos_status_never_back_to_active :
  (forall s o k v,
     SOSManager.status s k = Some v ->
     exists v',
       SOSManager.status (SOSManager.step s o) k = Some v' /\
       (v' = v \/
        (v' = SOSManager.CANCELLED /\ exists now, o = SOSManager.Cancel now) \/
        (v' = SOSManager.RESOLVED /\
         exists alertId notes now, o = SOSManager.Resolve alertId notes now))) /\
  (forall ops s k v,
     SOSManager.status s k = Some v ->
     v <> SOSManager.ACTIVE ->
     exists v',
       SOSManager.status (SOSManager.run s ops) k = Some v' /\
       v' <> SOSManager.ACTIVE) /\
  (forall s location now alert s',
     SOSManager.triggerSOS s location now = (Success alert, s') ->
     SOSManager.status s' (field alert "id") = Some SOSManager.ACTIVE) /\
  (forall s now current v,
     db_ok (db s) = true ->
     currentAlert s = Some current ->
     SOSManager.status s (field current "id") = Some v ->
     exists s',
       SOSManager.cancelSOS s now = (Success tt, s') /\
       db_ok (db s') = true /\
       currentAlert s' = None /\
       SOSManager.status s' (field current "id")
       = Some SOSManager.CANCELLED /\
       (forall k, key_eqb k (field current "id") = false ->
                  SOSManager.status s' k = SOSManager.status s k)) /\
  (forall s alertId notes now v,
     db_ok (db s) = true ->
     SOSManager.status s alertId = Some v ->
     exists s',
       SOSManager.resolveSOS s alertId notes now = (Success tt, s') /\
       db_ok (db s') = true /\
       currentAlert s' = currentAlert s /\
       SOSManager.status s' alertId = Some SOSManager.RESOLVED /\
       (forall k, key_eqb k alertId = false ->
                  SOSManager.status s' k = SOSManager.status s k)).
Proof.
  split; [exact status_after_step|].
  split; [exact status_after_run|]. split; [exact triggerSOS_active|].
  split; [exact cancelSOS_sets_cancelled | exact resolveSOS_sets_resolved].
Qed.

(** On the alert of the scenario: resolved and still the current alert, it
    is cancelled by [cancelSOS]; cancelled, it is resolved by
    [resolveSOS]. *)
Lemma sos_status_never_back_to_active_witness :
  let t := Scenario.t0 in
  let s1 := SOSManager.step Scenario.logged_in (SOSManager.Trigger None t) in
  let s2 := SOSManager.step s1 (SOSManager.Cancel t) in
  let r2 := SOSManager.step s1 (SOSManager.Resolve (VNum 1) (VStr "") t) in
  (SOSManager.status r2 (VNum 1) = Some SOSManager.RESOLVED /\
   exists current s',
     currentAlert r2 = Some current /\ field current "id" = VNum 1 /\
     SOSManager.cancelSOS r2 t = (Success tt, s') /\
     SOSManager.status s' (VNum 1) = Some SOSManager.CANCELLED) /\
  (SOSManager.status s2 (VNum 1) = Some SOSManager.CANCELLED /\
   exists s',
     SOSManager.resolveSOS s2 (VNum 1) VUndef t = (Success tt, s') /\
     SOSManager.status s' (VNum 1) = Some SOSManager.RESOLVED).
Proof.
  intros t s1 s2 r2.
  assert (Hr2 : SOSManager.status r2 (VNum 1) = Some SOSManager.RESOLVED)
    by (vm_compute; reflexivity).
  assert (Hs2 : SOSManager.status s2 (VNum 1) = Some SOSManager.CANCELLED)
    by (vm_compute; reflexivity).
  split; (split; [assumption|]).
  - set (current := match currentAlert r2 with Some a => a | None => ∅ end).
    assert (Hcur : currentAlert r2 = Some current)
      by (apply is_some_value; vm_compute; reflexivity).
    assert (Hid : field current "id" = VNum 1) by (vm_compute; reflexivity).
    destruct (proj1 (proj2 (proj2 (proj2 sos_status_never_back_to_active)))
                r2 t current SOSManager.RESOLVED)
      as (s' & Hc & _ & _ & Hst & _).
    + vm_compute. reflexivity.
    + exact Hcur.
    + rewrite Hid. exact Hr2.
    + exists current, s'. rewrite Hid in Hst. auto.
  - destruct (proj2 (proj2 (proj2 (proj2 sos_status_never_back_to_active)))
                s2 (VNum 1) VUndef t SOSManager.CANCELLED)
      as (s' & Hc & _ & _ & Hst & _).
    + vm_compute. reflexivity.
    + exact Hs2.
    + exists s'. auto.
Defined.

(** C4, as stated, fails: an alert that has been cancelled is moved to
    resolved by [resolveSOS], and an alert that has been resolved is moved
    to cancelled by [cancelSOS] while it is still the current alert. *)
Lemma sos_status_leaves_cancelled_and_resolved :
  let t := Scenario.t0 in
  let s1 := SOSManager.step Scenario.logged_in (SOSManager.Trigger None t) in
  let s2 := SOSManager.step s1 (SOSManager.Cancel t) in
  let s3 := SOSManager.step s2 (SOSManager.Resolve (VNum 1) (VStr "") t) in
  let r2 := SOSManager.step s1 (SOSManager.Resolve (VNum 1) (VStr "") t) in
  let r3 := SOSManager.step r2 (SOSManager.Cancel t) in
  SOSManager.status s1 (VNum 1) = Some (VStr "active") /\
  SOSManager.status s2 (VNum 1) = Some (VStr "cancelled") /\
  SOSManager.status s3 (VNum 1) = Some (VStr "resolved") /\
  SOSManager.status r2 (VNum 1) = Some (VStr "resolved") /\
  SOSManager.status r3 (VNum 1) = Some (VStr "cancelled").
Proof.
  repeat split; vm_compute; reflexivity.
Qed.

(** ** Utils.calculateDistance *)

Section Haversine.

Local Open Scope R_scope.

Lemma abs_sin_small t : - (PI / 2) < t < PI / 2 -> Rabs (sin t) = sin (Rabs t).
Proof.
  intros [Hlo Hhi]. pose proof PI_RGT_0 as Hpi.
  destruct (Rle_dec 0 t) as [Hpos | Hneg].
  - rewrite (Rabs_right t) by lra.
    apply Rabs_right. apply Rle_ge. apply sin_ge_0; lra.
  - rewrite (Rabs_left t) by lra.
    rewrite <- (Ropp_involutive t) at 1. rewrite sin_neg.
    rewrite Rabs_Ropp. apply Rabs_right. apply Rle_ge. apply sin_ge_0; lra.
Qed.

Lemma cos_abs t : cos (Rabs t) = cos t.
Proof.
  destruct (Rle_dec 0 t) as [Hpos | Hneg].
  - rewrite Rabs_right by lra. reflexivity.
  - rewrite Rabs_left by lra. apply cos_neg.
Qed.

(** The half angle of the haversine formula, recovered by [atan2]. *)
Lemma atan2_half_angle t :
  - (PI / 2) < t < PI / 2 ->
  Utils.atan2 (sqrt (sin t * sin t)) (sqrt (1 - sin t * sin t)) = Rabs t.
Proof.
  intros Ht.
  assert (Hcos : 0 < cos t) by (apply cos_gt_0; lra).
  assert (Ha : sqrt (sin t * sin t) = sin (Rabs t)).
  { fold (Rsqr (sin t)). rewrite sqrt_Rsqr_abs. apply abs_sin_small. exact Ht. }
  assert (Hb : sqrt (1 - sin t * sin t) = cos (Rabs t)).
  { fold (Rsqr (sin t)). rewrite <- cos2, cos_abs.
    apply sqrt_Rsqr. lra. }
  rewrite Ha, Hb. unfold Utils.atan2.
  rewrite cos_abs.
  destruct (Rlt_dec 0 (cos t)) as [_ | N]; [|contradiction].
  rewrite <- cos_abs. fold (tan (Rabs t)). apply atan_tan.
  unfold Rabs. destruct (Rcase_abs t); lra.
Qed.

(** Two points on the same meridian: the distance is the arc between the
    latitudes. *)
Lemma calculateDistance_meridian lat1 lat2 lon :
  -180 < lat2 - lat1 < 180 ->
  Utils.calculateDistance lat1 lon lat2 lon =
  6371000 * (Rabs (lat2 - lat1) * PI / 180).
Proof.
  intros Hlat. pose proof PI_RGT_0 as Hpi.
  unfold Utils.calculateDistance. cbv zeta.
  replace ((lon - lon) * PI / 180 / 2) with 0 by lra.
  rewrite sin_0.
  replace (sin ((lat2 - lat1) * PI / 180 / 2) *
           sin ((lat2 - lat1) * PI / 180 / 2) +
           cos (lat1 * PI / 180) * cos (lat2 * PI / 180) * 0 * 0)
    with (sin ((lat2 - lat1) * PI / 180 / 2) *
          sin ((lat2 - lat1) * PI / 180 / 2)) by lra.
  rewrite atan2_half_angle.
  - replace ((lat2 - lat1) * PI / 180 / 2)
      with ((lat2 - lat1) * (PI / 360)) by lra.
    rewrite Rabs_mult, (Rabs_right (PI / 360)) by lra. lra.
  - assert (Hlo : -180 * PI < (lat2 - lat1) * PI)
      by (apply Rmult_lt_compat_r; lra).
    assert (Hhi : (lat2 - lat1) * PI < 180 * PI)
      by (apply Rmult_lt_compat_r; lra).
    lra.
Qed.

(** [atan2] on the two square roots is the arc sine of the first. *)
Lemma atan2_asin a :
  0 <= a <= 1 -> Utils.atan2 (sqrt a) (sqrt (1 - a)) = asin (sqrt a).
Proof.
  intros [H0 H1]. unfold Utils.atan2.
  destruct (Req_dec a 1) as [-> | Hne].
  - replace (1 - 1) with 0 by lra. rewrite sqrt_0, sqrt_1, asin_1.
    destruct (Rlt_dec 0 0) as [H | _]; [lra|].
    destruct (Rlt_dec 0 1) as [_ | H]; [reflexivity | lra].
  - assert (Hx : 0 < sqrt (1 - a)) by (apply sqrt_lt_R0; lra).
    destruct (Rlt_dec 0 (sqrt (1 - a))) as [_ | N]; [|contradiction].
    rewrite asin_atan.
    + rewrite Rsqr_sqrt by exact H0. reflexivity.
    + split.
      * pose proof (sqrt_pos a). lra.
      * rewrite <- sqrt_1. apply sqrt_lt_1; lra.
Qed.

Lemma asin_half_angle a :
  0 <= a <= 1 -> 2 * asin (sqrt a) = acos (1 - 2 * a).
Proof.
  intros [H0 H1]. pose proof PI_RGT_0 as Hpi.
  assert (Hs : -1 <= sqrt a <= 1).
  { split; [pose proof (sqrt_pos a); lra|].
    rewrite <- sqrt_1. apply sqrt_le_1; lra. }
  pose proof (asin_bound (sqrt a)) as [Hlo Hhi].
  pose proof (sin_asin _ Hs) as Hsin.
  assert (Hpos : 0 <= asin (sqrt a)).
  { destruct (Rle_dec 0 (asin (sqrt a))) as [H | N]; [exact H|].
    exfalso. assert (H : sin (asin (sqrt a)) < 0)
      by (apply sin_lt_0_var; lra).
    rewrite Hsin in H. pose proof (sqrt_pos a). lra. }
  rewrite <- (acos_cos (2 * asin (sqrt a))) by lra.
  f_equal. rewrite cos_2a_sin, Hsin.
  rewrite Rmult_assoc. fold (Rsqr (sqrt a)). rewrite Rsqr_sqrt by exact H0.
  reflexivity.
Qed.

Lemma hav_cos t : Sphere.hav t = (1 - cos t) / 2.
Proof.
  unfold Sphere.hav, Rsqr.
  replace t with (2 * (t / 2)) at 3 by lra. rewrite cos_2a_sin. lra.
Qed.

(** The positions are on the unit sphere. *)
Lemma position_unit lat lon :
  Sphere.dot (Sphere.position lat lon) (Sphere.position lat lon) = 1.
Proof.
  unfold Sphere.dot, Sphere.position.
  pose proof (sin2_cos2 (Sphere.radians lat)) as H1.
  pose proof (sin2_cos2 (Sphere.radians lon)) as H2.
  unfold Rsqr in *. nra.
Qed.

Lemma dot_bound u v :
  Sphere.dot u u = 1 -> Sphere.dot v v = 1 -> -1 <= Sphere.dot u v <= 1.
Proof.
  destruct u as [[x1 y1] z1], v as [[x2 y2] z2]. unfold Sphere.dot.
  intros Hu Hv.
  pose proof (Rle_0_sqr (x1 - x2)). pose proof (Rle_0_sqr (y1 - y2)).
  pose proof (Rle_0_sqr (z1 - z2)). pose proof (Rle_0_sqr (x1 + x2)).
  pose proof (Rle_0_sqr (y1 + y2)). pose proof (Rle_0_sqr (z1 + z2)).
  unfold Rsqr in *. lra.
Qed.

(** The quantity under the square root of the haversine formula is half of
    one minus the cosine of the angle between the two positions. *)
Lemma haversine_dot lat1 lon1 lat2 lon2 :
  Sphere.hav (Sphere.radians lat2 - Sphere.radians lat1) +
  cos (Sphere.radians lat1) * cos (Sphere.radians lat2) *
  Sphere.hav (Sphere.radians lon2 - Sphere.radians lon1)
  = (1 - Sphere.dot (Sphere.position lat1 lon1) (Sphere.position lat2 lon2))
    / 2.
Proof.
  rewrite !hav_cos, !cos_minus. unfold Sphere.dot, Sphere.position. lra.
Qed.

(** The haversine formula gives the great-circle distance, for all
    latitudes and longitudes. *)
Lemma haversine_is_great_circle lat1 lon1 lat2 lon2 :
  Sphere.haversine_distance lat1 lon1 lat2 lon2 =
  Sphere.great_circle_distance lat1 lon1 lat2 lon2.
Proof.
  unfold Sphere.haversine_distance, Sphere.great_circle_distance. cbv zeta.
  rewrite haversine_dot.
  pose proof (dot_bound _ _ (position_unit lat1 lon1)
                (position_unit lat2 lon2)) as Hd.
  rewrite Rmult_assoc, (Rmult_comm 2), Rmult_assoc.
  rewrite (Rmult_comm _ 2), asin_half_angle by lra.
  f_equal. f_equal. lra.
Qed.

(** [calculateDistance] computes the haversine formula, for all latitudes
    and longitudes. *)
Lemma calculateDistance_is_haversine lat1 lon1 lat2 lon2 :
  Utils.calculateDistance lat1 lon1 lat2 lon2 =
  Sphere.haversine_distance lat1 lon1 lat2 lon2.
Proof.
  unfold Utils.calculateDistance, Sphere.haversine_distance. cbv zeta.
  pose proof (haversine_dot lat1 lon1 lat2 lon2) as Hh.
  pose proof (dot_bound _ _ (position_unit lat1 lon1)
                (position_unit lat2 lon2)) as Hd.
  set (h := Sphere.hav (Sphere.radians lat2 - Sphere.radians lat1) +
            cos (Sphere.radians lat1) * cos (Sphere.radians lat2) *
            Sphere.hav (Sphere.radians lon2 - Sphere.radians lon1)) in *.
  replace (sin ((lat2 - lat1) * PI / 180 / 2) *
           sin ((lat2 - lat1) * PI / 180 / 2) +
           cos (lat1 * PI / 180) * cos (lat2 * PI / 180) *
           sin ((lon2 - lon1) * PI / 180 / 2) *
           sin ((lon2 - lon1) * PI / 180 / 2)) with h.
  - rewrite atan2_asin by lra. lra.
  - unfold h, Sphere.hav, Sphere.radians, Rsqr.
    replace ((lat2 * PI / 180 - lat1 * PI / 180) / 2)
      with ((lat2 - lat1) * PI / 180 / 2) by lra.
    replace ((lon2 * PI / 180 - lon1 * PI / 180) / 2)
      with ((lon2 - lon1) * PI / 180 / 2) by lra.
    lra.
Qed.

End Haversine.

(** ** LocationManager.isInSafeZone *)

Lemma first_containing_exists latitude longitude zones :
  LocationManager.first_containing latitude longitude zones = true <->
  exists zone,
    In zone zones /\ LocationManager.contains latitude longitude zone = true.
Proof.
  induction zones as [|z rest IH]; simpl.
  - split; [discriminate | intros (? & [] & _)].
  - destruct (LocationManager.contains latitude longitude z) eqn:E.
    + split; [intros _; exists z; auto | reflexivity].
    + rewrite IH. split.
      * intros (zone & Hin & Hc). exists zone. auto.
      * intros (zone & [<- | Hin] & Hc); [congruence|]. exists zone. auto.
Qed.

(** The loop stops at the first zone that contains the point: the zones
    after it play no part. *)
Lemma first_containing_stops latitude longitude before zone after :
  LocationManager.contains latitude longitude zone = true ->
  LocationManager.first_containing latitude longitude
    (before ++ zone :: after) = true.
Proof.
  intros Hc. induction before as [|z rest IH]; simpl.
  - rewrite Hc. reflexivity.
  - destruct (LocationManager.contains latitude longitude z);
      [reflexivity | exact IH].
Qed.

(** What [contains] compares, once the coordinates and the radius are
    numbers that the arithmetic does not have to parse. *)
Lemma contains_haversine latitude longitude zone :
  LocationManager.contains latitude longitude zone = true <->
  exists lat lon zlat zlon r,
    ToReal latitude = Some lat /\ ToReal longitude = Some lon /\
    ToReal (field zone "latitude") = Some zlat /\
    ToReal (field zone "longitude") = Some zlon /\
    ToReal (field zone "radius") = Some r /\
    (Sphere.haversine_distance lat lon zlat zlon <= r)%R.
Proof.
  unfold LocationManager.contains. rewrite le_real_iff.
  unfold Utils.distance. split.
  - intros (d & r & Hd & Hr & Hle).
    destruct (ToReal latitude) as [lat|]; [|discriminate].
    destruct (ToReal longitude) as [lon|]; [|discriminate].
    destruct (ToReal (field zone "latitude")) as [zlat|]; [|discriminate].
    destruct (ToReal (field zone "longitude")) as [zlon|]; [|discriminate].
    injection Hd as <-. rewrite calculateDistance_is_haversine in Hle.
    exists lat, lon, zlat, zlon, r. auto 10.
  - intros (lat & lon & zlat & zlon & r & -> & -> & -> & -> & Hr & Hle).
    exists (Utils.calculateDistance lat lon zlat zlon), r.
    rewrite calculateDistance_is_haversine. auto.
Qed.

(** C6.  For a logged-in user (with an id), a point and safe zones whose
    coordinates and radius the arithmetic does not have to parse (they are
    numbers; no number is written as a string): [isInSafeZone] returns
    [true] if and only if one of the safe zones stored with the [user_id]
    of the user is active and its haversine distance to the point, in
    meters, is at most its [radius].  The haversine distance is that of the
    formula, [Sphere.haversine_distance], which is the great-circle
    distance on the sphere of radius 6,371,000 m, and it is what
    [calculateDistance] returns.  The loop answers at the first zone that
    contains the point, whatever zones come after it. *)
Theorem isInSafeZone_iff_in_an_active_zone s user st latitude longitude :
  currentUser s = Some user ->
  valid_key (field user "id") = true ->
  db s !! "safe_zones" = Some st ->
  unparsed latitude = false -> unparsed longitude = false ->
  (forall zone,
     In zone (store_getAll st) ->
     key_eqb (field zone "user_id") (field user "id") = true ->
     unparsed (field zone "latitude") = false /\
     unparsed (field zone "longitude") = false /\
     unparsed (field zone "radius") = false) ->
  (LocationManager.isInSafeZone s latitude longitude = true <->
   exists zone,
     In zone (store_getAll st) /\
     key_eqb (field zone "user_id") (field user "id") = true /\
     truthy (field zone "is_active") = true /\
     exists lat lon zlat zlon r,
       ToReal latitude = Some lat /\ ToReal longitude = Some lon /\
       ToReal (field zone "latitude") = Some zlat /\
       ToReal (field zone "longitude") = Some zlon /\
       ToReal (field zone "radius") = Some r /\
       (Sphere.haversine_distance lat lon zlat zlon <= r)%R) /\
  (forall lat1 lon1 lat2 lon2,
     Sphere.haversine_distance lat1 lon1 lat2 lon2 =
     Sphere.great_circle_distance lat1 lon1 lat2 lon2 /\
     Utils.calculateDistance lat1 lon1 lat2 lon2 =
     Sphere.haversine_distance lat1 lon1 lat2 lon2) /\
  (forall before zone after,
     LocationManager.contains latitude longitude zone = true ->
     LocationManager.first_containing latitude longitude
       (before ++ zone :: after) = true).
Proof.
  intros Huser Hid Hst _ _ _.
  split; [|split; [|apply first_containing_stops]].
  2: { intros lat1 lon1 lat2 lon2.
       split; [apply haversine_is_great_circle
              | apply calculateDistance_is_haversine]. }
  unfold LocationManager.isInSafeZone.
  rewrite Huser, (getByIndex_key _ _ _ st) by (exact Hst || reflexivity || exact Hid).
  rewrite first_containing_exists. split.
  - intros (zone & Hin & Hc).
    apply filter_In in Hin. destruct Hin as [Hin Hactive].
    apply filter_In in Hin. destruct Hin as [Hin Hmine].
    exists zone. repeat (split; [assumption|]).
    apply contains_haversine. exact Hc.
  - intros (zone & Hin & Hmine & Hactive & Hd).
    exists zone. split.
    + apply filter_In. split; [|exact Hactive].
      apply filter_In. split; assumption.
    + apply contains_haversine. exact Hd.
Qed.

(** The zone at (10, 10): the point (10.0003, 10) is about 33 m away, the
    point (10.01, 10) about 1.1 km. *)
Lemma distance_near :
  (Utils.calculateDistance (Q2R (100003 # 10000)) (Q2R 10) (Q2R 10) (Q2R 10)
   <= Q2R 50)%R.
Proof.
  pose proof PI_4 as Hpi. pose proof PI_RGT_0 as Hpos.
  rewrite calculateDistance_meridian by (unfold Q2R; simpl; lra).
  rewrite Rabs_left by (unfold Q2R; simpl; lra).
  unfold Q2R. simpl. lra.
Qed.

Lemma distance_far :
  (Q2R 50 <
   Utils.calculateDistance (Q2R (1001 # 100)) (Q2R 10) (Q2R 10) (Q2R 10))%R.
Proof.
  pose proof PI2_1 as Hpi.
  rewrite calculateDistance_meridian by (unfold Q2R; simpl; lra).
  rewrite Rabs_left by (unfold Q2R; simpl; lra).
  unfold Q2R. simpl. lra.
Qed.

Lemma hd_in {A : Type} (d : A) l : List.length l = 1%nat -> l = [hd d l].
Proof. destruct l as [|x [|y t]]; simpl; try discriminate. reflexivity. Qed.

(** One zone at (10, 10) with the radius 50 m: (10.0003, 10) is inside,
    (10.01, 10) is outside. *)
Lemma isInSafeZone_iff_in_an_active_zone_witness :
  let s := Scenario.zoned in
  let user := set_field "id" (VNum 1) Scenario.asha in
  let st := Scenario.the_store (db s) "safe_zones" in
  (currentUser s = Some user /\ valid_key (field user "id") = true /\
   db s !! "safe_zones" = Some st /\
   List.map (fun z => (field z "latitude", field z "longitude",
                       field z "radius", field z "is_active"))
            (store_getAll st)
   = [ (VNum 10, VNum 10, VNum 50, VBool true) ]) /\
  LocationManager.isInSafeZone s (VNum (100003 # 10000)) (VNum 10) = true /\
  LocationManager.isInSafeZone s (VNum (1001 # 100)) (VNum 10) = false.
Proof.
  intros s user st.
  assert (Huser : currentUser s = Some user) by reflexivity.
  assert (Hid : valid_key (field user "id") = true)
    by (vm_compute; reflexivity).
  assert (Hst : db s !! "safe_zones" = Some st)
    by (apply has_store_the_store; vm_compute; reflexivity).
  assert (Hzones : List.map (fun z => (field z "latitude", field z "longitude",
                                       field z "radius", field z "is_active"))
                            (store_getAll st)
                   = [ (VNum 10, VNum 10, VNum 50, VBool true) ])
    by (vm_compute; reflexivity).
  split; [auto|].
  assert (Hone : store_getAll st = [hd ∅ (store_getAll st)])
    by (apply hd_in; vm_compute; reflexivity).
  set (zone := hd ∅ (store_getAll st)) in *.
  assert (Hmine : key_eqb (field zone "user_id") (field user "id") = true)
    by (vm_compute; reflexivity).
  assert (Hactive : truthy (field zone "is_active") = true)
    by (vm_compute; reflexivity).
  assert (Hlat : field zone "latitude" = VNum 10) by (vm_compute; reflexivity).
  assert (Hlon : field zone "longitude" = VNum 10) by (vm_compute; reflexivity).
  assert (Hrad : field zone "radius" = VNum 50) by (vm_compute; reflexivity).
  assert (Hnum : forall z,
            In z (store_getAll st) ->
            key_eqb (field z "user_id") (field user "id") = true ->
            unparsed (field z "latitude") = false /\
            unparsed (field z "longitude") = false /\
            unparsed (field z "radius") = false).
  { intros z Hin _. rewrite Hone in Hin. destruct Hin as [<- | []].
    rewrite Hlat, Hlon, Hrad. auto. }
  split.
  - apply (proj1 (isInSafeZone_iff_in_an_active_zone
                    s user st (VNum (100003 # 10000)) (VNum 10)
                    Huser Hid Hst eq_refl eq_refl Hnum)).
    exists zone. split; [rewrite Hone; left; reflexivity|].
    split; [exact Hmine|]. split; [exact Hactive|].
    rewrite Hlat, Hlon, Hrad. do 5 eexists.
    do 5 (split; [reflexivity|]).
    rewrite <- calculateDistance_is_haversine. exact distance_near.
  - destruct (LocationManager.isInSafeZone s (VNum (1001 # 100)) (VNum 10))
      eqn:E; [|reflexivity].
    apply (proj1 (isInSafeZone_iff_in_an_active_zone
                    s user st (VNum (1001 # 100)) (VNum 10)
                    Huser Hid Hst eq_refl eq_refl Hnum)) in E.
    destruct E as (z & Hin & _ & _ & lat & lon & zlat & zlon & r &
                   Ha & Hb & Hc & Hd & Hr & Hle).
    rewrite Hone in Hin. destruct Hin as [<- | []].
    rewrite Hlat in Hc. rewrite Hlon in Hd. rewrite Hrad in Hr.
    injection Ha as <-. injection Hb as <-. injection Hc as <-.
    injection Hd as <-. injection Hr as <-.
    rewrite <- calculateDistance_is_haversine in Hle.
    exfalso. exact (Rlt_not_le _ _ distance_far Hle).
Defined.

(** * Further properties of the engine and of the managers *)

(** ** DatabaseManager: reads after writes *)

Lemma find_delete_ne j k rs :
  key_eqb j k = false -> find_row j (delete_row k rs) = find_row j rs.
Proof.
  intros N. unfold delete_row.
  induction rs as [|[k' o'] rest IH]; simpl; [reflexivity|].
  destruct (key_eqb k k') eqn:E; simpl.
  - rewrite IH. destruct (key_eqb j k') eqn:Ej; [|reflexivity].
    rewrite key_eqb_sym in E.
    rewrite (key_eqb_trans _ _ _ Ej E) in N. discriminate.
  - rewrite IH. reflexivity.
Qed.

Lemma length_put_row_new k o rs :
  find_row k rs = None -> List.length (put_row k o rs) = S (List.length rs).
Proof.
  induction rs as [|[k' o'] rest IH]; simpl; [reflexivity|].
  destruct (key_eqb k k') eqn:E; [discriminate|].
  intros Hn. destruct (key_ltb k k'); simpl; [reflexivity|].
  rewrite (IH Hn). reflexivity.
Qed.

(** What a successful [add] or [update] leaves in the database. *)
Lemma get_after_store noOverwrite db storeName st data id st' :
  db !! storeName = Some st ->
  store noOverwrite (indexes_of storeName) st data = Ok (id, st') ->
  (exists o,
      get (<[storeName := st']> db) storeName id = Ok (Some o) /\
      field o "id" = id /\
      (forall f, f <> "id" -> o !! f = data !! f) /\
      (field data "id" <> VUndef -> o = data)) /\
  (forall k, key_eqb k id = false ->
             get (<[storeName := st']> db) storeName k = get db storeName k) /\
  (forall other, other <> storeName ->
                 (<[storeName := st']> db) !! other = db !! other).
Proof.
  intros Hst Hs.
  destruct (store_inv _ _ _ _ _ _ Hs)
    as (Hv & o & Hrows & Hid & Ho & _ & _ & _ & Hexp).
  split; [|split].
  - exists o. rewrite get_insert_eq. unfold store_get.
    rewrite Hv, Hrows, find_put_eq by exact Hv.
    split; [reflexivity|]. split; [exact Hid|]. split; [exact Ho|].
    intros N. exact (proj1 (Hexp N)).
  - intros k Hk. rewrite get_insert_eq. unfold get, objectStore, store_get.
    rewrite Hst, Hrows, find_put_ne by exact Hk. reflexivity.
  - intros other N. apply lookup_insert_ne. congruence.
Qed.

(** X1.  [update] creates or replaces: for a record that carries a valid
    key at [id] and clashes with no unique index, [update] succeeds whether
    or not a record is stored under that key, [get] then returns exactly
    the record written, and every other record of the database is as it
    was. *)
Theorem update_creates_or_replaces db storeName st (data : obj) :
  db !! storeName = Some st ->
  valid_key (field data "id") = true ->
  clash (indexes_of storeName) (field data "id") data (rows st) = false ->
  exists db',
    update db storeName data = (Ok (field data "id"), db') /\
    get db' storeName (field data "id") = Ok (Some data) /\
    (forall k, key_eqb k (field data "id") = false ->
               get db' storeName k = get db storeName k) /\
    (forall other, other <> storeName -> db' !! other = db !! other).
Proof.
  intros Hst Hv Hc.
  assert (Hs : store false (indexes_of storeName) st data =
               Ok (field data "id",
                   {| keygen := bump (keygen st) (field data "id");
                      rows := put_row (field data "id") data (rows st) |})).
  { unfold store. destruct (field data "id") eqn:E; try discriminate;
      simpl; rewrite Hc; reflexivity. }
  eexists. split.
  - unfold update, objectStore. rewrite Hst, Hs. reflexivity.
  - destruct (get_after_store _ _ _ _ _ _ _ Hst Hs)
      as ((o & Hget & _ & _ & Hsame) & Hkeys & Hstores).
    split; [|split; [exact Hkeys | exact Hstores]].
    rewrite Hget, Hsame; [reflexivity|].
    intros E. rewrite E in Hv. discriminate.
Qed.

(** X2.  [add] never overwrites: when it succeeds, no record was stored
    under the key it returns, the record is found under that key with the
    properties of the input (but [id] and, when it was falsy,
    [created_at]), and every other record of the database is as it was;
    when it fails, the database is unchanged. *)
Theorem add_never_overwrites db storeName (data : obj) now r db' :
  add db storeName data now = (r, db') ->
  match r with
  | Ok id =>
      get db storeName id = Ok None /\
      (exists o, get db' storeName id = Ok (Some o) /\
                 forall f, f <> "id" -> f <> "created_at" ->
                           o !! f = data !! f) /\
      (forall k, key_eqb k id = false ->
                 get db' storeName k = get db storeName k) /\
      (forall other, other <> storeName -> db' !! other = db !! other)
  | Err _ => db' = db
  end.
Proof.
  intros H. destruct r as [id|e]; [|exact (add_failed _ _ _ _ _ _ H)].
  destruct (add_inv _ _ _ _ _ _ H) as (st & st' & Hst & Hs & ->).
  destruct (store_inv _ _ _ _ _ _ Hs) as (Hv & _ & _ & _ & _ & _ & Hnew & _).
  destruct (get_after_store _ _ _ _ _ _ _ Hst Hs)
    as ((o & Hget & _ & Ho & _) & Hkeys & Hstores).
  split; [|split; [|split; [exact Hkeys | exact Hstores]]].
  - unfold get, objectStore, store_get. rewrite Hst, Hv, (Hnew eq_refl).
    reflexivity.
  - exists o. split; [exact Hget|]. intros f N1 N2.
    rewrite (Ho f N1). apply stamp_other. exact N2.
Qed.

(** X3.  [delete] removes the record stored under the key and nothing
    else: every record under another key, and every other store, is as it
    was. *)
Theorem delete_only_that_key db storeName id db' :
  delete db storeName id = (Ok true, db') ->
  get db' storeName id = Ok None /\
  (forall k, key_eqb k id = false ->
             get db' storeName k = get db storeName k) /\
  (forall other, other <> storeName -> db' !! other = db !! other).
Proof.
  unfold delete, objectStore, store_delete. intros H.
  destruct (db !! storeName) as [st|] eqn:Hst; [|discriminate].
  destruct (valid_key id) eqn:Hv; [|discriminate].
  injection H as <-. split; [|split].
  - rewrite get_insert_eq. unfold store_get. rewrite Hv. simpl.
    rewrite find_delete_eq. reflexivity.
  - intros k Hk. rewrite get_insert_eq. unfold get, objectStore, store_get.
    rewrite Hst. simpl. rewrite find_delete_ne by exact Hk. reflexivity.
  - intros other N. apply lookup_insert_ne. congruence.
Qed.

Lemma update_creates_or_replaces_witness :
  let st := Scenario.the_store Cases.zones_db "safe_zones" in
  (Cases.zones_db !! "safe_zones" = Some st /\
   get Cases.zones_db "safe_zones" (VNum 7) = Ok None) /\
  exists db',
    update Cases.zones_db "safe_zones" Cases.office =
    (Ok (field Cases.office "id"), db') /\
    get db' "safe_zones" (field Cases.office "id") = Ok (Some Cases.office) /\
    (forall k, key_eqb k (field Cases.office "id") = false ->
               get db' "safe_zones" k = get Cases.zones_db "safe_zones" k) /\
    (forall other, other <> "safe_zones" ->
                   db' !! other = Cases.zones_db !! other).
Proof.
  intros st.
  assert (Hst : Cases.zones_db !! "safe_zones" = Some st)
    by (apply has_store_the_store; vm_compute; reflexivity).
  split; [split; [exact Hst | vm_compute; reflexivity]|].
  apply (update_creates_or_replaces Cases.zones_db "safe_zones" st
           Cases.office Hst); vm_compute; reflexivity.
Defined.

Lemma add_never_overwrites_witness :
  let out := add Cases.zones_db "safe_zones" Scenario.home "t" in
  fst out = Ok (VNum 2) /\
  get Cases.zones_db "safe_zones" (VNum 2) = Ok None /\
  (exists o, get (snd out) "safe_zones" (VNum 2) = Ok (Some o) /\
             forall f, f <> "id" -> f <> "created_at" ->
                       o !! f = Scenario.home !! f) /\
  (forall k, key_eqb k (VNum 2) = false ->
             get (snd out) "safe_zones" k = get Cases.zones_db "safe_zones" k) /\
  (forall other, other <> "safe_zones" ->
                 snd out !! other = Cases.zones_db !! other).
Proof.
  intros out.
  assert (H : fst out = Ok (VNum 2)) by (vm_compute; reflexivity).
  split; [exact H|].
  exact (add_never_overwrites Cases.zones_db "safe_zones" Scenario.home "t"
           (Ok (VNum 2)) (snd out) (pair_fst_snd out _ H)).
Defined.

Lemma delete_only_that_key_witness :
  let out := delete Cases.zones_db "safe_zones" (VNum 1) in
  (fst out = Ok true /\
   Scenario.found (get Cases.zones_db "safe_zones" (VNum 1)) = true) /\
  get (snd out) "safe_zones" (VNum 1) = Ok None /\
  (forall k, key_eqb k (VNum 1) = false ->
             get (snd out) "safe_zones" k = get Cases.zones_db "safe_zones" k) /\
  (forall other, other <> "safe_zones" ->
                 snd out !! other = Cases.zones_db !! other).
Proof.
  intros out.
  assert (H : fst out = Ok true) by (vm_compute; reflexivity).
  split; [split; [exact H | vm_compute; reflexivity]|].
  exact (delete_only_that_key Cases.zones_db "safe_zones" (VNum 1) (snd out)
           (pair_fst_snd out _ H)).
Defined.

(** ** DatabaseManager: keys, counts and well-formed stores *)

(** X4.  Generated keys are never reused: when [add] has given a key to a
    record without [id], and that record is deleted or the store cleared,
    the key that the next [add] gives to a record without [id] is strictly
    larger (and the old key finds nothing). *)
Theorem generated_keys_are_never_reused
        db storeName (r1 r2 : obj) t1 t2 id1 db1 db2 id2 db3 :
  field r1 "id" = VUndef ->
  field r2 "id" = VUndef ->
  add db storeName r1 t1 = (Ok id1, db1) ->
  delete db1 storeName id1 = (Ok true, db2) \/
  clear db1 storeName = (Ok true, db2) ->
  add db2 storeName r2 t2 = (Ok id2, db3) ->
  key_ltb id1 id2 = true /\ get db2 storeName id1 = Ok None.
Proof.
  intros Hr1 Hr2 H1 Hdel H2.
  destruct (add_inv _ _ _ _ _ _ H1) as (st & st1 & Hst & Hs1 & ->).
  destruct (store_inv _ _ _ _ _ _ Hs1)
    as (Hv1 & _ & _ & _ & _ & _ & _ & Hgen1 & _).
  destruct Hgen1 as (-> & Hk1 & _);
    [rewrite field_stamp_other by congruence; exact Hr1|].
  destruct (add_inv _ _ _ _ _ _ H2) as (st2 & st3 & Hst2 & Hs2 & ->).
  destruct (store_inv _ _ _ _ _ _ Hs2)
    as (_ & _ & _ & _ & _ & _ & _ & Hgen2 & _).
  destruct Hgen2 as (-> & _ & _);
    [rewrite field_stamp_other by congruence; exact Hr2|].
  assert (Hgen : keygen st2 = keygen st + 1 /\
                 find_row (VNum (inject_Z (keygen st))) (rows st2) = None).
  { destruct Hdel as [Hd | Hc].
    - unfold delete, objectStore, store_delete in Hd.
      rewrite lookup_insert_eq in Hd. simpl in Hd.
      injection Hd as <-. rewrite lookup_insert_eq in Hst2.
      injection Hst2 as <-. simpl. split; [exact Hk1|].
      apply find_delete_eq.
    - unfold clear, objectStore in Hc. rewrite lookup_insert_eq in Hc.
      injection Hc as <-. rewrite lookup_insert_eq in Hst2.
      injection Hst2 as <-. simpl. split; [exact Hk1 | reflexivity]. }
  destruct Hgen as [Hg Hnone]. split.
  - simpl. rewrite Hg, succ_below. reflexivity.
  - unfold get, objectStore, store_get. rewrite Hst2. simpl.
    rewrite Hnone. reflexivity.
Qed.

Lemma generated_keys_are_never_reused_witness :
  let r := object [("name", VStr "Home")] in
  let out1 := add init "safe_zones" r "t1" in
  let out2 := delete (snd out1) "safe_zones" (VNum 1) in
  let out3 := add (snd out2) "safe_zones" r "t2" in
  (fst out1 = Ok (VNum 1) /\ fst out2 = Ok true /\ fst out3 = Ok (VNum 2)) /\
  key_ltb (VNum 1) (VNum 2) = true /\
  get (snd out2) "safe_zones" (VNum 1) = Ok None.
Proof.
  intros r out1 out2 out3.
  assert (H1 : fst out1 = Ok (VNum 1)) by (vm_compute; reflexivity).
  assert (H2 : fst out2 = Ok true) by (vm_compute; reflexivity).
  assert (H3 : fst out3 = Ok (VNum 2)) by (vm_compute; reflexivity).
  split; [auto|].
  apply (generated_keys_are_never_reused
           init "safe_zones" r r "t1" "t2" (VNum 1) (snd out1) (snd out2)
           (VNum 2) (snd out3)).
  - vm_compute. reflexivity.
  - vm_compute. reflexivity.
  - exact (pair_fst_snd out1 _ H1).
  - left. exact (pair_fst_snd out2 _ H2).
  - exact (pair_fst_snd out3 _ H3).
Defined.

(** X5.  [count] follows the writes: a successful [add] raises the count of
    its store by one, and after [clear] the count is 0 and [getAll]
    returns no record. *)
Theorem count_after_add_and_clear db storeName (data : obj) now id db1 db2 :
  add db storeName data now = (Ok id, db1) ->
  clear db1 storeName = (Ok true, db2) ->
  exists n,
    count db storeName = Ok n /\
    count db1 storeName = Ok (n + 1) /\
    count db2 storeName = Ok 0 /\
    getAll db2 storeName = Ok [].
Proof.
  intros H1 Hc.
  destruct (add_inv _ _ _ _ _ _ H1) as (st & st1 & Hst & Hs1 & ->).
  destruct (store_inv _ _ _ _ _ _ Hs1)
    as (_ & o & Hrows & _ & _ & _ & Hnew & _).
  exists (Z.of_nat (List.length (rows st))).
  unfold clear, objectStore in Hc. rewrite lookup_insert_eq in Hc.
  injection Hc as <-.
  unfold count, getAll, objectStore.
  rewrite Hst, !lookup_insert_eq, Hrows.
  rewrite length_put_row_new by exact (Hnew eq_refl).
  repeat split. f_equal. lia.
Qed.

Lemma count_after_add_and_clear_witness :
  let out1 := add Cases.zones_db "safe_zones" Scenario.home "t" in
  let out2 := clear (snd out1) "safe_zones" in
  (fst out1 = Ok (VNum 2) /\ fst out2 = Ok true) /\
  exists n,
    count Cases.zones_db "safe_zones" = Ok n /\
    count (snd out1) "safe_zones" = Ok (n + 1) /\
    count (snd out2) "safe_zones" = Ok 0 /\
    getAll (snd out2) "safe_zones" = Ok [].
Proof.
  intros out1 out2.
  assert (H1 : fst out1 = Ok (VNum 2)) by (vm_compute; reflexivity).
  assert (H2 : fst out2 = Ok true) by (vm_compute; reflexivity).
  split; [auto|].
  exact (count_after_add_and_clear _ _ _ _ _ _ _
           (pair_fst_snd out1 _ H1) (pair_fst_snd out2 _ H2)).
Defined.

Lemma db_ok_delete db storeName id r db' :
  db_ok db = true -> delete db storeName id = (r, db') -> db_ok db' = true.
Proof.
  unfold delete, objectStore. intros Hok H.
  destruct (db !! storeName) as [st|] eqn:Hst; [|congruence].
  destruct (store_delete st id) as [st'|e] eqn:Hd; [|congruence].
  injection H as _ <-. apply db_ok_insert; [exact Hok|]. intros Hin.
  destruct (db_ok_lookup db storeName Hok Hin) as (st0 & H0 & Hok0).
  apply (store_ok_delete st id); congruence.
Qed.

Lemma db_ok_clear db storeName r db' :
  db_ok db = true -> clear db storeName = (r, db') -> db_ok db' = true.
Proof.
  unfold clear, objectStore. intros Hok H.
  destruct (db !! storeName) as [st|] eqn:Hst; [|congruence].
  injection H as _ <-. apply db_ok_insert; [exact Hok|]. reflexivity.
Qed.

(** X6.  The stores stay well formed: [init] creates well-formed stores
    and [add], [update], [delete] and [clear] keep them so, whether they
    succeed or fail; in a well-formed database the record that [get]
    finds under a key carries that key at [id]. *)
Theorem stored_records_carry_their_key db :
  db_ok db = true ->
  (forall storeName data now r db',
      add db storeName data now = (r, db') -> db_ok db' = true) /\
  (forall storeName data r db',
      update db storeName data = (r, db') -> db_ok db' = true) /\
  (forall storeName id r db',
      delete db storeName id = (r, db') -> db_ok db' = true) /\
  (forall storeName r db',
      clear db storeName = (r, db') -> db_ok db' = true) /\
  (forall storeName k record,
      lookup_schema storeName schema <> None ->
      get db storeName k = Ok (Some record) ->
      key_eqb k (field record "id") = true).
Proof.
  intros Hok. repeat split.
  - intros. eapply db_ok_add; eassumption.
  - intros. eapply db_ok_update; eassumption.
  - intros. eapply db_ok_delete; eassumption.
  - intros. eapply db_ok_clear; eassumption.
  - intros storeName k record Hin Hget.
    destruct (get_inv _ _ _ _ Hget) as (st & Hst & _ & Hfind).
    destruct (db_ok_lookup db storeName Hok Hin) as (st0 & H0 & Hok0).
    assert (st0 = st) by congruence. subst st0.
    exact (proj2 (found_row_id st k record Hok0 Hfind)).
Qed.

Lemma stored_records_carry_their_key_witness :
  db_ok init = true /\
  db_ok (snd (add init "safe_zones" Scenario.home "t")) = true /\
  (forall k record,
      get Cases.zones_db "safe_zones" k = Ok (Some record) ->
      key_eqb k (field record "id") = true).
Proof.
  split; [exact db_ok_init|]. split.
  - exact (proj1 (stored_records_carry_their_key init db_ok_init)
             "safe_zones" Scenario.home "t" _ _ (surjective_pairing _)).
  - intros k record.
    apply (proj2 (proj2 (proj2 (proj2
             (stored_records_carry_their_key Cases.zones_db
                ltac:(vm_compute; reflexivity)))))).
    vm_compute. congruence.
Defined.

(** ** DatabaseManager.initializeDefaultData *)

(** A record without [id] always enters an empty store. *)
Lemma add_to_empty_store db storeName st (data : obj) now :
  db !! storeName = Some st -> rows st = [] ->
  field data "id" = VUndef ->
  exists st',
    add db storeName data now =
    (Ok (VNum (inject_Z (keygen st))), <[storeName := st']> db) /\
    List.length (rows st') = 1%nat.
Proof.
  intros Hst Hrows Hid. unfold add, objectStore, store.
  rewrite Hst, field_stamp_other by congruence. rewrite Hid, Hrows. simpl.
  assert (Hc : clash (indexes_of storeName) (VNum (inject_Z (keygen st)))
                 (<["id" := VNum (inject_Z (keygen st))]> (stamp now data))
                 [] = false).
  { unfold clash. induction (indexes_of storeName) as [|ix idx IH];
      [reflexivity|]. simpl. rewrite andb_false_r. exact IH. }
  rewrite Hc. eexists. split; reflexivity.
Qed.



(** ** CommunityManager.rateResponder: the range of the stored rating *)

Lemma average_in_range (r n v : Q) :
  (0 <= r)%Q -> (r <= 5)%Q -> (0 <= n)%Q -> (0 <= v)%Q -> (v <= 5)%Q ->
  (0 <= (r * n + v) / (n + 1))%Q /\ ((r * n + v) / (n + 1) <= 5)%Q.
Proof.
  intros Hr0 Hr5 Hn Hv0 Hv5.
  assert (Hpos : (0 < n + 1)%Q).
  { apply Qlt_le_trans with (0 + 1)%Q; [reflexivity|].
    apply Qplus_le_l. exact Hn. }
  assert (Hrn : (0 <= r * n)%Q) by (apply Qmult_le_0_compat; assumption).
  assert (Hrn5 : (r * n <= 5 * n)%Q) by (apply Qmult_le_compat_r; assumption).
  split.
  - apply Qle_shift_div_l; [exact Hpos|]. rewrite Qmult_0_l.
    apply Qle_trans with (0 + 0)%Q; [discriminate|].
    apply Qplus_le_compat; assumption.
  - apply Qle_shift_div_r; [exact Hpos|].
    apply Qle_trans with (5 * n + 5)%Q.
    + apply Qplus_le_compat; assumption.
    + rewrite Qmult_plus_distr_r, Qmult_1_r. apply Qle_refl.
Qed.

(** X8.  Ratings that are numbers stay in range: when a responder whose
    rating is in [0, 5] (with a response count that is not negative) is
    rated with a number [v] and the call succeeds, the rating it is stored
    with is again in [0, 5] and its response count has grown by one; no
    other store has changed.  (A rating that is no number is another
    matter: see X9.) *)
Theorem rateResponder_rating_stays_in_range
        db responderId responder (r n v : Q) responder' db' :
  get db "community_responders" responderId = Ok (Some responder) ->
  field responder "rating" = VNum r ->
  field responder "response_count" = VNum n ->
  (0 <= r)%Q -> (r <= 5)%Q -> (0 <= n)%Q ->
  CommunityManager.rateResponder db responderId (VNum v) =
  (Success responder', db') ->
  (exists r', field responder' "rating" = VNum r' /\
              (0 <= r')%Q /\ (r' <= 5)%Q) /\
  field responder' "response_count" = VNum (n + 1) /\
  (forall other, other <> "community_responders" ->
                 db' !! other = db !! other).
Proof.
  intros Hget Hr Hn Hr0 Hr5 Hn0 H.
  unfold CommunityManager.rateResponder in H. simpl in H.
  destruct (Qle_bool 0 v) eqn:Hv0; [|discriminate].
  destruct (Qle_bool v 5) eqn:Hv5; [|discriminate].
  simpl in H. rewrite Hget, Hr, Hn in H. simpl in H.
  rewrite field_insert_eq in H. simpl in H.
  apply Qle_bool_iff in Hv0, Hv5.
  destruct (average_in_range r n v Hr0 Hr5 Hn0 Hv0 Hv5) as [Hlo Hhi].
  assert (E : Qeq_bool (n + 1) 0 = false).
  { destruct (Qeq_bool _ _) eqn:E; [|reflexivity].
    apply Qeq_bool_iff in E. exfalso.
    assert (Hpos : (0 < n + 1)%Q).
    { apply Qlt_le_trans with (0 + 1)%Q; [reflexivity|].
      apply Qplus_le_l. exact Hn0. }
    rewrite E in Hpos. exact (Qlt_irrefl _ Hpos). }
  rewrite E in H. simpl in H.
  destruct (update db "community_responders" _) as [[k|e] db1] eqn:Hup;
    [|discriminate].
  injection H as <- <-.
  destruct (update_inv _ _ _ _ _ Hup) as (st & st' & _ & _ & ->).
  split; [|split].
  - eexists. split; [apply field_insert_eq|]. split; assumption.
  - rewrite field_insert_ne by congruence. apply field_insert_eq.
  - intros other N. apply lookup_insert_ne. congruence.
Qed.

Lemma rateResponder_rating_stays_in_range_witness :
  let responder :=
    Scenario.the_record
      (get Scenario.volunteers_db "community_responders" (VNum 1)) in
  let out :=
    CommunityManager.rateResponder Scenario.volunteers_db (VNum 1) (VNum 5) in
  let responder' := match fst out with Success o => o | _ => responder end in
  (exists r', field responder' "rating" = VNum r' /\
              (0 <= r')%Q /\ (r' <= 5)%Q) /\
  field responder' "response_count" = VNum (2 + 1) /\
  (forall other, other <> "community_responders" ->
                 snd out !! other = Scenario.volunteers_db !! other).
Proof.
  intros responder out responder'.
  apply (rateResponder_rating_stays_in_range
           Scenario.volunteers_db (VNum 1) responder 4 2 5).
  - apply found_the_record. vm_compute. reflexivity.
  - vm_compute. reflexivity.
  - vm_compute. reflexivity.
  - discriminate.
  - discriminate.
  - discriminate.
  - apply (success_value responder out). vm_compute. reflexivity.
Defined.

(** X9.  The range check of [rateResponder] lets through a rating that
    is [undefined] (an omitted argument) or NaN: on a well-formed
    database such a call succeeds for every stored responder whose
    response count is a number, and the rating it stores is NaN. *)
Theorem rateResponder_accepts_a_rating_that_is_no_number
        db responderId responder n rating :
  db_ok db = true ->
  get db "community_responders" responderId = Ok (Some responder) ->
  field responder "response_count" = VNum n ->
  rating = VUndef \/ rating = VNaN ->
  exists responder' db',
    CommunityManager.rateResponder db responderId rating =
    (Success responder', db') /\
    field responder' "rating" = VNaN /\
    field responder' "response_count" = VNum (n + 1) /\
    get db' "community_responders" responderId = Ok (Some responder').
Proof.
  intros Hok Hget Hn Hrating.
  assert (Hnum : ToNumber rating = None)
    by (destruct Hrating as [-> | ->]; reflexivity).
  unfold CommunityManager.rateResponder. rewrite Hnum. simpl. rewrite Hget.
  assert (Hadd : forall a, num_add a None = None) by (intros [a|]; reflexivity).
  rewrite Hadd, Hn. simpl.
  set (responder' := <["rating" := VNaN]> _).
  destruct (get_inv _ _ _ _ Hget) as (st & Hst & Hvid & Hfind).
  destruct (db_ok_lookup db "community_responders" Hok)
    as (st0 & Hst0 & Hst_ok); [vm_compute; congruence|].
  assert (st0 = st) by congruence. subst st0.
  destruct (update_after_get db "community_responders" st responderId
              responder responder' Hst Hst_ok Hvid Hfind)
    as (db' & Hup & Hget' & _).
  - unfold responder'. rewrite !field_insert_ne by congruence. reflexivity.
  - rewrite responders_indexes. unfold clash. simpl. reflexivity.
  - exists responder', db'. rewrite Hup.
    split; [reflexivity|]. split; [apply field_insert_eq|].
    split; [|exact Hget'].
    unfold responder'. rewrite field_insert_ne by congruence.
    apply field_insert_eq.
Qed.

Lemma rateResponder_accepts_a_rating_that_is_no_number_witness :
  let responder :=
    Scenario.the_record
      (get Scenario.volunteers_db "community_responders" (VNum 1)) in
  field responder "rating" = VNum 4 /\
  exists responder' db',
    CommunityManager.rateResponder Scenario.volunteers_db (VNum 1) VUndef =
    (Success responder', db') /\
    field responder' "rating" = VNaN /\
    field responder' "response_count" = VNum (2 + 1) /\
    get db' "community_responders" (VNum 1) = Ok (Some responder').
Proof.
  intros responder. split; [vm_compute; reflexivity|].
  apply (rateResponder_accepts_a_rating_that_is_no_number
           Scenario.volunteers_db (VNum 1) responder 2 VUndef).
  - vm_compute. reflexivity.
  - apply found_the_record. vm_compute. reflexivity.
  - vm_compute. reflexivity.
  - left. reflexivity.
Defined.

(** ** Utils.calculateDistance: symmetry and range *)

Section HaversineRange.

Local Open Scope R_scope.

Lemma atan2_first_quadrant y x :
  0 <= y -> 0 <= x -> 0 <= Utils.atan2 y x <= PI / 2.
Proof.
  intros Hy Hx. pose proof PI_RGT_0 as Hpi. unfold Utils.atan2.
  destruct (Rlt_dec 0 x) as [Hpos | Hnpos].
  - assert (Hq : 0 <= y / x).
    { unfold Rdiv. apply Rmult_le_pos; [exact Hy|].
      left. apply Rinv_0_lt_compat. exact Hpos. }
    pose proof (atan_bound (y / x)) as [_ Hhi].
    split; [|lra].
    destruct Hq as [Hq | <-]; [|rewrite atan_0; lra].
    rewrite <- atan_0. left. apply atan_increasing. exact Hq.
  - destruct (Rlt_dec x 0) as [Hneg | _]; [lra|].
    destruct (Rlt_dec 0 y) as [_ | _]; [lra|].
    destruct (Rlt_dec y 0) as [Hneg | _]; lra.
Qed.

(** With latitudes between -90 and 90 degrees the quantity under the
    square roots is in [0, 1]. *)
Lemma haversine_in_unit lat1 lon1 lat2 lon2 :
  -90 <= lat1 <= 90 -> -90 <= lat2 <= 90 ->
  let a := sin ((lat2 - lat1) * PI / 180 / 2) *
           sin ((lat2 - lat1) * PI / 180 / 2) +
           cos (lat1 * PI / 180) * cos (lat2 * PI / 180) *
           sin ((lon2 - lon1) * PI / 180 / 2) *
           sin ((lon2 - lon1) * PI / 180 / 2) in
  0 <= a <= 1.
Proof.
  intros H1 H2 a. pose proof PI_RGT_0 as Hpi.
  set (p1 := lat1 * PI / 180) in *. set (p2 := lat2 * PI / 180) in *.
  assert (Hp1 : - (PI / 2) <= p1 <= PI / 2).
  { unfold p1. split.
    - assert (-90 * PI <= lat1 * PI) by (apply Rmult_le_compat_r; lra). lra.
    - assert (lat1 * PI <= 90 * PI) by (apply Rmult_le_compat_r; lra). lra. }
  assert (Hp2 : - (PI / 2) <= p2 <= PI / 2).
  { unfold p2. split.
    - assert (-90 * PI <= lat2 * PI) by (apply Rmult_le_compat_r; lra). lra.
    - assert (lat2 * PI <= 90 * PI) by (apply Rmult_le_compat_r; lra). lra. }
  assert (Hc1 : 0 <= cos p1) by (apply cos_ge_0; lra).
  assert (Hc2 : 0 <= cos p2) by (apply cos_ge_0; lra).
  assert (HC : 0 <= cos p1 * cos p2) by (apply Rmult_le_pos; assumption).
  set (h := (p2 - p1) / 2).
  assert (Hh : (lat2 - lat1) * PI / 180 / 2 = h) by (unfold h, p1, p2; lra).
  set (l := sin ((lon2 - lon1) * PI / 180 / 2)) in *.
  assert (Hl : 0 <= l * l <= 1).
  { split; [apply Rle_0_sqr|]. pose proof (SIN_bound ((lon2 - lon1) * PI / 180 / 2))
      as [Hlo Hhi]. fold l in Hlo, Hhi. nra. }
  assert (Ha : a = sin h * sin h + cos p1 * cos p2 * (l * l)).
  { unfold a. rewrite Hh. ring. }
  assert (Hhalf : sin h * sin h = (1 - cos (p2 - p1)) / 2).
  { replace (p2 - p1) with (2 * h) by (unfold h; lra).
    rewrite cos_2a_sin. lra. }
  assert (Hsum : cos (p1 + p2) <= 1) by apply COS_bound.
  rewrite cos_plus in Hsum. rewrite cos_minus in Hhalf.
  rewrite Ha, Hhalf. split.
  - assert (0 <= sin h * sin h) by apply Rle_0_sqr.
    assert (0 <= cos p1 * cos p2 * (l * l))
      by (apply Rmult_le_pos; [exact HC | apply Hl]).
    lra.
  - assert (cos p1 * cos p2 * (l * l) <= cos p1 * cos p2 * 1)
      by (apply Rmult_le_compat_l; [exact HC | apply Hl]).
    lra.
Qed.

End HaversineRange.

(** X10.  For latitudes between -90 and 90 degrees, [calculateDistance]
    does not depend on the order of the two points, lies between 0 and
    half the circumference of the Earth (6371000 * pi meters), and is 0
    from a point to itself; the two square roots of the formula are taken
    of numbers in [0, 1]. *)
Theorem calculateDistance_symmetric_and_bounded (lat1 lon1 lat2 lon2 : R) :
  (-90 <= lat1 <= 90)%R -> (-90 <= lat2 <= 90)%R ->
  Utils.calculateDistance lat1 lon1 lat2 lon2 =
  Utils.calculateDistance lat2 lon2 lat1 lon1 /\
  (0 <= Utils.calculateDistance lat1 lon1 lat2 lon2 <= 6371000 * PI)%R /\
  Utils.calculateDistance lat1 lon1 lat1 lon1 = 0%R /\
  (let a := (sin ((lat2 - lat1) * PI / 180 / 2) *
             sin ((lat2 - lat1) * PI / 180 / 2) +
             cos (lat1 * PI / 180) * cos (lat2 * PI / 180) *
             sin ((lon2 - lon1) * PI / 180 / 2) *
             sin ((lon2 - lon1) * PI / 180 / 2))%R in
   (0 <= a <= 1)%R).
Proof.
  intros H1 H2. pose proof PI_RGT_0 as Hpi. split; [|split; [|split]].
  - unfold Utils.calculateDistance. cbv zeta.
    replace ((lat1 - lat2) * PI / 180 / 2)%R
      with (- ((lat2 - lat1) * PI / 180 / 2))%R by lra.
    replace ((lon1 - lon2) * PI / 180 / 2)%R
      with (- ((lon2 - lon1) * PI / 180 / 2))%R by lra.
    rewrite !sin_neg.
    do 3 f_equal; [f_equal; ring | do 2 f_equal; ring].
  - unfold Utils.calculateDistance. cbv zeta.
    match goal with
    | |- (0 <= _ * (2 * Utils.atan2 ?y ?x) <= _)%R =>
        pose proof (atan2_first_quadrant y x (sqrt_pos _) (sqrt_pos _))
          as [Hlo Hhi]
    end.
    lra.
  - rewrite calculateDistance_meridian by lra.
    replace (lat1 - lat1)%R with 0%R by lra. rewrite Rabs_R0. lra.
  - exact (haversine_in_unit lat1 lon1 lat2 lon2 H1 H2).
Qed.

Lemma calculateDistance_symmetric_and_bounded_witness :
  Utils.calculateDistance 10 20 30 40 = Utils.calculateDistance 30 40 10 20 /\
  (0 <= Utils.calculateDistance 10 20 30 40 <= 6371000 * PI)%R /\
  Utils.calculateDistance 10 20 10 20 = 0%R.
Proof.
  destruct (calculateDistance_symmetric_and_bounded 10 20 30 40)
    as (Hs & Hb & Hz & _); [lra | lra |].
  exact (conj Hs (conj Hb Hz)).
Defined.

(** ** LocationManager: safe zones and the saved locations *)

(** Reading a property of an object literal. *)
Ltac read_object :=
  cbn [object];
  repeat first [ rewrite field_set_ne by congruence
               | rewrite field_insert_ne by congruence ];
  first [ apply field_set_eq | apply field_insert_eq ].

(** The properties of a record as [add] has stored it. *)
Lemma field_stored (o data : obj) now f :
  (forall g, g <> "id" -> o !! g = stamp now data !! g) ->
  f <> "id" -> f <> "created_at" -> field o f = field data f.
Proof.
  intros Ho N1 N2. unfold field. rewrite Ho by exact N1.
  rewrite stamp_other by exact N2. reflexivity.
Qed.

Lemma le_real_zero_radius lat lon (radius : Q) :
  (0 <= radius)%Q ->
  le_real (Utils.distance (VNum lat) (VNum lon) (VNum lat) (VNum lon))
          (ToReal (VNum radius)) = true.
Proof.
  intros Hrad. apply le_real_iff.
  exists (Utils.calculateDistance (Q2R lat) (Q2R lon) (Q2R lat) (Q2R lon)),
         (Q2R radius).
  split; [reflexivity|]. split; [reflexivity|].
  rewrite calculateDistance_meridian by lra.
  replace (Q2R lat - Q2R lat)%R with 0%R by lra. rewrite Rabs_R0.
  apply Qreals.Qle_Rle in Hrad.
  replace (Q2R 0) with 0%R in Hrad by (unfold Q2R; simpl; lra).
  lra.
Qed.

(** X11.  A safe zone contains its center: after [addSafeZone] has stored
    a zone with a radius that is not negative for the logged-in user,
    [isInSafeZone] is true at the center of the zone, and the zone is among
    the [getSafeZones] of the user. *)
Theorem addSafeZone_contains_its_center
        s user name (latitude longitude radius : Q) now zone s' :
  currentUser s = Some user ->
  valid_key (field user "id") = true ->
  (0 <= radius)%Q ->
  LocationManager.addSafeZone s name (VNum latitude) (VNum longitude)
                              (VNum radius) now = (Success zone, s') ->
  LocationManager.isInSafeZone s' (VNum latitude) (VNum longitude) = true /\
  exists stored,
    In stored (LocationManager.getSafeZones s') /\
    field stored "id" = field zone "id" /\
    field stored "latitude" = VNum latitude /\
    field stored "longitude" = VNum longitude /\
    field stored "radius" = VNum radius.
Proof.
  intros Huser Hvalid Hrad H.
  unfold LocationManager.addSafeZone in H. rewrite Huser in H.
  set (safeZone := object _) in H.
  destruct (add (db s) "safe_zones" safeZone now) as [[id|e] db'] eqn:Hadd;
    [|discriminate].
  injection H as <- <-.
  destruct (add_inv _ _ _ _ _ _ Hadd) as (st & st' & Hst & Hs & ->).
  destruct (store_inv _ _ _ _ _ _ Hs)
    as (Hvid & o & Hrows & Hoid & Ho & _).
  assert (Hin : In o (List.filter
                        (fun z => key_eqb (field z "user_id") (field user "id"))
                        (store_getAll st'))).
  { apply filter_In. split.
    - unfold store_getAll. apply in_map_iff. exists (id, o).
      split; [reflexivity|]. rewrite Hrows. apply in_put_row.
    - rewrite (field_stored o safeZone now) by (exact Ho || congruence).
      replace (field safeZone "user_id") with (field user "id")
        by (symmetry; unfold safeZone; read_object).
      apply key_eqb_refl. exact Hvalid. }
  assert (Hlat : field o "latitude" = VNum latitude).
  { rewrite (field_stored o safeZone now) by (exact Ho || congruence).
    unfold safeZone. read_object. }
  assert (Hlon : field o "longitude" = VNum longitude).
  { rewrite (field_stored o safeZone now) by (exact Ho || congruence).
    unfold safeZone. read_object. }
  assert (Hradius : field o "radius" = VNum radius).
  { rewrite (field_stored o safeZone now) by (exact Ho || congruence).
    unfold safeZone. read_object. }
  assert (Hactive : field o "is_active" = VBool true).
  { rewrite (field_stored o safeZone now) by (exact Ho || congruence).
    unfold safeZone. read_object. }
  assert (Hzones : getByIndex (<["safe_zones" := st']> (db s)) "safe_zones"
                     "user_id" (field user "id") =
                   Ok (List.filter
                         (fun z => key_eqb (field z "user_id")
                                           (field user "id"))
                         (store_getAll st')))
    by (apply getByIndex_key;
        [apply lookup_insert_eq | reflexivity | exact Hvalid]).
  split.
  - unfold LocationManager.isInSafeZone. simpl. rewrite Huser, Hzones.
    apply first_containing_exists. exists o. split.
    + apply filter_In. split; [exact Hin|]. rewrite Hactive. reflexivity.
    + unfold LocationManager.contains. rewrite Hlat, Hlon, Hradius.
      apply le_real_zero_radius. exact Hrad.
  - exists o. unfold LocationManager.getSafeZones. simpl.
    rewrite Huser, Hzones. split; [exact Hin|].
    rewrite field_set_eq. auto.
Qed.

Lemma addSafeZone_contains_its_center_witness :
  let out :=
    LocationManager.addSafeZone Scenario.logged_in (VStr "Home")
                                (VNum 10) (VNum 10) (VNum 50) "t" in
  let zone := match fst out with Success o => o | _ => Scenario.home end in
  LocationManager.isInSafeZone (snd out) (VNum 10) (VNum 10) = true /\
  exists stored,
    In stored (LocationManager.getSafeZones (snd out)) /\
    field stored "id" = field zone "id" /\
    field stored "latitude" = VNum 10 /\
    field stored "longitude" = VNum 10 /\
    field stored "radius" = VNum 50.
Proof.
  intros out zone.
  apply (addSafeZone_contains_its_center
           Scenario.logged_in (set_field "id" (VNum 1) Scenario.asha)
           (VStr "Home") 10 10 50 "t").
  - reflexivity.
  - vm_compute. reflexivity.
  - discriminate.
  - apply (success_value Scenario.home out). vm_compute. reflexivity.
Defined.

(** The record that a successful [add] or [put] has stored: the data with
    the key at [id]. *)
Lemma store_rows noOverwrite idx st (data : obj) k st' :
  store noOverwrite idx st data = Ok (k, st') ->
  rows st' = put_row k (<["id" := k]> data) (rows st).
Proof.
  intros H.
  destruct (store_inv _ _ _ _ _ _ H) as (Hv & o & Hrows & Hid & Ho & _).
  rewrite Hrows. f_equal. apply map_eq. intros f.
  destruct (decide (f = "id")) as [-> | N].
  - rewrite lookup_insert_eq. unfold field in Hid.
    destruct (o !! "id") as [v|]; [congruence|].
    subst k. discriminate.
  - rewrite lookup_insert_ne by congruence. apply Ho. exact N.
Qed.

Lemma set_field_key f k (o : obj) :
  valid_key k = true -> set_field f k o = <[f := k]> o.
Proof. destruct k; simpl; try discriminate; reflexivity. Qed.

(** X12.  A saved location is found again: the record that [saveLocation]
    returns is in the history of the user ([getLocationHistory] with the
    limit 0, which truncates nothing), it carries the user's id, and its
    [is_safe_zone] is what [isInSafeZone] answered for its coordinates
    before the call; saving a location changes no answer of
    [isInSafeZone]. *)
Theorem saveLocation_then_history
        Date_parse s user (location : obj) now record s' :
  currentUser s = Some user ->
  valid_key (field user "id") = true ->
  LocationManager.saveLocation s location now = (Success record, s') ->
  In record (LocationManager.getLocationHistory Date_parse s' (Some 0)) /\
  field record "user_id" = field user "id" /\
  field record "is_safe_zone" =
  VBool (LocationManager.isInSafeZone s (field location "latitude")
                                        (field location "longitude")) /\
  (forall latitude longitude,
      LocationManager.isInSafeZone s' latitude longitude =
      LocationManager.isInSafeZone s latitude longitude).
Proof.
  intros Huser Hvalid H.
  unfold LocationManager.saveLocation in H. rewrite Huser in H.
  set (locationRecord := object _) in H.
  destruct (add (db s) "location_history" locationRecord now)
    as [[id|e] db'] eqn:Hadd; [|discriminate].
  injection H as <- <-.
  destruct (add_inv _ _ _ _ _ _ Hadd) as (st & st' & Hst & Hs & ->).
  pose proof (store_rows _ _ _ _ _ _ Hs) as Hrows.
  destruct (store_inv _ _ _ _ _ _ Hs) as (Hvid & _).
  rewrite (set_field_key "id" id) by exact Hvid.
  set (record := <["id" := id]> (stamp now locationRecord)) in *.
  assert (Huid : field record "user_id" = field user "id").
  { unfold record. rewrite field_insert_ne by congruence.
    rewrite field_stamp_other by congruence.
    unfold locationRecord. read_object. }
  split; [|split; [exact Huid|split]].
  - unfold LocationManager.getLocationHistory. cbn [currentUser db].
    rewrite (getByIndex_key _ _ _ st')
      by (apply lookup_insert_eq || reflexivity || exact Hvalid).
    apply sort_in. apply filter_In. split.
    + unfold store_getAll. apply in_map_iff. exists (id, record).
      split; [reflexivity|]. rewrite Hrows. apply in_put_row.
    + rewrite Huid. apply key_eqb_refl. exact Hvalid.
  - unfold record. rewrite field_insert_ne by congruence.
    rewrite field_stamp_other by congruence.
    unfold locationRecord. read_object.
  - intros latitude longitude. unfold LocationManager.isInSafeZone.
    cbn [currentUser db]. rewrite Huser. unfold getByIndex, objectStore.
    rewrite lookup_insert_ne by congruence. reflexivity.
Qed.

Lemma saveLocation_then_history_witness :
  let location := object [("latitude", VNum 10); ("longitude", VNum 10)] in
  let out := LocationManager.saveLocation Scenario.zoned location "t" in
  let record := match fst out with Success o => o | _ => location end in
  In record
     (LocationManager.getLocationHistory Scenario.Date_parse (snd out)
                                         (Some 0)) /\
  field record "user_id" = VNum 1 /\
  field record "is_safe_zone" =
  VBool (LocationManager.isInSafeZone Scenario.zoned (VNum 10) (VNum 10)) /\
  (forall latitude longitude,
      LocationManager.isInSafeZone (snd out) latitude longitude =
      LocationManager.isInSafeZone Scenario.zoned latitude longitude).
Proof.
  intros location out record.
  apply (saveLocation_then_history
           Scenario.Date_parse Scenario.zoned
           (set_field "id" (VNum 1) Scenario.asha) location "t").
  - reflexivity.
  - vm_compute. reflexivity.
  - apply (success_value location out).
    unfold out, LocationManager.saveLocation. cbn [currentUser Scenario.zoned].
    set (r := object _).
    assert (Hok : Scenario.is_ok (fst (add (db Scenario.zoned)
                                         "location_history" r "t")) = true).
    { unfold Scenario.is_ok, add, objectStore.
      assert (Hst : db Scenario.zoned !! "location_history" =
                    Some empty_store) by (vm_compute; reflexivity).
      rewrite Hst.
      destruct (add_to_empty_store (db Scenario.zoned) "location_history"
                  empty_store r "t" Hst eq_refl) as (st' & Ha & _).
      { unfold r. cbn [object]. rewrite !field_set_ne by congruence.
        reflexivity. }
      unfold add, objectStore in Ha. rewrite Hst in Ha.
      destruct (store _ _ _ _) as [[k st1]|e]; [reflexivity|].
      apply (f_equal fst) in Ha. cbn [fst] in Ha. discriminate Ha. }
    destruct (add _ _ r "t") as [[id|e] d]; simpl in Hok |- *;
      [reflexivity | discriminate].
Defined.

(** ** SOSManager: one current alert *)

Lemma saveLocation_keeps s location now :
  let s' := snd (LocationManager.saveLocation s location now) in
  currentAlert s' = currentAlert s /\
  currentUser s' = currentUser s /\
  (forall name, name <> "location_history" ->
                db s' !! name = db s !! name).
Proof.
  unfold LocationManager.saveLocation.
  destruct (currentUser s) as [user|] eqn:Huser; [|simpl; auto].
  destruct (add (db s) "location_history" _ now) as [[id|e] db'] eqn:Hadd;
    [|simpl; auto].
  destruct (add_inv _ _ _ _ _ _ Hadd) as (st & st' & _ & _ & ->).
  simpl. split; [reflexivity|]. split; [reflexivity|].
  intros name N. apply lookup_insert_ne. congruence.
Qed.

(** What a successful [triggerSOS] has done. *)
Lemma triggerSOS_inv s location now alert s' :
  SOSManager.triggerSOS s location now = (Success alert, s') ->
  exists st st' id (data : obj),
    db s !! "sos_alerts" = Some st /\
    store true (indexes_of "sos_alerts") st (stamp now data) = Ok (id, st') /\
    field data "status" = SOSManager.ACTIVE /\
    field data "id" = VUndef /\
    field alert "id" = id /\
    db s' !! "sos_alerts" = Some st' /\
    currentAlert s' = Some alert /\
    currentUser s' = currentUser s.
Proof.
  unfold SOSManager.triggerSOS. intros H.
  destruct (currentUser s) as [user|] eqn:Huser; [|discriminate].
  set (data := object _) in H.
  destruct (add (db s) "sos_alerts" data now) as [[id|e] db'] eqn:Hadd;
    [|discriminate].
  injection H as <- <-.
  destruct (add_inv _ _ _ _ _ _ Hadd) as (st & st' & Hst & Hs & ->).
  exists st, st', id, data.
  split; [exact Hst|]. split; [exact Hs|].
  split; [unfold data; read_object|].
  split; [unfold data; cbn [object]; rewrite !field_set_ne by congruence;
          reflexivity|].
  split; [apply field_set_eq|].
  destruct location as [l|].
  - destruct (saveLocation_keeps
                {| db := <["sos_alerts" := st']> (db s);
                   currentUser := Some user;
                   currentAlert :=
                     Some (set_field "id" id (stamp now data)) |} l now)
      as (Ha & Hu & Hd).
    rewrite Ha, Hu, Hd by congruence. simpl.
    rewrite lookup_insert_eq. auto.
  - simpl. rewrite lookup_insert_eq. auto.
Qed.

(** X13.  [sosManager] follows one alert only.  When [triggerSOS] succeeds
    twice in a row, the following [cancelSOS] cancels the second alert and
    forgets it; the first alert stays active in the database, and a
    further [cancelSOS] changes nothing. *)
Theorem second_trigger_orphans_the_first_alert
        s l1 t1 alert1 s1 l2 t2 alert2 s2 t3 s3 :
  SOSManager.triggerSOS s l1 t1 = (Success alert1, s1) ->
  SOSManager.triggerSOS s1 l2 t2 = (Success alert2, s2) ->
  SOSManager.cancelSOS s2 t3 = (Success tt, s3) ->
  SOSManager.status s3 (field alert1 "id") = Some SOSManager.ACTIVE /\
  SOSManager.status s3 (field alert2 "id") = Some SOSManager.CANCELLED /\
  currentAlert s3 = None /\
  (forall t4, SOSManager.cancelSOS s3 t4 = (Success tt, s3)).
Proof.
  intros H1 H2 H3.
  destruct (triggerSOS_inv _ _ _ _ _ H1)
    as (st0 & st1 & id1 & d1 & _ & Hs1 & Hact1 & Hno1 & Hid1 & Hdb1 & _).
  destruct (triggerSOS_inv _ _ _ _ _ H2)
    as (st1' & st2 & id2 & d2 & Hdb1' & Hs2 & _ & Hno2 & Hid2 & Hdb2 & Hcur2
        & _).
  assert (st1' = st1) by congruence. subst st1'. clear Hdb1'.
  rewrite Hid1, Hid2. clear H1 H2.
  pose proof (store_rows _ _ _ _ _ _ Hs1) as Hrows1.
  pose proof (store_rows _ _ _ _ _ _ Hs2) as Hrows2.
  destruct (store_inv _ _ _ _ _ _ Hs1) as (Hv1 & _).
  destruct (store_inv _ _ _ _ _ _ Hs2)
    as (Hv2 & _ & _ & _ & _ & _ & Hnew2 & _).
  specialize (Hnew2 eq_refl).
  set (o1 := <["id" := id1]> (stamp t1 d1)) in *.
  set (o2 := <["id" := id2]> (stamp t2 d2)) in *.
  assert (Hf1 : find_row id1 (rows st1) = Some o1)
    by (rewrite Hrows1; apply find_put_eq; exact Hv1).
  assert (Hne : key_eqb id1 id2 = false).
  { destruct (key_eqb id1 id2) eqn:E; [|reflexivity].
    rewrite (find_row_eqb _ _ _ E) in Hf1. congruence. }
  assert (Hf12 : find_row id1 (rows st2) = Some o1)
    by (rewrite Hrows2, find_put_ne by exact Hne; exact Hf1).
  assert (Hf2 : find_row id2 (rows st2) = Some o2)
    by (rewrite Hrows2; apply find_put_eq; exact Hv2).
  unfold SOSManager.cancelSOS in H3. rewrite Hcur2, Hid2 in H3.
  unfold get, objectStore, store_get in H3.
  rewrite Hdb2, Hv2, Hf2 in H3.
  set (alert' := set_field "resolved_at" _ _) in H3.
  assert (Hid' : field alert' "id" = id2).
  { unfold alert'. rewrite !field_set_ne by congruence.
    apply field_insert_eq. }
  assert (Hst' : field alert' "status" = SOSManager.CANCELLED).
  { unfold alert'. rewrite field_set_ne by congruence. apply field_set_eq. }
  destruct (update (db s2) "sos_alerts" alert') as [[k|e] db3] eqn:Hup;
    [|discriminate].
  injection H3 as <-.
  destruct (update_inv _ _ _ _ _ Hup) as (st2' & st3 & Hdb2' & Hs3 & ->).
  assert (st2' = st2) by congruence. subst st2'.
  pose proof (store_rows _ _ _ _ _ _ Hs3) as Hrows3.
  destruct (store_inv _ _ _ _ _ _ Hs3) as (_ & o & _ & Hok & _ & _ & _ & _ & Hput).
  destruct Hput as [-> _];
    [rewrite Hid'; destruct id2; discriminate|].
  rewrite Hid' in Hok. subst k.
  unfold SOSManager.status, SOSManager.status_in. cbn [db currentAlert].
  rewrite !get_insert_eq. unfold store_get. rewrite Hv1, Hv2, Hrows3.
  rewrite find_put_ne by exact Hne. rewrite Hf12.
  rewrite find_put_eq by exact Hv2.
  split; [|split; [|split]].
  - unfold o1. rewrite field_insert_ne by congruence.
    rewrite field_stamp_other by congruence. rewrite Hact1. reflexivity.
  - rewrite field_insert_ne by congruence. rewrite Hst'. reflexivity.
  - reflexivity.
  - intros t4. reflexivity.
Qed.

Lemma second_trigger_orphans_the_first_alert_witness :
  let out1 := SOSManager.triggerSOS Scenario.logged_in None "t1" in
  let out2 := SOSManager.triggerSOS (snd out1) None "t2" in
  let out3 := SOSManager.cancelSOS (snd out2) "t3" in
  SOSManager.status (snd out3) (VNum 1) = Some SOSManager.ACTIVE /\
  SOSManager.status (snd out3) (VNum 2) = Some SOSManager.CANCELLED /\
  currentAlert (snd out3) = None /\
  (forall t4, SOSManager.cancelSOS (snd out3) t4 = (Success tt, snd out3)).
Proof.
  intros out1 out2 out3.
  set (a1 := match fst out1 with Success a => a | _ => Scenario.asha end).
  set (a2 := match fst out2 with Success a => a | _ => Scenario.asha end).
  assert (E1 : field a1 "id" = VNum 1) by (vm_compute; reflexivity).
  assert (E2 : field a2 "id" = VNum 2) by (vm_compute; reflexivity).
  rewrite <- E1, <- E2.
  apply (second_trigger_orphans_the_first_alert
           Scenario.logged_in None "t1" a1 (snd out1) None "t2" a2 (snd out2)
           "t3" (snd out3)).
  - apply (success_value Scenario.asha out1). vm_compute. reflexivity.
  - apply (success_value Scenario.asha out2). vm_compute. reflexivity.
  - apply (success_value tt out3). vm_compute. reflexivity.
Defined.

(** ** PreferencesManager: the loaded preferences *)

Lemma key_eqb_strict_eq a b : key_eqb a b = true -> strict_eq a b = true.
Proof. destruct a, b; simpl; congruence. Qed.

Lemma field_spread_l (a b : obj) f v :
  b !! f = Some v -> field (spread a b) f = v.
Proof.
  intros H. unfold field, spread.
  rewrite (lookup_union_Some_l b a f v H). reflexivity.
Qed.

Lemma field_spread_r (a b : obj) f :
  b !! f = None -> field (spread a b) f = field a f.
Proof.
  intros H. unfold field, spread. rewrite lookup_union_r by exact H.
  reflexivity.
Qed.

(** What [getPreferences] has done when it returns preferences. *)
Lemma getPreferences_inv ss user now p ss' :
  currentUser (app ss) = Some user ->
  valid_key (field user "id") = true ->
  PreferencesManager.getPreferences ss now = (Some p, ss') ->
  strict_eq (field p "user_id") (field user "id") = true /\
  preferences ss' = Some p /\
  currentUser (app ss') = Some user.
Proof.
  intros Huser Hvalid. unfold PreferencesManager.getPreferences.
  rewrite Huser.
  destruct (PreferencesManager.loaded_for ss user) as [loaded|] eqn:Hl.
  - intros H. injection H as <- <-.
    unfold PreferencesManager.loaded_for in Hl.
    destruct (preferences ss) as [l|]; [|discriminate].
    destruct (strict_eq _ _) eqn:E; [|discriminate].
    injection Hl as ->. auto.
  - destruct (db (app ss) !! "user_preferences") as [st|] eqn:Hst.
    2: { unfold getByIndex, objectStore. rewrite Hst. discriminate. }
    rewrite (getByIndex_key _ _ _ st) by (exact Hst || reflexivity || exact Hvalid).
    destruct (List.filter _ _) as [|first rest] eqn:Hf.
    + unfold PreferencesManager.createDefaultPreferences.
      set (defaultPrefs := object _).
      destruct (add _ _ defaultPrefs now) as [[id|e] db'] eqn:Hadd;
        [|discriminate].
      intros H. injection H as <- <-. cbn [preferences app currentUser with_db].
      split; [|auto].
      rewrite field_set_ne, field_stamp_other by congruence.
      replace (field defaultPrefs "user_id") with (field user "id")
        by (symmetry; unfold defaultPrefs; read_object).
      apply key_eqb_strict_eq, key_eqb_refl. exact Hvalid.
    + intros H. injection H as <- <-. cbn [preferences app].
      split; [|auto].
      assert (Hin : In first (first :: rest)) by (left; reflexivity).
      rewrite <- Hf in Hin. apply filter_In in Hin.
      apply key_eqb_strict_eq. exact (proj2 Hin).
Qed.

(** X14.  The preferences are loaded once: when [getPreferences] has
    returned preferences for the logged-in user, every later call returns
    the same preferences and changes neither the database nor the loaded
    preferences (so the defaults are created at most once). *)
Theorem getPreferences_is_stable ss user now now' p ss' :
  currentUser (app ss) = Some user ->
  valid_key (field user "id") = true ->
  PreferencesManager.getPreferences ss now = (Some p, ss') ->
  PreferencesManager.getPreferences ss' now' = (Some p, ss').
Proof.
  intros Huser Hvalid H.
  destruct (getPreferences_inv _ _ _ _ _ Huser Hvalid H) as (He & Hp & Hu).
  unfold PreferencesManager.getPreferences, PreferencesManager.loaded_for.
  rewrite Hu, Hp, He. reflexivity.
Qed.

(** What a successful [updatePreferences] has done. *)
Lemma updatePreferences_inv ss user updates now p ss' :
  currentUser (app ss) = Some user ->
  valid_key (field user "id") = true ->
  PreferencesManager.updatePreferences ss updates now = (Success p, ss') ->
  exists current,
    p = spread current updates /\
    strict_eq (field current "user_id") (field user "id") = true /\
    preferences ss' = Some p /\
    currentUser (app ss') = Some user.
Proof.
  intros Huser Hvalid. unfold PreferencesManager.updatePreferences.
  destruct (PreferencesManager.getPreferences ss now) as [[cur|] ss1] eqn:Hg;
    [|discriminate].
  destruct (getPreferences_inv _ _ _ _ _ Huser Hvalid Hg) as (He & _ & Hu).
  destruct (update _ _ _) as [[k|e] db'] eqn:Hup; [|discriminate].
  intros H. injection H as <- <-. exists cur.
  cbn [preferences app currentUser with_db]. auto.
Qed.

(** X15.  [toggleTheme] alternates: of two calls in a row that succeed,
    one stores the light theme and the other the dark theme, whatever the
    theme was before. *)
Theorem toggleTheme_alternates ss user t1 p1 ss1 t2 p2 ss2 :
  currentUser (app ss) = Some user ->
  valid_key (field user "id") = true ->
  PreferencesManager.toggleTheme ss t1 = (Success p1, ss1) ->
  PreferencesManager.toggleTheme ss1 t2 = (Success p2, ss2) ->
  (field p1 "theme" = PreferencesManager.LIGHT /\
   field p2 "theme" = PreferencesManager.DARK) \/
  (field p1 "theme" = PreferencesManager.DARK /\
   field p2 "theme" = PreferencesManager.LIGHT).
Proof.
  intros Huser Hvalid H1 H2.
  unfold PreferencesManager.toggleTheme, PreferencesManager.getPreference
    in H1.
  destruct (PreferencesManager.getPreferences ss t1) as [r ssA] eqn:Hg.
  assert (HuA : currentUser (app ssA) = Some user).
  { destruct r as [p|].
    - exact (proj2 (proj2 (getPreferences_inv _ _ _ _ _ Huser Hvalid Hg))).
    - revert Hg. unfold PreferencesManager.getPreferences. rewrite Huser.
      destruct (PreferencesManager.loaded_for ss user); [discriminate|].
      destruct (getByIndex _ _ _ _) as [[|first rest]|e];
        try (intros H; injection H as <-; exact Huser); [|discriminate].
      unfold PreferencesManager.createDefaultPreferences.
      destruct (add _ _ _ t1) as [[id|e] db']; [discriminate|].
      intros H; injection H as <-; exact Huser. }
  set (new1 := if strict_eq match r with
                            | Some prefs => field prefs "theme"
                            | None => VNull
                            end PreferencesManager.DARK
               then PreferencesManager.LIGHT else PreferencesManager.DARK).
  assert (H1' : PreferencesManager.updatePreferences ssA
                  (object [("theme", new1)]) t1 = (Success p1, ss1)).
  { destruct r as [prefs|]; exact H1. }
  clear H1.
  destruct (updatePreferences_inv _ _ _ _ _ _ HuA Hvalid H1')
    as (cur1 & -> & He1 & Hp1 & Hu1).
  assert (Hnew1 : new1 = PreferencesManager.LIGHT \/
                  new1 = PreferencesManager.DARK)
    by (unfold new1; destruct (strict_eq _ _); auto).
  assert (Hobj : forall v, v = PreferencesManager.LIGHT \/
                           v = PreferencesManager.DARK ->
                           object [("theme", v)] !! "theme" = Some v /\
                           object [("theme", v)] !! "user_id" = None).
  { intros v [-> | ->]; split; reflexivity. }
  set (p1 := spread cur1 (object [("theme", new1)])) in *.
  assert (Ht1 : field p1 "theme" = new1)
    by (apply field_spread_l; apply (Hobj new1 Hnew1)).
  assert (Hid1 : strict_eq (field p1 "user_id") (field user "id") = true).
  { unfold p1. rewrite field_spread_r by apply (Hobj new1 Hnew1). exact He1. }
  unfold PreferencesManager.toggleTheme, PreferencesManager.getPreference
    in H2.
  assert (Hg2 : PreferencesManager.getPreferences ss1 t2 = (Some p1, ss1)).
  { unfold PreferencesManager.getPreferences, PreferencesManager.loaded_for.
    rewrite Hu1, Hp1, Hid1. reflexivity. }
  rewrite Hg2, Ht1 in H2.
  set (new2 := if strict_eq new1 PreferencesManager.DARK
               then PreferencesManager.LIGHT else PreferencesManager.DARK)
    in H2.
  destruct (updatePreferences_inv _ _ _ _ _ _ Hu1 Hvalid H2)
    as (cur2 & -> & _).
  assert (Hnew2 : new2 = PreferencesManager.LIGHT \/
                  new2 = PreferencesManager.DARK)
    by (unfold new2; destruct (strict_eq _ _); auto).
  rewrite Ht1, (field_spread_l cur2 _ "theme" new2)
    by apply (Hobj new2 Hnew2).
  unfold new2. destruct Hnew1 as [-> | ->]; [left | right]; auto.
Qed.

Lemma some_value {A B : Type} (d : A) (out : option A * B) :
  match fst out with Some _ => true | None => false end = true ->
  out = (Some match fst out with Some a => a | None => d end, snd out).
Proof. destruct out as [[a|] b]; simpl; congruence. Qed.

Lemma getPreferences_is_stable_witness :
  let out := PreferencesManager.getPreferences Cases.session "t1" in
  let p := match fst out with Some p => p | None => Cases.user1 end in
  field p "theme" = PreferencesManager.DARK /\
  PreferencesManager.getPreferences (snd out) "t2" = (Some p, snd out).
Proof.
  intros out p. split; [vm_compute; reflexivity|].
  apply (getPreferences_is_stable Cases.session Cases.user1 "t1" "t2").
  - reflexivity.
  - vm_compute. reflexivity.
  - apply (some_value Cases.user1 out). vm_compute. reflexivity.
Defined.

Lemma toggleTheme_alternates_witness :
  let out1 := PreferencesManager.toggleTheme Cases.session "t1" in
  let out2 := PreferencesManager.toggleTheme (snd out1) "t2" in
  let p1 := match fst out1 with Success p => p | _ => Cases.user1 end in
  let p2 := match fst out2 with Success p => p | _ => Cases.user1 end in
  (field p1 "theme" = PreferencesManager.LIGHT /\
   field p2 "theme" = PreferencesManager.DARK) \/
  (field p1 "theme" = PreferencesManager.DARK /\
   field p2 "theme" = PreferencesManager.LIGHT).
Proof.
  intros out1 out2 p1 p2.
  apply (toggleTheme_alternates Cases.session Cases.user1
           "t1" p1 (snd out1) "t2" p2 (snd out2)).
  - reflexivity.
  - vm_compute. reflexivity.
  - apply (success_value Cases.user1 out1). vm_compute. reflexivity.
  - apply (success_value Cases.user1 out2). vm_compute. reflexivity.
Defined.

(** ** UserManager: guests, registration and login *)

Lemma createDefaultPreferences_keeps ss userId now :
  let ss1 := snd (PreferencesManager.createDefaultPreferences ss userId now) in
  (forall name, name <> "user_preferences" ->
                db (app ss1) !! name = db (app ss) !! name) /\
  currentUser (app ss1) = currentUser (app ss) /\
  currentAlert (app ss1) = currentAlert (app ss).
Proof.
  unfold PreferencesManager.createDefaultPreferences.
  destruct (add _ _ _ now) as [[id|e] db'] eqn:Hadd; [|simpl; auto].
  destruct (add_inv _ _ _ _ _ _ Hadd) as (st & st' & _ & _ & ->).
  simpl. split; [|auto].
  intros name N. apply lookup_insert_ne. congruence.
Qed.

(** X16.  [continueAsGuest] succeeds on every well-formed database whose
    key generator for the users has a key left, and every call creates a
    user of its own: the guest is stored under a key that was not in use,
    it is the current user afterwards, and [isGuest] is true. *)
Theorem continueAsGuest_creates_a_new_user ss now :
  db_ok (db (app ss)) = true ->
  1 <= keys_left (db (app ss)) "users" ->
  exists guestUser ss',
    UserManager.continueAsGuest ss now = (Success guestUser, ss') /\
    currentUser (app ss') = Some guestUser /\
    UserManager.isGuest (app ss') = true /\
    get (db (app ss)) "users" (field guestUser "id") = Ok None /\
    get (db (app ss')) "users" (field guestUser "id") = Ok (Some guestUser).
Proof.
  intros Hok _. unfold UserManager.continueAsGuest.
  set (guestUser := object _).
  destruct (db_ok_lookup _ "users" Hok) as (st & Hst & Hst_ok);
    [vm_compute; congruence|].
  set (k := VNum (inject_Z (keygen st))).
  assert (Hphone : field guestUser "phone_number" = VNull)
    by (unfold guestUser; read_object).
  assert (Hguest : field guestUser "is_guest" = VBool true)
    by (unfold guestUser; read_object).
  assert (Hnoid : field (stamp now guestUser) "id" = VUndef).
  { rewrite field_stamp_other by congruence. unfold guestUser.
    cbn [object]. rewrite !field_set_ne by congruence. reflexivity. }
  assert (Hadd : add (db (app ss)) "users" guestUser now =
                 (Ok k, <["users" :=
                            {| keygen := keygen st + 1;
                               rows := put_row k (<["id" := k]>
                                                    (stamp now guestUser))
                                               (rows st) |}]>
                          (db (app ss)))).
  { unfold add, objectStore. rewrite Hst.
    rewrite (store_generated true _ st (stamp now guestUser) Hst_ok Hnoid);
      [reflexivity|].
    apply no_clash_users. rewrite field_insert_ne by congruence.
    rewrite field_stamp_other by congruence. rewrite Hphone. reflexivity. }
  rewrite Hadd.
  set (db1 := <["users" := _]> (db (app ss))).
  destruct (createDefaultPreferences_keeps
              {| app := with_db (app ss) db1; preferences := preferences ss |}
              k now) as (Hkeep & _).
  set (ss1 := snd (PreferencesManager.createDefaultPreferences _ k now)) in *.
  eexists. eexists. split; [reflexivity|].
  cbn [app currentUser db]. unfold UserManager.isGuest. cbn [currentUser].
  rewrite (set_field_key "id" k) by reflexivity.
  rewrite field_insert_eq.
  split; [reflexivity|]. split; [|split].
  - rewrite field_insert_ne by congruence.
    rewrite field_stamp_other by congruence. rewrite Hguest. reflexivity.
  - unfold get, objectStore, store_get. rewrite Hst.
    change (valid_key k) with true. cbn iota. unfold k.
    rewrite (find_row_fresh st Hst_ok). reflexivity.
  - unfold get, objectStore. rewrite Hkeep by congruence.
    cbn [app db with_db]. unfold db1. rewrite lookup_insert_eq.
    unfold store_get. change (valid_key k) with true. cbn iota. cbn [rows].
    rewrite find_put_eq by reflexivity. reflexivity.
Qed.

Lemma continueAsGuest_creates_a_new_user_witness :
  exists guestUser ss',
    UserManager.continueAsGuest Cases.session "t" = (Success guestUser, ss') /\
    currentUser (app ss') = Some guestUser /\
    UserManager.isGuest (app ss') = true /\
    get (db (app Cases.session)) "users" (field guestUser "id") = Ok None /\
    get (db (app ss')) "users" (field guestUser "id") = Ok (Some guestUser).
Proof.
  apply (continueAsGuest_creates_a_new_user Cases.session "t").
  - vm_compute. reflexivity.
  - vm_compute. discriminate.
Defined.

Section Registration.

Local Open Scope list_scope.

(** A record stored under a new key goes between the records that were
    there. *)
Lemma put_row_new_split k o rs :
  find_row k rs = None ->
  exists l1 l2, rs = l1 ++ l2 /\ put_row k o rs = l1 ++ (k, o) :: l2.
Proof.
  induction rs as [|[k' o'] rest IH]; simpl.
  - intros _. exists [], []. auto.
  - destruct (key_eqb k k'); [discriminate|]. intros Hf.
    destruct (key_ltb k k').
    + exists [], ((k', o') :: rest). auto.
    + destruct (IH Hf) as (l1 & l2 & -> & ->).
      exists ((k', o') :: l1), l2. auto.
Qed.

(** No clash in the store of users when no other record has the phone
    number. *)
Lemma no_clash_users_unique k (o : obj) rs :
  (forall r, In r rs ->
             key_eqb k (fst r) = true \/
             key_eqb (field o "phone_number")
                     (field (snd r) "phone_number") = false) ->
  clash (indexes_of "users") k o rs = false.
Proof.
  intros H. rewrite users_indexes. unfold clash. cbn [existsb snd fst andb].
  rewrite orb_false_r.
  destruct (existsb _ rs) eqn:E; [|reflexivity].
  apply existsb_exists in E. destruct E as (r & Hin & Hr).
  apply andb_true_iff in Hr. destruct Hr as [Hk Hp].
  apply negb_true_iff in Hk. unfold same_index_key in Hp.
  apply andb_true_iff in Hp. destruct Hp as [_ Hp].
  destruct (H r Hin); congruence.
Qed.

(** The users with a phone number, once one has been stored under a new
    key with a number that no user had. *)
Lemma users_by_phone_after_add st st' k (o : obj) phone :
  valid_key k = true ->
  rows st' = put_row k o (rows st) ->
  find_row k (rows st) = None ->
  field o "phone_number" = VStr phone ->
  List.filter (fun u => key_eqb (field u "phone_number") (VStr phone))
              (store_getAll st) = [] ->
  List.filter (fun u => key_eqb (field u "phone_number") (VStr phone))
              (store_getAll st') = [o] /\
  (forall r, In r (rows st') ->
             key_eqb k (fst r) = true \/
             key_eqb (VStr phone) (field (snd r) "phone_number") = false).
Proof.
  intros Hvk Hrows Hnew Hphone Hnone.
  destruct (put_row_new_split k o _ Hnew) as (l1 & l2 & Hrs & Hput).
  unfold store_getAll in *. rewrite Hrows, Hput. rewrite Hrs in Hnone.
  rewrite List.map_app, List.filter_app in Hnone.
  apply List.app_eq_nil in Hnone. destruct Hnone as [Hn1 Hn2].
  assert (Hself : key_eqb (field o "phone_number") (VStr phone) = true)
    by (rewrite Hphone; apply key_eqb_refl; reflexivity).
  split.
  - rewrite List.map_app, List.filter_app. cbn [List.map List.filter snd].
    rewrite Hself, Hn1, Hn2. reflexivity.
  - assert (Hother : forall l : list (value * obj),
              List.filter
                (fun u => key_eqb (field u "phone_number") (VStr phone))
                (List.map snd l) = [] ->
              forall r, In r l ->
                key_eqb (VStr phone) (field (snd r) "phone_number") = false).
    { intros l Hl r Hin. rewrite key_eqb_sym.
      destruct (key_eqb (field (snd r) "phone_number") (VStr phone)) eqn:E;
        [|reflexivity].
      assert (Hi : In (snd r)
                      (List.filter
                         (fun u => key_eqb (field u "phone_number")
                                           (VStr phone))
                         (List.map snd l)))
        by (apply filter_In; split; [apply List.in_map; exact Hin | exact E]).
      rewrite Hl in Hi. destruct Hi. }
    intros r Hin. apply in_app_or in Hin.
    destruct Hin as [Hin | [<- | Hin]].
    + right. exact (Hother l1 Hn1 r Hin).
    + left. apply key_eqb_refl. exact Hvk.
    + right. exact (Hother l2 Hn2 r Hin).
Qed.

End Registration.

(** [update] of a record that carries a key and clashes with no other. *)
Lemma update_stores db storeName st (data : obj) :
  db !! storeName = Some st ->
  valid_key (field data "id") = true ->
  clash (indexes_of storeName) (field data "id") data (rows st) = false ->
  update db storeName data =
  (Ok (field data "id"),
   <[storeName := {| keygen := bump (keygen st) (field data "id");
                     rows := put_row (field data "id") data (rows st) |}]> db).
Proof.
  intros Hst Hv Hc. unfold update, objectStore, store. rewrite Hst.
  destruct (field data "id") eqn:E; try discriminate; simpl;
    rewrite Hc; reflexivity.
Qed.

(** What a successful [register] has done. *)
Lemma register_inv ss (userData : obj) phone now user ss1 :
  field userData "phone_number" = VStr phone ->
  UserManager.register ss userData now = (Success user, ss1) ->
  truthy (VStr phone) = true /\
  Utils.isValidPhone (VStr phone) = true /\
  truthy (field userData "email") &&
  negb (Utils.isValidEmail (field userData "email")) = false /\
  valid_key (field user "id") = true /\
  field user "phone_number" = VStr phone /\
  currentUser (app ss1) = Some user /\
  get (db (app ss)) "users" (field user "id") = Ok None /\
  exists st',
    db (app ss1) !! "users" = Some st' /\
    List.filter (fun u => key_eqb (field u "phone_number") (VStr phone))
                (store_getAll st') = [user] /\
    (forall r, In r (rows st') ->
               key_eqb (field user "id") (fst r) = true \/
               key_eqb (VStr phone) (field (snd r) "phone_number") = false).
Proof.
  intros Hphone. unfold UserManager.register. rewrite Hphone.
  destruct (truthy (VStr phone)) eqn:Ht; cbn [negb andb]; [|discriminate].
  destruct (Utils.isValidPhone (VStr phone)) eqn:Hv; cbn [negb];
    [|discriminate].
  destruct (truthy (field userData "email") && _) eqn:He; [discriminate|].
  destruct (getByIndex _ _ _ _) as [[|x xs]|e] eqn:Hg; try discriminate.
  set (u := object _).
  destruct (add _ "users" u now) as [[userId|e] db'] eqn:Hadd; [|discriminate].
  intros H. injection H as <- <-.
  destruct (add_inv _ _ _ _ _ _ Hadd) as (st & st' & Hst & Hs & ->).
  pose proof (store_rows _ _ _ _ _ _ Hs) as Hrows.
  destruct (store_inv _ _ _ _ _ _ Hs)
    as (Hvk & _ & _ & _ & _ & _ & Hnew & _).
  specialize (Hnew eq_refl).
  rewrite (getByIndex_key _ _ _ st) in Hg by (exact Hst || reflexivity).
  injection Hg as Hnone.
  rewrite (set_field_key "id" userId) by exact Hvk.
  set (user := <["id" := userId]> (stamp now u)) in *.
  assert (Hup : field user "phone_number" = VStr phone).
  { unfold user. rewrite field_insert_ne by congruence.
    rewrite field_stamp_other by congruence. unfold u. read_object. }
  destruct (users_by_phone_after_add st st' userId user phone
              Hvk Hrows Hnew Hup Hnone) as [Hone Hothers].
  assert (Hid : field user "id" = userId) by apply field_insert_eq.
  rewrite Hid.
  repeat (split; [solve [auto]|]).
  split.
  { unfold get, objectStore, store_get. rewrite Hst, Hvk, Hnew.
    reflexivity. }
  exists st'. split; [|auto].
  cbn [app db UserManager.saveCurrentUser].
  match goal with
  | |- db (app (snd (PreferencesManager.createDefaultPreferences ?a ?b ?c)))
         !! _ = _ =>
      destruct (createDefaultPreferences_keeps a b c) as (Hkeep & _)
  end.
  rewrite Hkeep by congruence. cbn [app db with_db].
  apply lookup_insert_eq.
Qed.

(** [login] with the phone number of exactly one stored user. *)
Lemma login_finds_the_user s st' (user : obj) phone now' :
  truthy (VStr phone) = true ->
  Utils.isValidPhone (VStr phone) = true ->
  valid_key (field user "id") = true ->
  field user "phone_number" = VStr phone ->
  db s !! "users" = Some st' ->
  List.filter (fun u => key_eqb (field u "phone_number") (VStr phone))
              (store_getAll st') = [user] ->
  (forall r, In r (rows st') ->
             key_eqb (field user "id") (fst r) = true \/
             key_eqb (VStr phone) (field (snd r) "phone_number") = false) ->
  exists user' s2,
    UserManager.login s (VStr phone) now' = (Success user', s2) /\
    field user' "id" = field user "id" /\
    field user' "phone_number" = VStr phone /\
    field user' "last_login" = VStr now' /\
    currentUser s2 = Some user' /\
    get (db s2) "users" (field user "id") = Ok (Some user').
Proof.
  intros Ht Hv Hvk Hup Hst' Hone Hothers.
  unfold UserManager.login. rewrite Ht, Hv. cbn [negb orb].
  rewrite (getByIndex_key _ _ _ st') by (exact Hst' || reflexivity).
  rewrite Hone. cbn [set_field].
  set (user' := <["last_login" := VStr now']> user).
  assert (Hid' : field user' "id" = field user "id")
    by (apply field_insert_ne; congruence).
  assert (Hph' : field user' "phone_number" = VStr phone)
    by (unfold user'; rewrite field_insert_ne by congruence; exact Hup).
  rewrite (update_stores _ _ st' user' Hst');
    [| rewrite Hid'; exact Hvk
     | apply no_clash_users_unique; rewrite Hid', Hph'; exact Hothers ].
  eexists. eexists. split; [reflexivity|].
  split; [exact Hid'|]. split; [exact Hph'|].
  split; [apply field_insert_eq|].
  split; [reflexivity|].
  cbn [db UserManager.saveCurrentUser with_db].
  rewrite get_insert_eq. unfold store_get. rewrite Hvk. cbn [rows].
  rewrite Hid', find_put_eq by exact Hvk. reflexivity.
Qed.

(** X17.  A registered user can log in again: after [register] has
    succeeded for a phone number, [login] with that number succeeds in the
    resulting state, for the same account (same [id]), with [last_login]
    set to the time of the login; and registering the same data once more
    is refused. *)
Theorem register_then_login ss (userData : obj) phone now user ss1 now' :
  field userData "phone_number" = VStr phone ->
  UserManager.register ss userData now = (Success user, ss1) ->
  (exists user' s2,
      UserManager.login (app ss1) (VStr phone) now' = (Success user', s2) /\
      field user' "id" = field user "id" /\
      field user' "phone_number" = VStr phone /\
      field user' "last_login" = VStr now' /\
      currentUser s2 = Some user' /\
      get (db s2) "users" (field user "id") = Ok (Some user')) /\
  UserManager.register ss1 userData now' =
  (Failure (JsError "User with this phone number already exists"), ss1).
Proof.
  intros Hphone Hreg.
  destruct (register_inv _ _ _ _ _ _ Hphone Hreg)
    as (Ht & Hv & He & Hvk & Hup & _ & _ & st' & Hst' & Hone & Hothers).
  split.
  - exact (login_finds_the_user (app ss1) st' user phone now'
             Ht Hv Hvk Hup Hst' Hone Hothers).
  - unfold UserManager.register. rewrite Hphone, Ht, Hv. cbn [negb andb].
    rewrite He.
    rewrite (getByIndex_key _ _ _ st') by (exact Hst' || reflexivity).
    rewrite Hone. reflexivity.
Qed.

Lemma register_then_login_witness :
  let out := UserManager.register Cases.session Cases.meera "t1" in
  let user := match fst out with Success u => u | _ => Cases.meera end in
  field user "id" = VNum 2 /\
  (exists user' s2,
      UserManager.login (app (snd out)) (VStr "5551234567") "t2" =
      (Success user', s2) /\
      field user' "id" = field user "id" /\
      field user' "phone_number" = VStr "5551234567" /\
      field user' "last_login" = VStr "t2" /\
      currentUser s2 = Some user' /\
      get (db s2) "users" (field user "id") = Ok (Some user')) /\
  UserManager.register (snd out) Cases.meera "t2" =
  (Failure (JsError "User with this phone number already exists"), snd out).
Proof.
  intros out user. split; [vm_compute; reflexivity|].
  apply (register_then_login Cases.session Cases.meera "5551234567" "t1"
                             user (snd out) "t2").
  - vm_compute. reflexivity.
  - apply (success_value Cases.meera out). vm_compute. reflexivity.
Defined.

(** X18.  A profile cannot take the phone number of another user: when a
    stored user other than the current one has the phone number of the
    update, [updateProfile] fails with the constraint error of the unique
    index, and neither the database nor the current user changes. *)
Theorem updateProfile_refuses_a_taken_phone_number
        s current st (updates : obj) phone r :
  currentUser s = Some current ->
  db s !! "users" = Some st ->
  valid_key (field current "id") = true ->
  updates !! "phone_number" = Some (VStr phone) ->
  updates !! "id" = None ->
  Utils.isValidPhone (VStr phone) = true ->
  truthy (field updates "email") = false ->
  In r (rows st) ->
  key_eqb (field current "id") (fst r) = false ->
  field (snd r) "phone_number" = VStr phone ->
  UserManager.updateProfile s updates = (Failure ConstraintError, s).
Proof.
  intros Huser Hst Hvk Hphone Hnoid Hvalid Hemail Hin Hother Hsame.
  unfold UserManager.updateProfile. rewrite Huser.
  assert (Hf : field updates "phone_number" = VStr phone)
    by (unfold field; rewrite Hphone; reflexivity).
  rewrite Hf, Hvalid, Hemail. cbn [negb andb]. rewrite andb_false_r.
  set (updatedUser := spread current updates).
  assert (Hid : field updatedUser "id" = field current "id")
    by (apply field_spread_r; exact Hnoid).
  assert (Hph : field updatedUser "phone_number" = VStr phone)
    by (apply field_spread_l; exact Hphone).
  assert (Hclash : clash (indexes_of "users") (field current "id")
                     updatedUser (rows st) = true).
  { apply (clash_users _ _ _ r Hin Hother); rewrite Hph; [reflexivity|].
    rewrite Hsame. apply key_eqb_refl. reflexivity. }
  unfold update, objectStore, store. rewrite Hst, Hid.
  destruct (field current "id") eqn:E; try discriminate;
    cbn [valid_key negb andb]; rewrite Hclash; reflexivity.
Qed.

Lemma updateProfile_refuses_a_taken_phone_number_witness :
  UserManager.updateProfile
    Cases.two_users (object [("phone_number", VStr "5551234567")]) =
  (Failure ConstraintError, Cases.two_users).
Proof.
  set (st := Scenario.the_store (db Cases.two_users) "users").
  assert (Hlen : (1 < List.length (rows st))%nat) by (vm_compute; lia).
  apply (updateProfile_refuses_a_taken_phone_number
           Cases.two_users Cases.user1 st
           (object [("phone_number", VStr "5551234567")]) "5551234567"
           (nth 1 (rows st) (VNull, Cases.user1))).
  - reflexivity.
  - apply has_store_the_store. vm_compute. reflexivity.
  - vm_compute. reflexivity.
  - vm_compute. reflexivity.
  - vm_compute. reflexivity.
  - vm_compute. reflexivity.
  - vm_compute. reflexivity.
  - apply nth_In. exact Hlen.
  - vm_compute. reflexivity.
  - vm_compute. reflexivity.
Defined.

(** ** handleLogin (src/js/app.js) *)

Section LoginOrRegister.

Local Open Scope list_scope.

(** [register] succeeds on a well-formed database for a valid phone number
    that no user has. *)
Lemma register_succeeds ss (userData : obj) phone now :
  db_ok (db (app ss)) = true ->
  field userData "phone_number" = VStr phone ->
  truthy (VStr phone) = true ->
  Utils.isValidPhone (VStr phone) = true ->
  truthy (field userData "email") = false ->
  getByIndex (db (app ss)) "users" "phone_number" (VStr phone) = Ok [] ->
  exists user ss1,
    UserManager.register ss userData now = (Success user, ss1).
Proof.
  intros Hok Hphone Ht Hv Hemail Hnone.
  unfold UserManager.register. rewrite Hphone, Ht, Hv, Hemail.
  cbn [negb andb]. rewrite Hnone.
  set (u := object _).
  destruct (db_ok_lookup _ "users" Hok) as (st & Hst & Hst_ok);
    [vm_compute; congruence|].
  rewrite (getByIndex_key _ _ _ st) in Hnone by (exact Hst || reflexivity).
  injection Hnone as Hnone.
  assert (Hnoid : field (stamp now u) "id" = VUndef).
  { rewrite field_stamp_other by congruence. unfold u.
    cbn [object]. rewrite !field_set_ne by congruence. reflexivity. }
  unfold add, objectStore. rewrite Hst.
  rewrite (store_generated true _ st (stamp now u) Hst_ok Hnoid).
  - eexists. eexists. reflexivity.
  - apply no_clash_users_unique. intros r Hin. right.
    rewrite field_insert_ne by congruence.
    rewrite field_stamp_other by congruence.
    replace (field u "phone_number") with (VStr phone)
      by (symmetry; unfold u; read_object).
    rewrite key_eqb_sym.
    destruct (key_eqb (field (snd r) "phone_number") (VStr phone)) eqn:E;
      [|reflexivity].
    assert (Hi : In (snd r)
                    (List.filter
                       (fun o => key_eqb (field o "phone_number")
                                         (VStr phone))
                       (store_getAll st)))
      by (apply filter_In; split;
          [unfold store_getAll; apply List.in_map; exact Hin | exact E]).
    rewrite Hnone in Hi. destruct Hi.
Qed.

End LoginOrRegister.

(** X19.  [handleLogin] registers on first use and logs in afterwards: on
    a well-formed database whose key generator for the users has a key
    left, for a valid phone number that no user has, it ends with a new
    account for the number as the current user; called again with the same
    number, it logs in to that account. *)
Theorem handleLogin_registers_then_logs_in dom ss phone input now input' now' :
  db_ok (db (app ss)) = true ->
  1 <= keys_left (db (app ss)) "users" ->
  Utils.isValidPhone (VStr phone) = true ->
  getByIndex (db (app ss)) "users" "phone_number" (VStr phone) = Ok [] ->
  exists user ss1 user' ss2,
    App.handleLogin dom ss (VStr phone) input now =
    (Some (Success user), ss1) /\
    field user "phone_number" = VStr phone /\
    currentUser (app ss1) = Some user /\
    get (db (app ss)) "users" (field user "id") = Ok None /\
    App.handleLogin dom ss1 (VStr phone) input' now' =
    (Some (Success user'), ss2) /\
    field user' "id" = field user "id" /\
    currentUser (app ss2) = Some user'.
Proof.
  intros Hok _ Hv Hnone.
  assert (Ht : truthy (VStr phone) = true).
  { destruct phone; [vm_compute in Hv; discriminate | reflexivity]. }
  set (userData := object [("phone_number", VStr phone)]).
  assert (Hphone : field userData "phone_number" = VStr phone)
    by (unfold userData; read_object).
  assert (Hemail : truthy (field userData "email") = false).
  { unfold userData. cbn [object]. rewrite field_set_ne by congruence.
    reflexivity. }
  destruct (register_succeeds
              {| app := app ss; preferences := preferences ss |}
              userData phone now Hok Hphone Ht Hv Hemail Hnone)
    as (user & ss1 & Hreg).
  destruct (register_inv _ _ _ _ _ _ Hphone Hreg)
    as (_ & _ & _ & Hvk & Hup & Hcur & Hnew & st' & Hst' & Hone & Hothers).
  destruct (login_finds_the_user (app ss1) st' user phone now'
              Ht Hv Hvk Hup Hst' Hone Hothers)
    as (user' & s2 & Hlogin & Hid' & _ & _ & Hcur' & _).
  exists user, ss1, user', {| app := s2; preferences := preferences ss1 |}.
  assert (Hfirst : App.handleLogin dom ss (VStr phone) input now =
                   (Some (Success user), ss1)).
  { unfold App.handleLogin. rewrite Ht. cbn [negb].
    unfold UserManager.login at 1. rewrite Ht, Hv. cbn [negb orb].
    rewrite Hnone.
    change (App.includes
              (App.message dom
                 (JsError "User not found. Please register first."))
              "not found") with true.
    cbn iota. fold userData. rewrite Hreg. reflexivity. }
  assert (Hsecond : App.handleLogin dom ss1 (VStr phone) input' now' =
                    (Some (Success user'),
                     {| app := s2; preferences := preferences ss1 |})).
  { unfold App.handleLogin. rewrite Ht. cbv zeta. cbn iota.
    rewrite Ht. cbn [negb]. rewrite Hlogin. reflexivity. }
  split; [exact Hfirst|]. split; [exact Hup|]. split; [exact Hcur|].
  split; [exact Hnew|]. split; [exact Hsecond|]. split; [exact Hid'|].
  exact Hcur'.
Qed.

Lemma handleLogin_registers_then_logs_in_witness :
  let dom := fun _ : exception => "The operation failed" in
  exists user ss1 user' ss2,
    App.handleLogin dom Cases.session (VStr "5551234567") VUndef "t1" =
    (Some (Success user), ss1) /\
    field user "phone_number" = VStr "5551234567" /\
    currentUser (app ss1) = Some user /\
    get (db (app Cases.session)) "users" (field user "id") = Ok None /\
    App.handleLogin dom ss1 (VStr "5551234567") VUndef "t2" =
    (Some (Success user'), ss2) /\
    field user' "id" = field user "id" /\
    currentUser (app ss2) = Some user'.
Proof.
  intros dom.
  apply (handleLogin_registers_then_logs_in
           dom Cases.session "5551234567" VUndef "t1" VUndef "t2").
  - vm_compute. reflexivity.
  - vm_compute. discriminate.
  - vm_compute. reflexivity.
  - vm_compute. reflexivity.
Defined.

(** ** ContactsManager *)

Section ContactsByPriority.

Lemma lower_priority_asym a b :
  ContactsManager.lower_priority a b = true ->
  ContactsManager.lower_priority b a = false.
Proof.
  unfold ContactsManager.lower_priority.
  destruct (ToNumber (field b "priority")) as [pb|],
           (ToNumber (field a "priority")) as [pa|]; try discriminate.
  intros H. apply negb_true_iff in H. apply negb_false_iff.
  apply Qle_bool_iff.
  assert (Hlt : (0 < pb - pa)%Q).
  { apply Qnot_le_lt. intros Hle. apply Qle_bool_iff in Hle. congruence. }
  Lqa.lra.
Qed.

Lemma lower_priority_trans a b c :
  ToNumber (field a "priority") <> None ->
  ToNumber (field b "priority") <> None ->
  ToNumber (field c "priority") <> None ->
  ContactsManager.lower_priority a b = false ->
  ContactsManager.lower_priority b c = false ->
  ContactsManager.lower_priority a c = false.
Proof.
  unfold ContactsManager.lower_priority.
  destruct (ToNumber (field a "priority")) as [pa|],
           (ToNumber (field b "priority")) as [pb|],
           (ToNumber (field c "priority")) as [pc|]; try congruence.
  intros _ _ _. rewrite !negb_false_iff, !Qle_bool_iff.
  intros H1 H2. Lqa.lra.
Qed.

End ContactsByPriority.

(** X20.  [getContacts] returns the contacts of the current user, all of
    them and only them, in descending order of priority (for priorities
    that are numbers); [getActiveContacts] keeps of these the ones whose
    [is_active] is true, in the same order. *)
Theorem getContacts_by_priority s user st :
  currentUser s = Some user ->
  valid_key (field user "id") = true ->
  db s !! "emergency_contacts" = Some st ->
  let mine :=
    List.filter (fun o => key_eqb (field o "user_id") (field user "id"))
                (store_getAll st) in
  (forall o, In o mine -> ToNumber (field o "priority") <> None) ->
  Permutation (ContactsManager.getContacts s) mine /\
  StronglySorted
    (fun a b =>
       match ToNumber (field a "priority"), ToNumber (field b "priority") with
       | Some pa, Some pb => (pb <= pa)%Q
       | _, _ => False
       end) (ContactsManager.getContacts s) /\
  (forall o, In o (ContactsManager.getActiveContacts s) <->
             In o mine /\ truthy (field o "is_active") = true).
Proof.
  intros Huser Hvalid Hst mine Hnum.
  assert (Hres : ContactsManager.getContacts s =
                 sort ContactsManager.lower_priority mine).
  { unfold ContactsManager.getContacts.
    rewrite Huser, (getByIndex_key _ _ _ st)
      by (exact Hst || reflexivity || exact Hvalid).
    reflexivity. }
  split; [rewrite Hres; apply sort_perm|]. split.
  - rewrite Hres.
    apply (StronglySorted_impl_in
             (fun a b => ContactsManager.lower_priority a b = false)).
    + intros a b Ha Hb.
      apply (proj1 (sort_in _ _ _)) in Ha. apply (proj1 (sort_in _ _ _)) in Hb.
      pose proof (Hnum a Ha) as Hna. pose proof (Hnum b Hb) as Hnb.
      unfold ContactsManager.lower_priority.
      destruct (ToNumber (field a "priority")) as [pa|]; [|congruence].
      destruct (ToNumber (field b "priority")) as [pb|]; [|congruence].
      rewrite negb_false_iff, Qle_bool_iff. intros H. Lqa.lra.
    + apply (sort_sorted _ (fun o => ToNumber (field o "priority") <> None)).
      * apply lower_priority_asym.
      * apply lower_priority_trans.
      * apply List.Forall_forall. exact Hnum.
  - intros o. unfold ContactsManager.getActiveContacts.
    rewrite filter_In, Hres, (sort_in ContactsManager.lower_priority).
    reflexivity.
Qed.

Lemma getContacts_by_priority_witness :
  let s := Cases.with_contacts in
  let st := Scenario.the_store (db s) "emergency_contacts" in
  let mine :=
    List.filter (fun o => key_eqb (field o "user_id") (field Cases.user1 "id"))
                (store_getAll st) in
  List.map (fun o => field o "name") (ContactsManager.getContacts s) =
  [VStr "Sister"; VStr "Friend"; VStr "Mother"] /\
  Permutation (ContactsManager.getContacts s) mine /\
  StronglySorted
    (fun a b =>
       match ToNumber (field a "priority"), ToNumber (field b "priority") with
       | Some pa, Some pb => (pb <= pa)%Q
       | _, _ => False
       end) (ContactsManager.getContacts s) /\
  (forall o, In o (ContactsManager.getActiveContacts s) <->
             In o mine /\ truthy (field o "is_active") = true).
Proof.
  intros s st mine. split; [vm_compute; reflexivity|].
  apply (getContacts_by_priority s Cases.user1 st).
  - reflexivity.
  - vm_compute. reflexivity.
  - apply has_store_the_store. vm_compute. reflexivity.
  - intros o Ho.
    assert (Hall : forallb (fun o => match ToNumber (field o "priority") with
                                     | Some _ => true
                                     | None => false
                                     end) mine = true)
      by (vm_compute; reflexivity).
    rewrite forallb_forall in Hall. specialize (Hall o Ho).
    destruct (ToNumber (field o "priority")); congruence.
Defined.

Lemma contacts_no_clash k (o : obj) rs :
  clash (indexes_of "emergency_contacts") k o rs = false.
Proof. reflexivity. Qed.

(** X21.  [toggleContact] is its own inverse: on a well-formed database,
    for a stored contact whose [is_active] is a boolean, a first call
    stores the contact with [is_active] negated, and a second call stores
    the contact exactly as it was. *)
Theorem toggleContact_twice s contactId contact b :
  db_ok (db s) = true ->
  get (db s) "emergency_contacts" contactId = Ok (Some contact) ->
  field contact "is_active" = VBool b ->
  exists c1 s1 s2,
    ContactsManager.toggleContact s contactId = (Success c1, s1) /\
    field c1 "is_active" = VBool (negb b) /\
    get (db s1) "emergency_contacts" contactId = Ok (Some c1) /\
    ContactsManager.toggleContact s1 contactId = (Success contact, s2) /\
    get (db s2) "emergency_contacts" contactId = Ok (Some contact).
Proof.
  intros Hok Hget Hactive.
  set (c1 := <["is_active" := VBool (negb b)]> contact).
  destruct (get_inv _ _ _ _ Hget) as (st & Hst & Hvid & Hfind).
  destruct (db_ok_lookup _ "emergency_contacts" Hok)
    as (st0 & Hst0 & Hst_ok); [vm_compute; congruence|].
  assert (st0 = st) by congruence. subst st0.
  destruct (update_after_get (db s) "emergency_contacts" st contactId
              contact c1 Hst Hst_ok Hvid Hfind)
    as (db1 & Hup1 & Hget1 & _);
    [apply field_insert_ne; congruence | apply contacts_no_clash |].
  pose proof (db_ok_update _ _ _ _ _ Hok Hup1) as Hok1.
  destruct (get_inv _ _ _ _ Hget1) as (st1 & Hst1 & _ & Hfind1).
  destruct (db_ok_lookup _ "emergency_contacts" Hok1)
    as (st2 & Hst2 & Hst1_ok); [vm_compute; congruence|].
  assert (st2 = st1) by congruence. subst st2.
  assert (Hback : <["is_active" := VBool b]> c1 = contact).
  { unfold c1. rewrite insert_insert_eq. apply insert_id.
    unfold field in Hactive.
    destruct (contact !! "is_active") as [v|]; [congruence | discriminate]. }
  destruct (update_after_get db1 "emergency_contacts" st1 contactId
              c1 contact Hst1 Hst1_ok Hvid Hfind1)
    as (db2 & Hup2 & Hget2 & _);
    [symmetry; apply field_insert_ne; congruence
    | apply contacts_no_clash |].
  exists c1, (with_db s db1), (with_db (with_db s db1) db2).
  split; [|split; [apply field_insert_eq|split; [exact Hget1|split]]].
  - unfold ContactsManager.toggleContact. rewrite Hget, Hactive.
    cbn [truthy set_field]. fold c1. rewrite Hup1. reflexivity.
  - unfold ContactsManager.toggleContact. cbn [db with_db].
    rewrite Hget1.
    replace (field c1 "is_active") with (VBool (negb b))
      by (symmetry; apply field_insert_eq).
    cbn [truthy set_field]. rewrite negb_involutive, Hback.
    replace (field c1 "id") with (field contact "id") in Hup2
      by (symmetry; apply field_insert_ne; congruence).
    rewrite Hup2. reflexivity.
  - exact Hget2.
Qed.

Lemma toggleContact_twice_witness :
  let s := Cases.with_contacts in
  let contact :=
    Scenario.the_record (get (db s) "emergency_contacts" (VNum 1)) in
  field contact "name" = VStr "Mother" /\
  exists c1 s1 s2,
    ContactsManager.toggleContact s (VNum 1) = (Success c1, s1) /\
    field c1 "is_active" = VBool (negb true) /\
    get (db s1) "emergency_contacts" (VNum 1) = Ok (Some c1) /\
    ContactsManager.toggleContact s1 (VNum 1) = (Success contact, s2) /\
    get (db s2) "emergency_contacts" (VNum 1) = Ok (Some contact).
Proof.
  intros s contact. split; [vm_compute; reflexivity|].
  apply (toggleContact_twice s (VNum 1) contact true).
  - vm_compute. reflexivity.
  - apply found_the_record. vm_compute. reflexivity.
  - vm_compute. reflexivity.
Defined.

(** ** EvidenceManager *)



Section EvidenceList.

Variable Date_parse : string -> option Z.

Lemma created_before_asym a b :
  EvidenceManager.created_before Date_parse a b = true ->
  EvidenceManager.created_before Date_parse b a = false.
Proof.
  unfold EvidenceManager.created_before.
  destruct (LocationManager.Date_of _ (field b "created_at")) as [tb|],
           (LocationManager.Date_of _ (field a "created_at")) as [ta|];
    try discriminate.
  intros H. apply Z.ltb_lt in H. apply Z.ltb_ge. lia.
Qed.

Lemma created_before_trans a b c :
  LocationManager.Date_of Date_parse (field a "created_at") <> None ->
  LocationManager.Date_of Date_parse (field b "created_at") <> None ->
  LocationManager.Date_of Date_parse (field c "created_at") <> None ->
  EvidenceManager.created_before Date_parse a b = false ->
  EvidenceManager.created_before Date_parse b c = false ->
  EvidenceManager.created_before Date_parse a c = false.
Proof.
  unfold EvidenceManager.created_before.
  destruct (LocationManager.Date_of _ (field a "created_at")) as [ta|],
           (LocationManager.Date_of _ (field b "created_at")) as [tb|],
           (LocationManager.Date_of _ (field c "created_at")) as [tc|];
    try congruence.
  intros _ _ _. rewrite !Z.ltb_ge. lia.
Qed.

End EvidenceList.

(** X23.  [getEvidenceList] returns the evidence of the current user,
    newest first by [created_at] (for valid dates); with a type given (a
    truthy [filterType]) exactly the user's records of that type, and with
    none (omitted, [null] or the empty string) all of the user's
    records. *)
Theorem getEvidenceList_filters_by_type Date_parse s user st filterType :
  currentUser s = Some user ->
  valid_key (field user "id") = true ->
  db s !! "evidence" = Some st ->
  let mine :=
    List.filter (fun o => key_eqb (field o "user_id") (field user "id"))
                (store_getAll st) in
  (forall o, In o mine ->
             LocationManager.Date_of Date_parse (field o "created_at")
             <> None) ->
  let result := EvidenceManager.getEvidenceList Date_parse s filterType in
  (forall e, In e result <->
             In e mine /\
             (truthy filterType = true ->
              strict_eq (field e "type") filterType = true)) /\
  (truthy filterType = false -> Permutation result mine) /\
  StronglySorted
    (fun a b =>
       match LocationManager.Date_of Date_parse (field a "created_at"),
             LocationManager.Date_of Date_parse (field b "created_at") with
       | Some ta, Some tb => tb <= ta
       | _, _ => False
       end) result.
Proof.
  intros Huser Hvalid Hst mine Hdates result.
  set (wanted := if truthy filterType
                 then List.filter
                        (fun e => strict_eq (field e "type") filterType) mine
                 else mine).
  assert (Hres : result =
                 sort (EvidenceManager.created_before Date_parse) wanted).
  { unfold result, EvidenceManager.getEvidenceList.
    rewrite Huser, (getByIndex_key _ _ _ st)
      by (exact Hst || reflexivity || exact Hvalid).
    fold mine. unfold wanted. destruct filterType; reflexivity. }
  assert (Hwanted : forall e, In e wanted <->
                      In e mine /\
                      (truthy filterType = true ->
                       strict_eq (field e "type") filterType = true)).
  { intros e. unfold wanted. destruct (truthy filterType).
    - rewrite filter_In. tauto.
    - split; [intros H; split; [exact H | discriminate] | tauto]. }
  split; [|split].
  - intros e. rewrite Hres, (sort_in _ wanted). apply Hwanted.
  - intros Hf. rewrite Hres. unfold wanted. rewrite Hf. apply sort_perm.
  - rewrite Hres.
    assert (Hd : forall o, In o wanted ->
                LocationManager.Date_of Date_parse (field o "created_at")
                <> None)
      by (intros o Ho; apply Hdates; apply Hwanted; exact Ho).
    apply (StronglySorted_impl_in
             (fun a b => EvidenceManager.created_before Date_parse a b
                         = false)).
    + intros a b Ha Hb.
      apply (proj1 (sort_in _ _ _)) in Ha.
      apply (proj1 (sort_in _ _ _)) in Hb.
      pose proof (Hd a Ha) as Hna. pose proof (Hd b Hb) as Hnb.
      unfold EvidenceManager.created_before.
      destruct (LocationManager.Date_of _ (field a "created_at")) as [ta|];
        [|congruence].
      destruct (LocationManager.Date_of _ (field b "created_at")) as [tb|];
        [|congruence].
      rewrite Z.ltb_ge. lia.
    + apply (sort_sorted _
               (fun o => LocationManager.Date_of Date_parse
                           (field o "created_at") <> None)).
      * apply created_before_asym.
      * apply created_before_trans.
      * apply List.Forall_forall. exact Hd.
Qed.

Lemma getEvidenceList_filters_by_type_witness :
  let s := Scenario.account in
  let user := Cases.user1 in
  let st := Scenario.the_store (db s) "evidence" in
  let mine :=
    List.filter (fun o => key_eqb (field o "user_id") (field user "id"))
                (store_getAll st) in
  let result :=
    EvidenceManager.getEvidenceList Scenario.Date_parse s (VStr "photo") in
  List.map (fun e => field e "type") result = [VStr "photo"] /\
  (forall e, In e result <->
             In e mine /\
             (truthy (VStr "photo") = true ->
              strict_eq (field e "type") (VStr "photo") = true)) /\
  (truthy (VStr "photo") = false -> Permutation result mine) /\
  StronglySorted
    (fun a b =>
       match LocationManager.Date_of Scenario.Date_parse
                                     (field a "created_at"),
             LocationManager.Date_of Scenario.Date_parse
                                     (field b "created_at") with
       | Some ta, Some tb => tb <= ta
       | _, _ => False
       end) result.
Proof.
  intros s user st mine result. split; [vm_compute; reflexivity|].
  apply (getEvidenceList_filters_by_type
           Scenario.Date_parse s user st (VStr "photo")).
  - reflexivity.
  - vm_compute. reflexivity.
  - apply has_store_the_store. vm_compute. reflexivity.
  - assert (Hall : forallb
                     (fun o => match LocationManager.Date_of
                                       Scenario.Date_parse
                                       (field o "created_at") with
                               | Some _ => true
                               | None => false
                               end) mine = true)
      by (vm_compute; reflexivity).
    rewrite forallb_forall in Hall. intros o Ho Hnone.
    specialize (Hall o Ho). cbv beta in Hall. rewrite Hnone in Hall.
    exact (diff_false_true Hall).
Defined.

(** ** Utils.timeAgo *)

(** X24.  What [timeAgo] writes for a date given as a string that parses
    to a time [seconds] whole seconds before the call: "Just now" below
    one minute (also for a date in the future), and else the number of
    whole units of the largest unit that has passed once, a month being 30
    days and a year 365 days. *)
Theorem timeAgo_by_unit Date_parse now date t :
  date <> "" ->
  Date_parse date = Some t ->
  let seconds := (now - t) / 1000 in
  let result := UtilsDate.timeAgo Date_parse now (VStr date) in
  (seconds < 60 -> result = "Just now") /\
  (60 <= seconds < 3600 -> result = ago (seconds / 60) "minute") /\
  (3600 <= seconds < 86400 -> result = ago (seconds / 3600) "hour") /\
  (86400 <= seconds < 604800 -> result = ago (seconds / 86400) "day") /\
  (604800 <= seconds < 2592000 -> result = ago (seconds / 604800) "week") /\
  (2592000 <= seconds < 31536000 ->
   result = ago (seconds / 2592000) "month") /\
  (31536000 <= seconds -> result = ago (seconds / 31536000) "year").
Proof.
  intros Hdate Hparse seconds result.
  assert (Htruthy : truthy (VStr date) = true).
  { simpl. destruct (String.eqb_spec date ""); [contradiction | reflexivity]. }
  assert (Hres : result =
                 UtilsDate.first_interval seconds UtilsDate.intervals).
  { unfold result, UtilsDate.timeAgo. rewrite Htruthy.
    cbn [negb LocationManager.Date_of]. rewrite Hparse. reflexivity. }
  rewrite Hres. clearbody seconds. clear Hres.
  unfold UtilsDate.intervals. cbn [UtilsDate.first_interval]. fold ago.
  assert (Hbelow : forall u, 0 < u -> seconds < u ->
                             (1 <=? seconds / u) = false).
  { intros u Hu Hlt. apply Z.leb_gt. apply Z.div_lt_upper_bound; lia. }
  assert (Hreached : forall u, 0 < u -> u <= seconds ->
                               (1 <=? seconds / u) = true).
  { intros u Hu Hle. apply Z.leb_le. apply Z.div_le_lower_bound; lia. }
  repeat split; intros Hrange.
  - rewrite !Hbelow by lia. reflexivity.
  - rewrite (Hreached 60), !Hbelow by lia. reflexivity.
  - rewrite (Hreached 3600), !Hbelow by lia. reflexivity.
  - rewrite (Hreached 86400), !Hbelow by lia. reflexivity.
  - rewrite (Hreached 604800), !Hbelow by lia. reflexivity.
  - rewrite (Hreached 2592000), !Hbelow by lia. reflexivity.
  - rewrite (Hreached 31536000) by lia. reflexivity.
Qed.

(** 360 days after the date: twelve months, not yet a year. *)
Lemma timeAgo_by_unit_witness :
  let now := 1714557600000 + 360 * 86400 * 1000 in
  let seconds := (now - 1714557600000) / 1000 in
  (2592000 <= seconds < 31536000) /\
  UtilsDate.timeAgo Scenario.Date_parse now (VStr Scenario.t0) =
  "12 months ago".
Proof.
  intros now seconds.
  assert (Hrange : 2592000 <= seconds < 31536000)
    by (vm_compute; split; congruence).
  split; [exact Hrange|].
  destruct (timeAgo_by_unit Scenario.Date_parse now Scenario.t0
                            1714557600000)
    as (_ & _ & _ & _ & _ & Hmonth & _).
  - discriminate.
  - reflexivity.
  - rewrite (Hmonth Hrange). vm_compute. reflexivity.
Defined.

(** ** APIService: the queue across a reload *)

(** X25.  The stored queue does not survive a reload followed by an
    offline failure: [addToOfflineQueue] stores the queue of the new
    service, which starts empty, over what [localStorage] held.  Whatever
    queue was stored, after the first request of the reloaded service has
    failed offline the stored queue is that request alone, and
    [processOfflineQueue] then sends only it: no request of the old queue
    is handed to [fetch]. *)
Theorem reload_then_offline_failure_drops_the_stored_queue
        network (queue : list APIService.Request) r message :
  network 0%nat = APIService.Fails message false ->
  let a := APIService.constructor (Some queue) in
  let out := APIService.request network a r in
  let synced := APIService.processOfflineQueue network (snd out) in
  fst out = APIService.Refused message /\
  APIService.pending (snd out) = [r] /\
  APIService.fetched (snd synced) = [r; r] /\
  (forall old, In old queue -> old <> r ->
               ~ In old (APIService.fetched (snd synced))).
Proof.
  intros Hnet a out synced.
  assert (Hout : out =
                 (APIService.Refused message,
                  {| APIService.offlineQueue := [r];
                     APIService.stored := Some [r];
                     APIService.fetched := [r] |})).
  { unfold out, APIService.request, a, APIService.constructor.
    cbn [APIService.fetched List.length]. rewrite Hnet. reflexivity. }
  assert (Hsynced : APIService.fetched (snd synced) = [r; r]).
  { unfold synced. rewrite Hout. cbn [snd].
    unfold APIService.processOfflineQueue.
    cbn [APIService.stored APIService.replay].
    unfold APIService.request. cbn [APIService.fetched List.length].
    destruct (network 1%nat) as [data | message' onLine];
      [reflexivity|]. destruct onLine; reflexivity. }
  rewrite Hsynced, Hout. cbn [fst snd].
  split; [reflexivity|]. split; [reflexivity|]. split; [reflexivity|].
  intros old _ Hne [H | [H | []]]; congruence.
Qed.

Lemma reload_then_offline_failure_drops_the_stored_queue_witness :
  let network := fun n : nat =>
    match n with
    | O => APIService.Fails "Failed to fetch" false
    | _ => APIService.Responds "{}"
    end in
  let a := APIService.constructor
             (Some [Scenario.post "first"; Scenario.post "second"]) in
  let out := APIService.request network a (Scenario.post "third") in
  let synced := APIService.processOfflineQueue network (snd out) in
  fst out = APIService.Refused "Failed to fetch" /\
  APIService.pending (snd out) = [Scenario.post "third"] /\
  APIService.fetched (snd synced) =
  [Scenario.post "third"; Scenario.post "third"] /\
  (forall old,
      In old [Scenario.post "first"; Scenario.post "second"] ->
      old <> Scenario.post "third" ->
      ~ In old (APIService.fetched (snd synced))).
Proof.
  intros network.
  apply (reload_then_offline_failure_drops_the_stored_queue
           network [Scenario.post "first"; Scenario.post "second"]
           (Scenario.post "third") "Failed to fetch").
  reflexivity.
Defined.

(** ** Utils.isValidPhone and Utils.isValidEmail *)

Section RegexSound.

Lemma nullable_lang r : Regex.nullable r = true -> lang r "".
Proof.
  induction r as [| | class | r1 IH1 r2 IH2 | r1 IH1 r2 IH2 | r IH]; simpl;
    try discriminate.
  - intros _. constructor.
  - intros H. apply andb_true_iff in H. destruct H as [H1 H2].
    change "" with ("" ++ ""). constructor; auto.
  - intros H. apply orb_true_iff in H.
    destruct H as [H | H]; [apply lang_alt_l | apply lang_alt_r]; auto.
  - intros _. constructor.
Qed.

Lemma derive_lang r : forall c s,
  lang (Regex.derive c r) s -> lang r (String c s).
Proof.
  induction r as [| | class | r1 IH1 r2 IH2 | r1 IH1 r2 IH2 | r IH];
    intros c s H; simpl in H.
  - inversion H.
  - inversion H.
  - destruct (class c) eqn:E; inversion H; subst. constructor. exact E.
  - assert (Hseq : forall s, lang (Regex.Seq (Regex.derive c r1) r2) s ->
                             lang (Regex.Seq r1 r2) (String c s)).
    { intros s0 H0. inversion H0; subst.
      change (String c (s1 ++ s2)) with (String c s1 ++ s2).
      constructor; auto. }
    destruct (Regex.nullable r1) eqn:E; [|auto].
    inversion H; subst; [auto|].
    change (String c s) with ("" ++ String c s).
    constructor; [apply nullable_lang; exact E | auto].
  - inversion H; subst; [apply lang_alt_l | apply lang_alt_r]; auto.
  - inversion H; subst.
    change (String c (s1 ++ s2)) with (String c s1 ++ s2).
    constructor; auto.
Qed.

(** Every string that the matcher accepts is a string of the regular
    expression. *)
Lemma matches_lang s : forall r, Regex.matches r s = true -> lang r s.
Proof.
  induction s as [|c rest IH]; intros r H; simpl in H.
  - apply nullable_lang. exact H.
  - apply derive_lang. apply IH. exact H.
Qed.

Lemma count_chars_append p s1 s2 :
  count_chars p (s1 ++ s2) = (count_chars p s1 + count_chars p s2)%nat.
Proof. induction s1 as [|c rest IH]; simpl; [reflexivity|]. rewrite IH. lia. Qed.

Lemma count_any_char s : count_chars any_char s = String.length s.
Proof. induction s as [|c rest IH]; simpl; congruence. Qed.

Ltac use_bounds :=
  repeat match goal with
         | IH : forall s, lang ?r s -> _, Hl : lang ?r _ |- _ =>
             specialize (IH _ Hl)
         end.

Lemma at_least_count p r n :
  at_least p r n -> forall s, lang r s -> (n <= count_chars p s)%nat.
Proof.
  induction 1 as [r | class Hc | r1 r2 a b _ IH1 _ IH2 | r1 r2 a b _ IH1 _ IH2];
    intros s Hs.
  - lia.
  - inversion Hs; subst. simpl. rewrite (Hc c) by assumption. lia.
  - inversion Hs; subst. rewrite count_chars_append. use_bounds. lia.
  - inversion Hs; subst; use_bounds; lia.
Qed.

Lemma star_count_zero p r :
  (forall s, lang r s -> (count_chars p s <= 0)%nat) ->
  forall s, lang (Regex.Star r) s -> (count_chars p s <= 0)%nat.
Proof.
  intros Hr s Hs. remember (Regex.Star r) as r0 eqn:E.
  induction Hs; try discriminate.
  - simpl. lia.
  - injection E as ->. rewrite count_chars_append.
    specialize (IHHs2 eq_refl). use_bounds. lia.
Qed.

Lemma at_most_count p r n :
  at_most p r n -> forall s, lang r s -> (count_chars p s <= n)%nat.
Proof.
  induction 1 as [ | | class | class Hc | r1 r2 a b _ IH1 _ IH2
                   | r1 r2 a b _ IH1 _ IH2 | r _ IH ];
    intros s Hs.
  - inversion Hs.
  - inversion Hs; subst. simpl. lia.
  - inversion Hs; subst. simpl. destruct (p c); lia.
  - inversion Hs; subst. simpl. rewrite (Hc c) by assumption. lia.
  - inversion Hs; subst. rewrite count_chars_append. use_bounds. lia.
  - inversion Hs; subst; use_bounds; lia.
  - apply (star_count_zero p r IH). exact Hs.
Qed.

End RegexSound.

(** Reading the bounds off the syntax of a regular expression. *)
Ltac least solve_class :=
  lazymatch goal with
  | |- at_least _ (Regex.Seq _ _) _ => eapply al_seq; [least solve_class | least solve_class]
  | |- at_least _ (Regex.Alt _ _) _ => eapply al_alt; [least solve_class | least solve_class]
  | |- at_least _ (Regex.Chars _) _ =>
      first [ apply al_chars; solve [solve_class] | apply al_zero ]
  | |- at_least _ _ _ => apply al_zero
  end.

Ltac most solve_class :=
  lazymatch goal with
  | |- at_most _ (Regex.Seq _ _) _ => eapply am_seq; [most solve_class | most solve_class]
  | |- at_most _ (Regex.Alt _ _) _ => eapply am_alt; [most solve_class | most solve_class]
  | |- at_most _ (Regex.Star _) _ => apply am_star; most solve_class
  | |- at_most _ (Regex.Chars _) _ =>
      first [ apply am_chars_none; solve [solve_class] | apply am_chars ]
  | |- at_most _ Regex.Empty _ => apply am_empty
  | |- at_most _ Regex.Never _ => apply am_never
  end.

(** A class of characters is settled by trying the 256 characters. *)
Ltac by_cases_on_the_character :=
  let c := fresh "c" in
  intros c; destruct c as [[] [] [] [] [] [] [] []]; vm_compute; congruence.

Ltac solve_class :=
  first [ exact (fun c H => H)
        | intros ? _; reflexivity
        | by_cases_on_the_character ].

Ltac unfold_regex :=
  cbv [Utils.phoneRegex Utils.emailRegex Regex.Opt Regex.Plus Regex.Times
       Regex.Between Regex.UpTo Nat.sub].

Lemma phone_bounds :
  (exists n, at_least any_char Utils.phoneRegex n /\ (10 <= n)%nat) /\
  (exists n, at_most any_char Utils.phoneRegex n /\ (n <= 17)%nat) /\
  (exists n, at_least Regex.digit Utils.phoneRegex n /\ (10 <= n)%nat) /\
  (exists n, at_most Regex.digit Utils.phoneRegex n /\ (n <= 12)%nat) /\
  (exists n, at_most (fun c => negb (phone_char c)) Utils.phoneRegex n /\
             (n <= 0)%nat).
Proof.
  repeat split; eexists; split.
  all: try (unfold_regex; first [least solve_class | most solve_class]).
  all: vm_compute; lia.
Qed.

(** X26.  The phone numbers that [isValidPhone] accepts: a string that it
    accepts has 10 to 17 characters, 10 to 12 of them digits, and no
    character other than digits, [+], [(], [)], [-], [.] and white
    space. *)
Theorem isValidPhone_shape phone :
  Utils.isValidPhone (VStr phone) = true ->
  (10 <= String.length phone <= 17)%nat /\
  (10 <= count_chars Regex.digit phone <= 12)%nat /\
  count_chars (fun c => negb (phone_char c)) phone = 0%nat.
Proof.
  intros H. apply matches_lang in H.
  destruct phone_bounds
    as ((n1 & L1 & B1) & (n2 & L2 & B2) & (n3 & L3 & B3) & (n4 & L4 & B4)
        & (n5 & L5 & B5)).
  pose proof (at_least_count _ _ _ L1 _ H) as C1.
  pose proof (at_most_count _ _ _ L2 _ H) as C2.
  pose proof (at_least_count _ _ _ L3 _ H) as C3.
  pose proof (at_most_count _ _ _ L4 _ H) as C4.
  pose proof (at_most_count _ _ _ L5 _ H) as C5.
  rewrite count_any_char in C1, C2. lia.
Qed.

Lemma isValidPhone_shape_witness :
  let phone := "(555) 123-4567" in
  (10 <= String.length phone <= 17)%nat /\
  (10 <= count_chars Regex.digit phone <= 12)%nat /\
  count_chars (fun c => negb (phone_char c)) phone = 0%nat.
Proof.
  intros phone. apply (isValidPhone_shape phone). vm_compute. reflexivity.
Defined.

Lemma email_bounds :
  (exists n, at_least (Regex.char "@") Utils.emailRegex n /\ (1 <= n)%nat) /\
  (exists n, at_most (Regex.char "@") Utils.emailRegex n /\ (n <= 1)%nat) /\
  (exists n, at_most Regex.space Utils.emailRegex n /\ (n <= 0)%nat) /\
  (exists n, at_least (Regex.char ".") Utils.emailRegex n /\ (1 <= n)%nat) /\
  (exists n, at_least any_char Utils.emailRegex n /\ (5 <= n)%nat).
Proof.
  repeat split; eexists; split.
  all: try (unfold_regex; first [least solve_class | most solve_class]).
  all: vm_compute; lia.
Qed.

(** X27.  The addresses that [isValidEmail] accepts: a string that it
    accepts has exactly one [@], no white space, at least one [.] and at
    least 5 characters. *)
Theorem isValidEmail_shape email :
  Utils.isValidEmail (VStr email) = true ->
  count_chars (Regex.char "@") email = 1%nat /\
  count_chars Regex.space email = 0%nat /\
  (1 <= count_chars (Regex.char ".") email)%nat /\
  (5 <= String.length email)%nat.
Proof.
  intros H. apply matches_lang in H.
  destruct email_bounds
    as ((n1 & L1 & B1) & (n2 & L2 & B2) & (n3 & L3 & B3) & (n4 & L4 & B4)
        & (n5 & L5 & B5)).
  pose proof (at_least_count _ _ _ L1 _ H) as C1.
  pose proof (at_most_count _ _ _ L2 _ H) as C2.
  pose proof (at_most_count _ _ _ L3 _ H) as C3.
  pose proof (at_least_count _ _ _ L4 _ H) as C4.
  pose proof (at_least_count _ _ _ L5 _ H) as C5.
  rewrite count_any_char in C5. lia.
Qed.

Lemma isValidEmail_shape_witness :
  let email := "asha@example.org" in
  count_chars (Regex.char "@") email = 1%nat /\
  count_chars Regex.space email = 0%nat /\
  (1 <= count_chars (Regex.char ".") email)%nat /\
  (5 <= String.length email)%nat.
Proof.
  intros email. apply (isValidEmail_shape email). vm_compute. reflexivity.
Defined.

(** ** CommunityManager.getNearbyResponders and sendHelpRequest *)


(** ** UserManager.getUserStats *)

Lemma length_sort {A : Type} (gt : A -> A -> bool) (l : list A) :
  List.length (sort gt l) = List.length l.
Proof. apply Permutation_length. apply sort_perm. Qed.

(** X29.  The statistics agree with the lists: the four numbers of
    [getUserStats] are the lengths of what [getEvidenceList] (without a
    type), [getAlertHistory], [getContacts] and [getLocationHistory] with
    the limit 0 return for the same user; with its default limit
    [getLocationHistory] returns 100 of the locations counted when there
    are more. *)
Theorem getUserStats_agrees_with_the_lists Date_parse s stats :
  UserManager.getUserStats s = Some stats ->
  UserManager.evidenceCount stats =
  List.length (EvidenceManager.getEvidenceList Date_parse s VNull) /\
  UserManager.sosAlertsCount stats =
  List.length (SOSManager.getAlertHistory Date_parse s) /\
  UserManager.contactsCount stats =
  List.length (ContactsManager.getContacts s) /\
  UserManager.locationCount stats =
  List.length (LocationManager.getLocationHistory Date_parse s (Some 0)) /\
  List.length (LocationManager.getLocationHistory Date_parse s None) =
  Nat.min 100 (UserManager.locationCount stats).
Proof.
  unfold UserManager.getUserStats. intros H.
  destruct (currentUser s) as [user|] eqn:Huser; [|discriminate].
  destruct (getByIndex (db s) "evidence" _ _) as [evidence|] eqn:He;
    [|discriminate].
  destruct (getByIndex (db s) "sos_alerts" _ _) as [alerts|] eqn:Ha;
    [|discriminate].
  destruct (getByIndex (db s) "emergency_contacts" _ _) as [contacts|] eqn:Hc;
    [|discriminate].
  destruct (getByIndex (db s) "location_history" _ _) as [locations|] eqn:Hl;
    [|discriminate].
  injection H as <-. cbn [UserManager.evidenceCount UserManager.sosAlertsCount
                          UserManager.contactsCount UserManager.locationCount].
  unfold EvidenceManager.getEvidenceList, SOSManager.getAlertHistory,
    ContactsManager.getContacts, LocationManager.getLocationHistory.
  rewrite Huser, He, Ha, Hc, Hl. cbn [truthy negb Z.eqb].
  rewrite !length_sort. repeat split.
  unfold slice0. cbn [Z.leb Z.compare]. change (Z.to_nat 100) with 100%nat.
  rewrite length_firstn, length_sort. reflexivity.
Qed.

Lemma getUserStats_agrees_with_the_lists_witness :
  let s := Scenario.account in
  let stats :=
    {| UserManager.evidenceCount := 2; UserManager.sosAlertsCount := 0;
       UserManager.contactsCount := 3; UserManager.locationCount := 0 |} in
  UserManager.evidenceCount stats =
  List.length (EvidenceManager.getEvidenceList Scenario.Date_parse s VNull) /\
  UserManager.sosAlertsCount stats =
  List.length (SOSManager.getAlertHistory Scenario.Date_parse s) /\
  UserManager.contactsCount stats =
  List.length (ContactsManager.getContacts s) /\
  UserManager.locationCount stats =
  List.length (LocationManager.getLocationHistory Scenario.Date_parse s
                                                  (Some 0)) /\
  List.length (LocationManager.getLocationHistory Scenario.Date_parse s None) =
  Nat.min 100 (UserManager.locationCount stats).
Proof.
  intros s stats.
  apply (getUserStats_agrees_with_the_lists Scenario.Date_parse s stats).
  vm_compute. reflexivity.
Defined.

(** ** SOSManager.getAlertHistory *)

(** The alert that [triggerSOS] returns is the record that it has
    stored. *)
Lemma triggerSOS_stored s location now alert s' :
  SOSManager.triggerSOS s location now = (Success alert, s') ->
  exists user st',
    currentUser s = Some user /\
    currentUser s' = Some user /\
    db s' !! "sos_alerts" = Some st' /\
    In alert (store_getAll st') /\
    field alert "user_id" = field user "id" /\
    field alert "status" = SOSManager.ACTIVE /\
    field alert "triggered_at" = VStr now.
Proof.
  unfold SOSManager.triggerSOS. intros H.
  destruct (currentUser s) as [user|] eqn:Huser; [|discriminate].
  set (record := object _) in H.
  destruct (add (db s) "sos_alerts" record now) as [[id|e] db1] eqn:Hadd;
    [|discriminate].
  injection H as <- <-.
  destruct (add_inv _ _ _ _ _ _ Hadd) as (st & st' & Hst & Hs & ->).
  destruct (store_inv _ _ _ _ _ _ Hs) as (Hvk & _).
  pose proof (store_rows _ _ _ _ _ _ Hs) as Hrows.
  rewrite (set_field_key "id" id) by exact Hvk.
  set (alert := <["id" := id]> (stamp now record)).
  assert (Hread : forall f v,
             f <> "id" -> f <> "created_at" -> field record f = v ->
             field alert f = v).
  { intros f v N1 N2 <-. unfold alert.
    rewrite field_insert_ne by congruence.
    apply field_stamp_other. exact N2. }
  exists user, st'. split; [reflexivity|].
  assert (Hstate : forall s1 : State,
             currentUser s1 = Some user ->
             db s1 !! "sos_alerts" = Some st' ->
             currentUser
               match location with
               | Some l => snd (LocationManager.saveLocation s1 l now)
               | None => s1
               end = Some user /\
             db match location with
                | Some l => snd (LocationManager.saveLocation s1 l now)
                | None => s1
                end !! "sos_alerts" = Some st').
  { intros s1 Hu Hd. destruct location as [l|]; [|auto].
    destruct (saveLocation_keeps s1 l now) as (_ & Hu' & Hd').
    rewrite Hu', Hd' by congruence. auto. }
  destruct (Hstate {| db := <["sos_alerts" := st']> (db s);
                      currentUser := Some user;
                      currentAlert := Some alert |}
                   eq_refl (lookup_insert_eq _ _ _)) as [Hu Hd].
  split; [exact Hu|]. split; [exact Hd|]. split.
  - unfold store_getAll. apply in_map_iff.
    exists (id, alert). split; [reflexivity|].
    rewrite Hrows. apply in_put_row.
  - split; [apply Hread; try congruence; unfold record; read_object|].
    split; apply Hread; try congruence; unfold record; read_object.
Qed.

(** X30.  A triggered alert is in the history: the alert that a
    successful [triggerSOS] returns is among the alerts that
    [getAlertHistory] returns afterwards for the same user, with the
    status active, the user's id and the time of the call. *)
Theorem triggerSOS_then_history Date_parse s user location now alert s' :
  currentUser s = Some user ->
  valid_key (field user "id") = true ->
  SOSManager.triggerSOS s location now = (Success alert, s') ->
  In alert (SOSManager.getAlertHistory Date_parse s') /\
  field alert "user_id" = field user "id" /\
  field alert "status" = SOSManager.ACTIVE /\
  field alert "triggered_at" = VStr now.
Proof.
  intros Huser Hvalid H.
  destruct (triggerSOS_stored _ _ _ _ _ H)
    as (user0 & st' & Hu0 & Hu' & Hdb' & Hin & Huid & Hstatus & Htime).
  assert (user0 = user) by congruence. subst user0.
  split; [|auto].
  unfold SOSManager.getAlertHistory. rewrite Hu'.
  rewrite (getByIndex_key _ _ _ st')
    by (exact Hdb' || reflexivity || exact Hvalid).
  apply sort_in. apply filter_In. split; [exact Hin|].
  rewrite Huid. apply key_eqb_refl. exact Hvalid.
Qed.

Lemma triggerSOS_then_history_witness :
  let out := SOSManager.triggerSOS Scenario.logged_in None "t1" in
  let alert := match fst out with Success a => a | _ => Cases.user1 end in
  In alert (SOSManager.getAlertHistory Scenario.Date_parse (snd out)) /\
  field alert "user_id" = field Cases.user1 "id" /\
  field alert "status" = SOSManager.ACTIVE /\
  field alert "triggered_at" = VStr "t1".
Proof.
  intros out alert.
  apply (triggerSOS_then_history Scenario.Date_parse Scenario.logged_in
                                 Cases.user1 None "t1").
  - reflexivity.
  - vm_compute. reflexivity.
  - apply (success_value Cases.user1 out). vm_compute. reflexivity.
Defined.


